(** * b3d4api: the glTF frame decoder and the B3D4 websocket client

    A shallow embedding of [src/gltfutils.js] (the frame parser
    [gltfutils] and the client class [B3d4api]) and the properties of
    its specification.

    Modelling conventions.
    - A [Uint8Array] is a [list byte]; a JavaScript string is a [string]
      of 8-bit code units, which is exact for every string that
      [String.fromCharCode] builds from bytes; text messages are taken
      within that range.
    - A JavaScript value that can travel in a message is a [jsval].  A
      Number is modelled exactly when it is an integer of magnitude at
      most 2^53 ([JInt]); any other numeric literal is kept as its
      lexeme ([JDouble]) and arithmetic on it is outside the model.
    - Property reads of a message see own properties only; members
      inherited from the built-in prototypes (a key such as "toString")
      are outside the model there.  The registry of open requests is
      read as the plain object it is: a name that [Object.prototype]
      has finds the inherited member.  The registry of handlers is
      modelled for the keys the client builds, each a class, a colon
      and a name, which name no inherited member.
    - A function supplied by a caller (a handler, a completion
      function) is opaque: its call is recorded, and it is taken to
      return normally without touching the client.
    - The number of arguments [Function.prototype.apply] accepts
      depends on the engine: an [Engine] stands for one, between the
      65535 that every current engine accepts and the 500000 beyond
      which every one throws a [RangeError].  Memory is not modelled.
    - A socket url is accepted when it is [ws://] or [wss://] and a
      host of lower-case letters, rejected (a [SyntaxError]) when it
      has a fragment, and outside the model otherwise, where platforms
      differ; a page's mixed-content policy is not modelled.
    - A computation either completes normally, throws, or leaves the
      model ([Unmodelled]); no theorem below concludes anything from an
      [Unmodelled] outcome. *)

From Stdlib Require Import ZArith Lia.
From Stdlib Require Import Strings.Byte Strings.Ascii Strings.String.
From stdpp Require Import base strings list gmap pretty.

Local Open Scope string_scope.
Local Open Scope list_scope.
Local Open Scope Z_scope.

(** ** JavaScript values *)

Inductive js_error := SyntaxError | TypeError | RangeError | InvalidStateError.

#[warnings="-register-all"]
Inductive jsval :=
| JUndefined
| JNull
| JBool (b : bool)
| JInt (n : Z)
| JDouble (lexeme : string)
| JStr (s : string)
| JArr (elems : list jsval)
| JObj (props : list (string * jsval))
| JBlob (bytes : list byte) (type : string)
| JErr (e : js_error).

Inductive completion (A : Type) :=
| Normal (a : A)
| Throw (e : js_error)
| Unmodelled.

Arguments Normal {A} a.
Arguments Throw {A} e.
Arguments Unmodelled {A}.

Definition cbind {A B} (c : completion A) (k : A → completion B) : completion B :=
  match c with
  | Normal a => k a
  | Throw e => Throw e
  | Unmodelled => Unmodelled
  end.

Notation "'let!' x := c 'in' k" := (cbind c (λ x, k))
  (at level 10, x name, c at level 100, k at level 200).

(** [o[k]] for a string key [k]: own properties, the last binding of a
    repeated key being the one [JSON.parse] keeps. *)
Definition own_property (props : list (string * jsval)) (k : string) : jsval :=
  match find (λ p, String.eqb (fst p) k) (rev props) with
  | Some p => snd p
  | None => JUndefined
  end.

Definition is_digit (c : ascii) : bool :=
  (48 <=? N_of_ascii c)%N && (N_of_ascii c <=? 57)%N.

Fixpoint digits_value (acc : N) (s : list ascii) : N :=
  match s with
  | [] => acc
  | c :: r => digits_value (10 * acc + (N_of_ascii c - 48))%N r
  end.

(** An array index written canonically: "0", or digits without a
    leading zero. *)
Definition array_index (k : string) : option nat :=
  let cs := list_ascii_of_string k in
  match cs with
  | [] => None
  | c :: r =>
      if forallb is_digit cs && (negb (Ascii.eqb c "0") || match r with [] => true | _ => false end)
      then Some (N.to_nat (digits_value 0 cs))
      else None
  end.

Definition get_prop (v : jsval) (k : string) : completion jsval :=
  match v with
  | JUndefined | JNull => Throw TypeError
  | JObj props => Normal (own_property props k)
  | JArr elems =>
      if String.eqb k "length" then Normal (JInt (Z.of_nat (length elems)))
      else match array_index k with
           | Some i => Normal (nth i elems JUndefined)
           | None => Normal JUndefined
           end
  | JStr s =>
      if String.eqb k "length" then Normal (JInt (Z.of_nat (String.length s)))
      else match array_index k with
           | Some i => Normal (match String.get i s with
                               | Some c => JStr (String c EmptyString)
                               | None => JUndefined
                               end)
           | None => Normal JUndefined
           end
  | JBlob bytes type =>
      if String.eqb k "size" then Normal (JInt (Z.of_nat (length bytes)))
      else if String.eqb k "type" then Normal (JStr type)
      else Normal JUndefined
  | JErr _ => Unmodelled
  | JBool _ | JInt _ | JDouble _ => Normal JUndefined
  end.

(** [o.k = v] in strict mode (class bodies are strict code). *)
Definition set_own (props : list (string * jsval)) (k : string) (v : jsval)
  : list (string * jsval) :=
  if existsb (λ p, String.eqb (fst p) k) props
  then map (λ p, if String.eqb (fst p) k then (fst p, v) else p) props
  else props ++ [(k, v)].

Definition set_prop (o : jsval) (k : string) (v : jsval) : completion jsval :=
  match o with
  | JObj props => Normal (JObj (set_own props k v))
  | JArr _ | JBlob _ _ | JErr _ => Unmodelled
  | _ => Throw TypeError
  end.

(** ToBoolean; [None] where the value of a [JDouble] would be needed. *)
Definition to_boolean (v : jsval) : option bool :=
  match v with
  | JUndefined | JNull => Some false
  | JBool b => Some b
  | JInt n => Some (negb (n =? 0))
  | JDouble _ => None
  | JStr s => Some (negb (String.eqb s EmptyString))
  | JArr _ | JObj _ | JBlob _ _ | JErr _ => Some true
  end.

Definition truthy (v : jsval) : completion bool :=
  match to_boolean v with
  | Some b => Normal b
  | None => Unmodelled
  end.

(** ToPropertyKey, for the primitive keys whose text is determined. *)
Definition to_property_key (v : jsval) : completion string :=
  match v with
  | JStr s => Normal s
  | JInt n => Normal (pretty n)
  | JBool true => Normal "true"
  | JBool false => Normal "false"
  | JNull => Normal "null"
  | JUndefined => Normal "undefined"
  | _ => Unmodelled
  end.

(** A Number as [slice] receives it. *)
Inductive number := Int (z : Z) | NaN.

(** [a + v] for an integer Number [a]: numeric addition when [v] is
    undefined, null, a boolean or an integer; with a string or an
    object operand [+] concatenates strings, which is not modelled. *)
Definition js_add (a : Z) (v : jsval) : completion number :=
  match v with
  | JUndefined => Normal NaN
  | JNull => Normal (Int a)
  | JBool b => Normal (Int (a + Z.b2z b))
  | JInt n => Normal (Int (a + n))
  | _ => Unmodelled
  end.

Definition ToIntegerOrInfinity (n : number) : Z :=
  match n with
  | Int z => z
  | NaN => 0
  end.

(** ** Typed arrays and strings *)

(** [%TypedArray%.prototype.slice(start, end)] with both arguments
    already integers: negative positions count from the end, and both
    are clamped to the array. *)
Definition slice {A} (l : list A) (start end_ : Z) : list A :=
  let len := Z.of_nat (length l) in
  let k := if start <? 0 then Z.max (len + start) 0 else Z.min start len in
  let final := if end_ <? 0 then Z.max (len + end_) 0 else Z.min end_ len in
  take (Z.to_nat (final - k)) (drop (Z.to_nat k) l).

Definition byte_val (b : byte) : Z := Z.of_N (Byte.to_N b).

(** The string [String.fromCharCode] makes of its arguments. *)
Definition fromCharCode (bytes : list byte) : string :=
  string_of_list_byte bytes.

(** The engine the program runs on, known by what it accepts beyond
    65535 arguments in a call made with [apply]. *)
Record Engine := mkEngine { spare_arguments : N }.

(** The number of arguments [apply] accepts: at least 65535, at most
    500000. *)
Definition max_arguments (e : Engine) : Z :=
  65535 + Z.min (Z.of_N (spare_arguments e)) 434465.

Definition smallest_engine : Engine := mkEngine 0.
Definition largest_engine : Engine := mkEngine 434465.

(** [String.fromCharCode.apply(null, bytes)]: a [RangeError] when the
    array has more elements than [apply] accepts. *)
Definition fromCharCode_apply (e : Engine) (bytes : list byte) : completion string :=
  if Z.of_nat (length bytes) <=? max_arguments e
  then Normal (fromCharCode bytes)
  else Throw RangeError.

(** White space and line terminators that [String.prototype.trim]
    removes, among the code units below 256. *)
Definition is_js_space (c : ascii) : bool :=
  let n := N_of_ascii c in
  ((9 <=? n) && (n <=? 13) || (n =? 32) || (n =? 160))%N.

Fixpoint drop_while {A} (f : A → bool) (l : list A) : list A :=
  match l with
  | [] => []
  | x :: r => if f x then drop_while f r else l
  end.

Definition trim (s : string) : string :=
  string_of_list_ascii
    (rev (drop_while is_js_space (rev (drop_while is_js_space (list_ascii_of_string s))))).

Fixpoint join_comma (l : list string) : string :=
  match l with
  | [] => EmptyString
  | [x] => x
  | x :: r => x +:+ "," +:+ join_comma r
  end.

(** [toString] of a [Uint8Array] is [Array.prototype.toString]: the
    elements in decimal, joined by commas; its argument is ignored. *)
Definition Uint8Array_toString (bytes : list byte) : string :=
  join_comma (map (λ b, pretty (byte_val b)) bytes).

(** [s.replace(/\0/g, '')] *)
Definition remove_nul (s : string) : string :=
  string_of_list_ascii
    (List.filter (λ c, negb (N_of_ascii c =? 0)%N) (list_ascii_of_string s)).

(** ** [JSON.parse] *)

(** JSON texts are written below with an apostrophe where the text
    has a double quote; [dq] puts the double quotes in. *)
Definition dq (s : string) : string :=
  string_of_list_ascii
    (map (λ c, if (N_of_ascii c =? 39)%N then ascii_of_N 34 else c)
       (list_ascii_of_string s)).

(** The outcome of reading one construct off the front of the text:
    the construct and the text that follows it, a syntax error, a text
    beyond the model (an escape above U+00FF), or exhausted fuel. *)
Inductive presult (A : Type) :=
| POk (a : A) (rest : list ascii)
| PSyntax
| PBeyond
| PFuel.

Arguments POk {A} a rest.
Arguments PSyntax {A}.
Arguments PBeyond {A}.
Arguments PFuel {A}.

Definition is_json_ws (c : ascii) : bool :=
  let n := N_of_ascii c in
  ((n =? 32) || (n =? 9) || (n =? 10) || (n =? 13))%N.

Definition skip_ws (s : list ascii) : list ascii := drop_while is_json_ws s.

Definition hex_digit (c : ascii) : option N :=
  let n := N_of_ascii c in
  if ((48 <=? n) && (n <=? 57))%N then Some (n - 48)%N
  else if ((65 <=? n) && (n <=? 70))%N then Some (n - 55)%N
  else if ((97 <=? n) && (n <=? 102))%N then Some (n - 87)%N
  else None.

Definition hex4 (a b c d : ascii) : option N :=
  match hex_digit a, hex_digit b, hex_digit c, hex_digit d with
  | Some x, Some y, Some z, Some w => Some (4096 * x + 256 * y + 16 * z + w)%N
  | _, _, _, _ => None
  end.

(** The one-character escapes: quote, backslash, solidus, and the
    letters b, f, n, r, t. *)
Definition simple_escape (c : ascii) : option ascii :=
  let n := N_of_ascii c in
  if ((n =? 34) || (n =? 92) || (n =? 47))%N then Some c
  else if (n =? 98)%N then Some (ascii_of_N 8)
  else if (n =? 102)%N then Some (ascii_of_N 12)
  else if (n =? 110)%N then Some (ascii_of_N 10)
  else if (n =? 114)%N then Some (ascii_of_N 13)
  else if (n =? 116)%N then Some (ascii_of_N 9)
  else None.

(** The characters of a string literal after its opening quote, up to
    and including the closing quote. *)
Fixpoint lex_string (acc : list ascii) (s : list ascii) : presult string :=
  match s with
  | [] => PSyntax
  | c :: r =>
      let n := N_of_ascii c in
      if (n =? 34)%N then POk (string_of_list_ascii (rev acc)) r
      else if (n =? 92)%N then
        match r with
        | [] => PSyntax
        | e :: r1 =>
            if (N_of_ascii e =? 117)%N then
              match r1 with
              | h1 :: h2 :: h3 :: h4 :: r2 =>
                  match hex4 h1 h2 h3 h4 with
                  | Some u =>
                      if (u <? 256)%N then lex_string (ascii_of_N u :: acc) r2
                      else PBeyond
                  | None => PSyntax
                  end
              | _ => PSyntax
              end
            else
              match simple_escape e with
              | Some x => lex_string (x :: acc) r1
              | None => PSyntax
              end
        end
      else if (n <? 32)%N then PSyntax
      else lex_string (c :: acc) r
  end.

Fixpoint span_digits (s : list ascii) : list ascii * list ascii :=
  match s with
  | c :: r =>
      if is_digit c then let '(d, r') := span_digits r in (c :: d, r')
      else ([], s)
  | [] => ([], [])
  end.

Definition is_char (n : N) (c : ascii) : bool := (N_of_ascii c =? n)%N.

(** The optional fraction of a number: [.] and at least one digit. *)
Definition lex_fraction (s : list ascii) : option (list ascii * list ascii) :=
  match s with
  | c :: r =>
      if is_char 46 c then
        match span_digits r with
        | ([], _) => None
        | (d, r') => Some (c :: d, r')
        end
      else Some ([], s)
  | [] => Some ([], s)
  end.

(** The optional exponent: [e] or [E], an optional sign, digits. *)
Definition lex_exponent (s : list ascii) : option (list ascii * list ascii) :=
  match s with
  | c :: r =>
      if is_char 101 c || is_char 69 c then
        let '(sign, r1) :=
          match r with
          | x :: r1 => if is_char 43 x || is_char 45 x then ([x], r1) else ([], r)
          | [] => ([], r)
          end in
        match span_digits r1 with
        | ([], _) => None
        | (d, r') => Some (c :: sign ++ d, r')
        end
      else Some ([], s)
  | [] => Some ([], s)
  end.

Definition max_safe_integer : Z := 2 ^ 53.

(** A number literal.  An integer literal of magnitude at most 2^53 is
    the [JInt] it denotes; any other literal is kept as a [JDouble]. *)
Definition lex_number (s : list ascii) : presult jsval :=
  let '(neg, s1) :=
    match s with
    | c :: r => if is_char 45 c then (true, r) else (false, s)
    | [] => (false, s)
    end in
  let int_part :=
    match s1 with
    | c :: r =>
        if is_char 48 c then Some ([c], r)
        else if is_digit c then let '(d, r') := span_digits r in Some (c :: d, r')
        else None
    | [] => None
    end in
  match int_part with
  | None => PSyntax
  | Some (ds, s2) =>
      match lex_fraction s2 with
      | None => PSyntax
      | Some (fr, s3) =>
          match lex_exponent s3 with
          | None => PSyntax
          | Some (ex, s4) =>
              let n := Z.of_N (digits_value 0 ds) in
              match fr, ex with
              | [], [] =>
                  if n <=? max_safe_integer
                  then POk (JInt (if neg then - n else n)) s4
                  else POk (JDouble (string_of_list_ascii
                                       ((if neg then ["-"%char] else []) ++ ds))) s4
              | _, _ =>
                  POk (JDouble (string_of_list_ascii
                                  ((if neg then ["-"%char] else []) ++ ds ++ fr ++ ex))) s4
              end
          end
      end
  end.

Fixpoint strip_prefix (p s : list ascii) : option (list ascii) :=
  match p, s with
  | [], _ => Some s
  | a :: p', b :: s' => if Ascii.eqb a b then strip_prefix p' s' else None
  | _ :: _, [] => None
  end.

Definition lex_literal (word : string) (v : jsval) (s : list ascii) : presult jsval :=
  match strip_prefix (list_ascii_of_string word) s with
  | Some r => POk v r
  | None => PSyntax
  end.

Definition pmap {A B} (f : A → B) (r : presult A) : presult B :=
  match r with
  | POk a rest => POk (f a) rest
  | PSyntax => PSyntax
  | PBeyond => PBeyond
  | PFuel => PFuel
  end.

(** Recursive descent over the JSON grammar.  [parse_elements] reads
    the elements of an array after [[] or [,]; [parse_members] reads
    the members of an object after [{] or [,]. *)
Fixpoint parse_value (fuel : nat) (s : list ascii) {struct fuel} : presult jsval :=
  match fuel with
  | O => PFuel
  | S fuel =>
      match skip_ws s with
      | [] => PSyntax
      | c :: r =>
          if is_char 123 c then
            match skip_ws r with
            | x :: r' => if is_char 125 x then POk (JObj []) r'
                         else parse_members fuel [] (x :: r')
            | [] => PSyntax
            end
          else if is_char 91 c then
            match skip_ws r with
            | x :: r' => if is_char 93 x then POk (JArr []) r'
                         else parse_elements fuel [] (x :: r')
            | [] => PSyntax
            end
          else if is_char 34 c then pmap JStr (lex_string [] r)
          else if is_char 116 c then lex_literal "true" (JBool true) (c :: r)
          else if is_char 102 c then lex_literal "false" (JBool false) (c :: r)
          else if is_char 110 c then lex_literal "null" JNull (c :: r)
          else lex_number (c :: r)
      end
  end
with parse_elements (fuel : nat) (acc : list jsval) (s : list ascii) {struct fuel}
  : presult jsval :=
  match fuel with
  | O => PFuel
  | S fuel =>
      match parse_value fuel s with
      | POk v r =>
          match skip_ws r with
          | x :: r' =>
              if is_char 44 x then parse_elements fuel (v :: acc) r'
              else if is_char 93 x then POk (JArr (rev (v :: acc))) r'
              else PSyntax
          | [] => PSyntax
          end
      | other => other
      end
  end
with parse_members (fuel : nat) (acc : list (string * jsval)) (s : list ascii) {struct fuel}
  : presult jsval :=
  match fuel with
  | O => PFuel
  | S fuel =>
      match skip_ws s with
      | q :: r =>
          if is_char 34 q then
            match lex_string [] r with
            | POk k r1 =>
                match skip_ws r1 with
                | col :: r2 =>
                    if is_char 58 col then
                      match parse_value fuel r2 with
                      | POk v r3 =>
                          match skip_ws r3 with
                          | x :: r4 =>
                              if is_char 44 x then parse_members fuel ((k, v) :: acc) r4
                              else if is_char 125 x then POk (JObj (rev ((k, v) :: acc))) r4
                              else PSyntax
                          | [] => PSyntax
                          end
                      | other => other
                      end
                    else PSyntax
                | [] => PSyntax
                end
            | PSyntax => PSyntax
            | PBeyond => PBeyond
            | PFuel => PFuel
            end
          else PSyntax
      | [] => PSyntax
      end
  end.

(** The text with every escape above U+00FF lowered to [\u0000]:
    a text of the same syntax, whose strings are within the model. *)
Fixpoint lower_escapes (s : list ascii) : list ascii :=
  match s with
  | b :: r =>
      if is_char 92 b then
        match r with
        | u :: t =>
            if is_char 117 u then
              match t with
              | h1 :: h2 :: h3 :: h4 :: r' =>
                  match hex4 h1 h2 h3 h4 with
                  | Some n =>
                      if (n <? 256)%N
                      then b :: u :: h1 :: h2 :: h3 :: h4 :: lower_escapes r'
                      else b :: u :: "0"%char :: "0"%char :: "0"%char :: "0"%char
                           :: lower_escapes r'
                  | None => b :: u :: lower_escapes t
                  end
              | _ => b :: u :: lower_escapes t
              end
            else b :: u :: lower_escapes t
        | [] => [b]
        end
      else b :: lower_escapes r
  | [] => []
  end.

Definition parse_text (s : list ascii) : presult jsval :=
  match parse_value (2 * length s + 2) s with
  | POk v rest =>
      match skip_ws rest with
      | [] => POk v []
      | _ :: _ => PSyntax
      end
  | other => other
  end.

(** [JSON.parse(text)]: one value, white space around it, nothing else.
    It throws a [SyntaxError] on any other text.  A text with an
    escape above U+00FF has a value beyond the model when its syntax
    is right, and is a [SyntaxError] like any other when it is not. *)
Definition JSON_parse (text : string) : completion jsval :=
  let s := list_ascii_of_string text in
  match parse_text s with
  | POk v _ => Normal v
  | PSyntax => Throw SyntaxError
  | PBeyond =>
      match parse_text (lower_escapes s) with
      | PSyntax => Throw SyntaxError
      | _ => Unmodelled
      end
  | PFuel => Unmodelled
  end.


(** ** The frame decoder ([gltfutils]) *)

Definition int32_of_bytes (b0 b1 b2 b3 : byte) : Z :=
  let u := byte_val b0 + 256 * byte_val b1 + 65536 * byte_val b2
           + 16777216 * byte_val b3 in
  if u <? 2 ^ 31 then u else u - 2 ^ 32.

(** [bufferToInt32(buf)]: [buf] is a fresh slice, so its [buffer]
    starts at its first byte; [getInt32(0, true)] reads four bytes,
    least significant first, and raises a [RangeError] on a shorter
    buffer, which the function catches to return 0. *)
Definition bufferToInt32 (buf : list byte) : Z :=
  match buf with
  | b0 :: b1 :: b2 :: b3 :: _ => int32_of_bytes b0 b1 b2 b3
  | _ => 0
  end.

(** [glTF.state]: the string 'OK', or the object
    [{status: 'ERROR_FILE_BAD_JSON', error: err}]. *)
Inductive gltf_state :=
| StateOK
| StateError (status : string) (error : js_error).

(** The object [parseFrame] builds; a property it has not assigned is
    [None]. *)
Record glTF := mkGlTF {
  tag : string;
  version : Z;
  frameLength : Z;
  msgLength : Z;
  msgType : string;
  event : option jsval;
  state : gltf_state;
  dataLength : option Z;
  dataType : option string;
  data : option (list byte)
}.

(** The bytes of the text: [frame.slice(20, pos)]. *)
Definition frame_text (frame : list byte) : list byte :=
  slice frame 20 (20 + bufferToInt32 (slice frame 12 16)).

(** The text [msg] that [parseFrame] hands to [JSON.parse], when it
    gets there. *)
Definition frame_msg (frame : list byte) : string :=
  let pos := 20 + bufferToInt32 (slice frame 12 16) in
  trim (fromCharCode (slice frame 20 pos)).

(** The text is one that [apply] accepts on the engine. *)
Definition text_fits (e : Engine) (frame : list byte) : Prop :=
  Z.of_nat (length (frame_text frame)) ≤ max_arguments e.

Definition parseFrame (e : Engine) (frame : list byte) : completion glTF :=
  let! tag := fromCharCode_apply e (slice frame 0 4) in
  let version := bufferToInt32 (slice frame 4 8) in
  let frameLength := bufferToInt32 (slice frame 8 12) in
  let msgLength := bufferToInt32 (slice frame 12 16) in
  let! msgType := fromCharCode_apply e (slice frame 16 20) in
  let pos := 20 + msgLength in
  let! text := fromCharCode_apply e (slice frame 20 pos) in
  let msg := trim text in
  match JSON_parse msg with
  | Throw err =>
      Normal (mkGlTF tag version frameLength msgLength msgType None
                (StateError "ERROR_FILE_BAD_JSON" err) None None None)
  | Unmodelled => Unmodelled
  | Normal ev =>
      let dataLength := bufferToInt32 (slice frame pos (pos + 4)) in
      let dataType :=
        remove_nul (Uint8Array_toString (slice frame (pos + 4) (pos + 8))) in
      let pos := pos + 8 in
      let! bytes := get_prop ev "filesize" in
      let! last := js_add pos bytes in
      Normal (mkGlTF tag version frameLength msgLength msgType (Some ev)
                StateOK (Some dataLength) (Some dataType)
                (Some (slice frame pos (ToIntegerOrInfinity last))))
  end.

(** [uint8ToBlog(uint8)] with the default type. *)
Definition uint8ToBlog (uint8 : list byte) : jsval := JBlob uint8 "image/jpeg".

(** ** Writing frames *)

Definition byte_of_Z (z : Z) : byte :=
  default x00 (Byte.of_N (Z.to_N (z mod 256))).

(** A 32-bit integer, least significant byte first. *)
Definition int32 (n : Z) : list byte :=
  [byte_of_Z n; byte_of_Z (n / 256); byte_of_Z (n / 65536); byte_of_Z (n / 16777216)].

Definition chars (s : string) : list byte := list_byte_of_string s.

(** The frame of the specification's scenario, with its frame length
    [N] and its message length [len]. *)
Definition scenario_frame (N len : Z) : list byte :=
  chars "gLTF" ++ int32 1 ++ int32 N ++ int32 len ++ chars "evnt"
  ++ chars (dq "{'request':'buffer_capture','camera':'c','filesize':4}")
  ++ int32 0 ++ chars "jpg" ++ [x00] ++ [x01; x02; x03; x04].

(** ** The client ([B3d4api]) *)

(** The functions of [defaultMessageHandlers], in source order. *)
Inductive default_handler :=
| ConnectionOpen
| ConnectionClose
| ResponseConnect
| ResponseStationList
| ResponseStationSelect
| ResponsePreviewStart
| ResponsePreviewStop.

Definition default_key (d : default_handler) : string :=
  match d with
  | ConnectionOpen => "connection:open"
  | ConnectionClose => "connection:close"
  | ResponseConnect => "response:connect"
  | ResponseStationList => "response:station_list"
  | ResponseStationSelect => "response:station_select"
  | ResponsePreviewStart => "response:preview_start"
  | ResponsePreviewStop => "response:preview_stop"
  end.

Definition defaultMessageHandlers : list default_handler :=
  [ConnectionOpen; ConnectionClose; ResponseConnect; ResponseStationList;
   ResponseStationSelect; ResponsePreviewStart; ResponsePreviewStop].

(** A function stored in [messageHandlers]: the placeholder
    [function() {}] that [_setMessageHandler] seeds a key with, a
    function of [defaultMessageHandlers], or a function supplied by the
    caller.  A caller's function is opaque: its invocation is recorded
    and it is taken to return normally without touching the client. *)
Inductive handler :=
| Placeholder
| Default (d : default_handler)
| UserHandler (id : nat).

(** A function stored in [openClientRequests]: a resolving function of
    a promise, or a function supplied by the caller. *)
Inductive callback :=
| PromiseResolve (p : nat)
| PromiseReject (p : nat)
| UserCallback (id : nat).

Inductive promise_state :=
| Pending
| Fulfilled (v : jsval)
| Rejected (v : jsval).

Inductive ready_state := CONNECTING | OPEN | CLOSING | CLOSED.

(** A [WebSocket]: the url it was made for, its [readyState], and the
    messages handed to [send] while open (each the value that
    [JSON.stringify] serialised). *)
Record WebSocket := mkWebSocket {
  url : jsval;
  readyState : ready_state;
  sent : list jsval
}.

(** A timer set by [sendRequest]: its callback closes over [request]. *)
Record timer := mkTimer {
  timer_request : jsval;
  timer_delay : Z
}.

(** The fields of a [B3d4api] instance, followed by the part of the
    heap it works on (promises, sockets, timers), the record of the
    calls made to handlers ([handler.call(this, msg)]) and to completion
    functions ([resolve(msg)], [reject(msg)]), and the engine it runs
    on. *)
Record B3d4api := mkB3d4api {
  host : jsval;
  ws : option nat;
  sessionId : jsval;
  stationList : jsval;
  currentStation : jsval;
  isPreviewing : bool;
  messageHandlers : gmap string (list handler);
  openClientRequests : gmap string (callback * callback);
  promises : list promise_state;
  sockets : list WebSocket;
  timers : list timer;
  handler_calls : list (handler * jsval);
  callback_calls : list (callback * jsval);
  engine : Engine
}.

Definition set_host v (w : B3d4api) : B3d4api :=
  mkB3d4api v (ws w) (sessionId w) (stationList w) (currentStation w) (isPreviewing w)
    (messageHandlers w) (openClientRequests w) (promises w) (sockets w) (timers w)
    (handler_calls w) (callback_calls w) (engine w).
Definition set_ws v (w : B3d4api) : B3d4api :=
  mkB3d4api (host w) v (sessionId w) (stationList w) (currentStation w) (isPreviewing w)
    (messageHandlers w) (openClientRequests w) (promises w) (sockets w) (timers w)
    (handler_calls w) (callback_calls w) (engine w).
Definition set_sessionId v (w : B3d4api) : B3d4api :=
  mkB3d4api (host w) (ws w) v (stationList w) (currentStation w) (isPreviewing w)
    (messageHandlers w) (openClientRequests w) (promises w) (sockets w) (timers w)
    (handler_calls w) (callback_calls w) (engine w).
Definition set_stationList v (w : B3d4api) : B3d4api :=
  mkB3d4api (host w) (ws w) (sessionId w) v (currentStation w) (isPreviewing w)
    (messageHandlers w) (openClientRequests w) (promises w) (sockets w) (timers w)
    (handler_calls w) (callback_calls w) (engine w).
Definition set_currentStation v (w : B3d4api) : B3d4api :=
  mkB3d4api (host w) (ws w) (sessionId w) (stationList w) v (isPreviewing w)
    (messageHandlers w) (openClientRequests w) (promises w) (sockets w) (timers w)
    (handler_calls w) (callback_calls w) (engine w).
Definition set_isPreviewing v (w : B3d4api) : B3d4api :=
  mkB3d4api (host w) (ws w) (sessionId w) (stationList w) (currentStation w) v
    (messageHandlers w) (openClientRequests w) (promises w) (sockets w) (timers w)
    (handler_calls w) (callback_calls w) (engine w).
Definition set_messageHandlers v (w : B3d4api) : B3d4api :=
  mkB3d4api (host w) (ws w) (sessionId w) (stationList w) (currentStation w) (isPreviewing w)
    v (openClientRequests w) (promises w) (sockets w) (timers w)
    (handler_calls w) (callback_calls w) (engine w).
Definition set_openClientRequests v (w : B3d4api) : B3d4api :=
  mkB3d4api (host w) (ws w) (sessionId w) (stationList w) (currentStation w) (isPreviewing w)
    (messageHandlers w) v (promises w) (sockets w) (timers w)
    (handler_calls w) (callback_calls w) (engine w).
Definition set_promises v (w : B3d4api) : B3d4api :=
  mkB3d4api (host w) (ws w) (sessionId w) (stationList w) (currentStation w) (isPreviewing w)
    (messageHandlers w) (openClientRequests w) v (sockets w) (timers w)
    (handler_calls w) (callback_calls w) (engine w).
Definition set_sockets v (w : B3d4api) : B3d4api :=
  mkB3d4api (host w) (ws w) (sessionId w) (stationList w) (currentStation w) (isPreviewing w)
    (messageHandlers w) (openClientRequests w) (promises w) v (timers w)
    (handler_calls w) (callback_calls w) (engine w).
Definition set_timers v (w : B3d4api) : B3d4api :=
  mkB3d4api (host w) (ws w) (sessionId w) (stationList w) (currentStation w) (isPreviewing w)
    (messageHandlers w) (openClientRequests w) (promises w) (sockets w) v
    (handler_calls w) (callback_calls w) (engine w).
Definition set_handler_calls v (w : B3d4api) : B3d4api :=
  mkB3d4api (host w) (ws w) (sessionId w) (stationList w) (currentStation w) (isPreviewing w)
    (messageHandlers w) (openClientRequests w) (promises w) (sockets w) (timers w)
    v (callback_calls w) (engine w).
Definition set_callback_calls v (w : B3d4api) : B3d4api :=
  mkB3d4api (host w) (ws w) (sessionId w) (stationList w) (currentStation w) (isPreviewing w)
    (messageHandlers w) (openClientRequests w) (promises w) (sockets w) (timers w)
    (handler_calls w) v (engine w).

(** *** Methods as state transformers that may throw *)

Definition M (A : Type) : Type := B3d4api → completion A * B3d4api.

Definition ret {A} (a : A) : M A := λ w, (Normal a, w).

Definition bind {A B} (m : M A) (k : A → M B) : M B :=
  λ w, match m w with
       | (Normal a, w') => k a w'
       | (Throw e, w') => (Throw e, w')
       | (Unmodelled, w') => (Unmodelled, w')
       end.

Definition lift {A} (c : completion A) : M A := λ w, (c, w).
Definition get {A} (f : B3d4api → A) : M A := λ w, (Normal (f w), w).
Definition modify (f : B3d4api → B3d4api) : M unit := λ w, (Normal tt, f w).

Notation "x <- c ;; k" := (bind c (λ x, k))
  (at level 100, c at next level, right associativity).
Notation "c ;; k" := (bind c (λ _, k))
  (at level 100, right associativity).

(** [handlers.forEach(f)] *)
Fixpoint forEach {A} (l : list A) (f : A → M unit) : M unit :=
  match l with
  | [] => ret tt
  | x :: r => f x ;; forEach r f
  end.

Definition is_str (v : jsval) (s : string) : bool :=
  match v with
  | JStr t => String.eqb t s
  | _ => false
  end.

(** [base[key]]: a [TypeError] on an undefined or null base. *)
Definition get_elem (base key : jsval) : completion jsval :=
  match base with
  | JUndefined | JNull => Throw TypeError
  | _ => let! k := to_property_key key in get_prop base k
  end.

(** *** Promises *)

(** [new Promise(...)] leaves a fresh pending promise on the heap. *)
Definition new_promise : M nat :=
  λ w, (Normal (length (promises w)), set_promises (promises w ++ [Pending]) w).

(** A resolving function settles its promise once; later calls are
    ignored. *)
Definition settle (p : nat) (st : promise_state) : M unit :=
  modify (λ w, match promises w !! p with
               | Some Pending => set_promises (<[p := st]> (promises w)) w
               | _ => w
               end).

(** [Promise.reject(v)] *)
Definition Promise_reject (v : jsval) : M nat :=
  λ w, (Normal (length (promises w)), set_promises (promises w ++ [Rejected v]) w).

Definition call_callback (f : callback) (arg : jsval) : M unit :=
  modify (λ w, set_callback_calls (callback_calls w ++ [(f, arg)]) w) ;;
  match f with
  | PromiseResolve p => settle p (Fulfilled arg)
  | PromiseReject p => settle p (Rejected arg)
  | UserCallback _ => ret tt
  end.

(** *** The request registry *)

Definition _registerClientRequest (request_id : jsval) (resolve reject : callback)
  : M unit :=
  k <- lift (to_property_key request_id) ;;
  modify (λ w, set_openClientRequests (<[k := (resolve, reject)]> (openClientRequests w)) w).

(** The names of the members of [Object.prototype], which every
    plain object inherits. *)
Definition Object_prototype_names : list string :=
  ["constructor"; "__defineGetter__"; "__defineSetter__"; "hasOwnProperty";
   "__lookupGetter__"; "__lookupSetter__"; "isPrototypeOf"; "propertyIsEnumerable";
   "toString"; "valueOf"; "__proto__"; "toLocaleString"].

(** [openClientRequests] is a plain object.  An assignment under
    "__proto__" makes the entry the prototype of the object instead of
    a property of its own: the map keeps it under that name, [delete]
    leaves it, and it lends its members [resolve] and [reject] to the
    object.  [inherits o k] says that [o], which has no property [k] of
    its own, finds a member [k] on its prototype chain: a function, or
    under "__proto__" the prototype itself, and each time a value that
    is truthy and has neither [resolve] nor [reject]. *)
Definition inherits {V} (o : gmap string V) (k : string) : bool :=
  existsb (String.eqb k) Object_prototype_names
  || (bool_decide (is_Some (o !! "__proto__"))
      && (String.eqb k "resolve" || String.eqb k "reject")).

Definition _resolveClientRequest (request_id : jsval) (success : bool) (msg : jsval)
  : M unit :=
  k <- lift (to_property_key request_id) ;;
  entry <- get (λ w, openClientRequests w !! k) ;;
  match entry with
  | Some (resolve, reject) =>
      (if String.eqb k "__proto__" then ret tt
       else modify (λ w, set_openClientRequests (delete k (openClientRequests w)) w)) ;;
      if success then call_callback resolve msg else call_callback reject msg
  | None =>
      inherited <- get (λ w, inherits (openClientRequests w) k) ;;
      if inherited then lift (Throw TypeError) else ret tt
  end.

(** *** Handlers *)

(** [Array.prototype.slice(start)] *)
Definition slice_from {A} (l : list A) (start : Z) : list A :=
  slice l start (Z.of_nat (length l)).

(** [_setMessageHandler(key, handler)]; [None] is a handler that is
    not a function (null). *)
Definition _setMessageHandler (key : string) (h : option handler) : M unit :=
  modify (λ w, match messageHandlers w !! key with
               | Some _ => w
               | None => set_messageHandlers (<[key := [Placeholder]]> (messageHandlers w)) w
               end) ;;
  hs <- get (λ w, default [] (messageHandlers w !! key)) ;;
  match h with
  | None =>
      modify (λ w, set_messageHandlers (<[key := slice_from hs 1]> (messageHandlers w)) w)
  | Some f =>
      modify (λ w, set_messageHandlers (<[key := hs ++ [f]]> (messageHandlers w)) w)
  end.

Definition _setDefaultMessageHandlers : M unit :=
  forEach defaultMessageHandlers
    (λ d, _setMessageHandler (default_key d) (Some (Default d))).

Definition obj_error (message : string) : list (string * jsval) :=
  [("status", JStr "ERROR"); ("message", JStr message)].

(** The body of [defaultMessageHandlers[default_key d]], with [this]
    the client. *)
Definition default_body (d : default_handler) (msg : jsval) : M unit :=
  match d with
  | ConnectionOpen => ret tt
  | ConnectionClose =>
      code <- lift (get_prop msg "code") ;;
      reason <- lift (get_prop msg "reason") ;;
      wasClean <- lift (get_prop msg "wasClean") ;;
      _resolveClientRequest (JStr "connect") false
        (JObj (obj_error "rejected by websocket onclose()"
               ++ [("event", JObj [("code", code); ("reason", reason);
                                   ("wasClean", wasClean)])]))
  | ResponseConnect =>
      status <- lift (get_prop msg "status") ;;
      if is_str status "OK" then
        sid <- lift (get_prop msg "session_id") ;;
        modify (set_sessionId sid)
      else ret tt
  | ResponseStationList =>
      status <- lift (get_prop msg "status") ;;
      if is_str status "OK" then
        stations <- lift (get_prop msg "stations") ;;
        modify (set_stationList stations)
      else ret tt
  | ResponseStationSelect =>
      status <- lift (get_prop msg "status") ;;
      if is_str status "OK" then
        station_id <- lift (get_prop msg "station_id") ;;
        list <- get stationList ;;
        station <- lift (get_elem list station_id) ;;
        modify (set_currentStation station)
      else ret tt
  | ResponsePreviewStart =>
      status <- lift (get_prop msg "status") ;;
      if is_str status "OK" then modify (set_isPreviewing true) else ret tt
  | ResponsePreviewStop =>
      status <- lift (get_prop msg "status") ;;
      if is_str status "OK" then modify (set_isPreviewing false) else ret tt
  end.

(** [handler.call(this, msg)] *)
Definition call_handler (h : handler) (msg : jsval) : M unit :=
  modify (λ w, set_handler_calls (handler_calls w ++ [(h, msg)]) w) ;;
  match h with
  | Placeholder => ret tt
  | Default d => default_body d msg
  | UserHandler _ => ret tt
  end.

Definition _callMessageHandler (key : string) (msg : jsval) : M unit :=
  handlers <- get (λ w, default [] (messageHandlers w !! key)) ;;
  forEach handlers (λ h, call_handler h msg).

Definition handleServerRequest (request : jsval) (msg : jsval) : M unit :=
  match request with
  | JStr name =>
      _callMessageHandler "request:" msg ;;
      _callMessageHandler ("request:" +:+ name) msg
  | _ => ret tt
  end.

Definition handleServerResponse (response : jsval) (msg : jsval) : M unit :=
  match response with
  | JStr name =>
      _callMessageHandler "response:" msg ;;
      _callMessageHandler ("response:" +:+ name) msg
  | _ => ret tt
  end.

(** The public setters; [None] is a [handler] argument that is not a
    function. *)
Definition onServerRequest (request : jsval) (h : option handler) : M unit :=
  match request, h with
  | JStr name, Some f => _setMessageHandler ("request:" +:+ name) (Some f)
  | _, _ => ret tt
  end.

Definition onServerResponse (response : jsval) (h : option handler) : M unit :=
  match response, h with
  | JStr name, Some f => _setMessageHandler ("response:" +:+ name) (Some f)
  | _, _ => ret tt
  end.

Definition onConnectionOpen (h : option handler) : M unit :=
  match h with
  | Some f => _setMessageHandler "connection:open" (Some f)
  | None => ret tt
  end.

Definition onConnectionClose (h : option handler) : M unit :=
  match h with
  | Some f => _setMessageHandler "connection:close" (Some f)
  | None => ret tt
  end.

(** [new B3d4api(host)], on an engine. *)
Definition constructor (e : Engine) (host : jsval) : B3d4api :=
  snd (_setDefaultMessageHandlers
         (mkB3d4api host None JNull JNull JNull false ∅ ∅ [] [] [] [] [] e)).

(** *** The transport *)

(** What the platform makes of the url given to [new WebSocket]. *)
Inductive url_class := UrlAccepted | UrlRejected | UrlBeyond.

Definition is_lower (c : ascii) : bool :=
  (97 <=? N_of_ascii c)%N && (N_of_ascii c <=? 122)%N.

Definition is_host (s : list ascii) : bool :=
  match s with
  | [] => false
  | _ => forallb is_lower s
  end.

(** A url with a fragment is rejected on every platform; a [ws://] or
    [wss://] url whose remainder is a host of lower-case letters is
    accepted on every platform; on any other value (a relative url, a
    value that is not a string) platforms differ. *)
Definition classify_url (u : jsval) : url_class :=
  match u with
  | JStr s =>
      let cs := list_ascii_of_string s in
      if existsb (is_char 35) cs then UrlRejected
      else
        match strip_prefix (list_ascii_of_string "ws://") cs,
              strip_prefix (list_ascii_of_string "wss://") cs with
        | Some h, _ | None, Some h => if is_host h then UrlAccepted else UrlBeyond
        | None, None => UrlBeyond
        end
  | _ => UrlBeyond
  end.

(** [new WebSocket(url)]: a fresh socket, still connecting, or the
    [SyntaxError] of a rejected url. *)
Definition new_WebSocket (u : jsval) : M nat :=
  match classify_url u with
  | UrlAccepted =>
      λ w, (Normal (length (sockets w)),
            set_sockets (sockets w ++ [mkWebSocket u CONNECTING []]) w)
  | UrlRejected => lift (Throw SyntaxError)
  | UrlBeyond => lift Unmodelled
  end.

Definition update_socket (i : nat) (f : WebSocket → WebSocket) : M unit :=
  modify (λ w, set_sockets (alter f i (sockets w)) w).

(** [socket.close()] *)
Definition WebSocket_close (i : nat) : M unit :=
  update_socket i (λ s, match readyState s with
                        | CLOSED => s
                        | _ => mkWebSocket (url s) CLOSING (sent s)
                        end).

(** [this.ws.send(JSON.stringify(data))]: a [TypeError] while [ws] is
    null, an [InvalidStateError] while the socket is connecting; a
    closing or closed socket discards the message. *)
Definition ws_send (data : jsval) : M unit :=
  sock <- get ws ;;
  match sock with
  | None => lift (Throw TypeError)
  | Some i =>
      s <- get (λ w, sockets w !! i) ;;
      match s with
      | None => lift Unmodelled
      | Some s =>
          match readyState s with
          | CONNECTING => lift (Throw InvalidStateError)
          | OPEN => update_socket i (λ s, mkWebSocket (url s) OPEN (sent s ++ [data]))
          | CLOSING | CLOSED => ret tt
          end
      end
  end.

(** What [JSON.stringify(msg)] serialises after [msg.session_id = sid]:
    an object with the property set; of an array its elements alone,
    since the text of an array leaves out a property that is not an
    index; of a blob or an error object, which have no enumerable
    property of their own, the new property alone.  The assignment
    throws on a primitive. *)
Definition stamp (msg sid : jsval) : completion jsval :=
  match msg with
  | JArr elems => Normal (JArr elems)
  | JBlob _ _ | JErr _ => Normal (JObj [("session_id", sid)])
  | _ => set_prop msg "session_id" sid
  end.

Definition sendMessage (msg : jsval) : M unit :=
  sid <- get sessionId ;;
  live <- lift (truthy sid) ;;
  if negb live then ret tt
  else
    msg' <- lift (stamp msg sid) ;;
    ws_send msg'.

(** [new Promise(executor)]: an exception of the executor rejects the
    promise. *)
Definition new_Promise (executor : callback → callback → M unit) : M nat :=
  p <- new_promise ;;
  λ w, match executor (PromiseResolve p) (PromiseReject p) w with
       | (Normal _, w') => (Normal p, w')
       | (Throw e, w') => (settle p (Rejected (JErr e)) ;; ret p) w'
       | (Unmodelled, w') => (Unmodelled, w')
       end.

Definition setTimeout (request : jsval) (delay : Z) : M unit :=
  modify (λ w, set_timers (timers w ++ [mkTimer request delay]) w).

Definition sendRequest (msg timeout : jsval) : M nat :=
  let invalid := Promise_reject (JObj (obj_error "invalid session or invalid request")) in
  sid <- get sessionId ;;
  live <- lift (truthy sid) ;;
  if negb live then invalid
  else
    some <- lift (truthy msg) ;;
    if negb some then invalid
    else
      request <- lift (get_prop msg "request") ;;
      named <- lift (truthy request) ;;
      if negb named then invalid
      else
        new_Promise (λ resolve reject,
          _registerClientRequest request resolve reject ;;
          sendMessage msg ;;
          match timeout with
          | JInt n => if n =? 0 then ret tt else setTimeout request n
          | JDouble _ => lift Unmodelled
          | _ => ret tt
          end).

(** The [i]-th timer set by [sendRequest] fires: its callback runs. *)
Definition fire_timer (i : nat) : M unit :=
  t <- get (λ w, timers w !! i) ;;
  match t with
  | None => ret tt
  | Some t =>
      modify (λ w, set_timers (delete i (timers w)) w) ;;
      sid <- get sessionId ;;
      _resolveClientRequest (timer_request t) false
        (JObj [("session_id", sid); ("message", JStr "timed out")])
  end.

Definition connect (h : jsval) : M nat :=
  match h with
  | JStr _ => modify (set_host h)
  | _ => ret tt
  end ;;
  _resolveClientRequest (JStr "connect") false
    (JObj (obj_error "reset by new connect request")) ;;
  u <- get host ;;
  i <- new_WebSocket u ;;
  modify (set_ws (Some i)) ;;
  new_Promise (λ resolve reject, _registerClientRequest (JStr "connect") resolve reject).

Definition reconnect : M nat :=
  h <- get host ;;
  configured <- lift (truthy h) ;;
  if negb configured then Promise_reject (JObj (obj_error "invalid host"))
  else
    sock <- get ws ;;
    match sock with
    | Some i => WebSocket_close i
    | None => ret tt
    end ;;
    modify (set_sessionId JNull) ;;
    modify (set_stationList JNull) ;;
    modify (set_currentStation JNull) ;;
    modify (set_isPreviewing false) ;;
    modify (set_openClientRequests ∅) ;;
    connect JUndefined.

(** *** Events of the transport *)

(** What a message event carries: a string, or (the default
    [binaryType]) a [Blob] of bytes. *)
Inductive ws_data :=
| Text (s : string)
| Binary (bytes : list byte).

Definition ws_onopen (ev : jsval) : M unit :=
  _callMessageHandler "connection:open" ev.

Definition ws_onclose (ev : jsval) : M unit :=
  _callMessageHandler "connection:close" ev.

(** The callback given to [parseGltfBlob(msg).then]. *)
Definition on_gltf (gltf : glTF) : M unit :=
  ev <- lift (match event gltf with
              | Some ev => Normal ev
              | None => Throw TypeError
              end) ;;
  request <- lift (get_prop ev "request") ;;
  camera <- lift (get_prop ev "camera") ;;
  let frame := uint8ToBlog (default [] (data gltf)) in
  if is_str request "buffer_capture"
  then handleServerRequest (JStr "camera_snap") (JObj [("camera", camera); ("frame", frame)])
  else handleServerRequest (JStr "camera_frame") (JObj [("camera", camera); ("frame", frame)]).

(** The reaction runs after the blob has been read, as one step of
    its own; an exception inside it rejects a promise that nobody
    holds, so the client never sees it. *)
Definition unobserved (m : M unit) : M unit :=
  λ w, match m w with
       | (Throw _, w') => (Normal tt, w')
       | r => r
       end.

Definition ws_onmessage (data : ws_data) : M unit :=
  match data with
  | Binary bytes =>
      unobserved (e <- get engine ;; gltf <- lift (parseFrame e bytes) ;; on_gltf gltf)
  | Text s =>
      msg <- lift (JSON_parse s) ;;
      response_to <- lift (get_prop msg "response_to") ;;
      is_response <- lift (truthy response_to) ;;
      if is_response then
        _resolveClientRequest response_to true msg ;;
        handleServerResponse response_to msg
      else
        request <- lift (get_prop msg "request") ;;
        is_request <- lift (truthy request) ;;
        if is_request then handleServerRequest request msg else ret tt
  end.

(** The platform opens socket [i], then fires its [onopen]. *)
Definition transport_open (i : nat) (ev : jsval) : M unit :=
  update_socket i (λ s, mkWebSocket (url s) OPEN (sent s)) ;;
  ws_onopen ev.

(** The platform closes socket [i], then fires its [onclose]. *)
Definition transport_close (i : nat) (ev : jsval) : M unit :=
  update_socket i (λ s, mkWebSocket (url s) CLOSED (sent s)) ;;
  ws_onclose ev.

Definition run {A} (m : M A) (w : B3d4api) : B3d4api := snd (m w).

(** ** Scenarios *)

(** A client for which the server has accepted the connection: the
    socket is open and [response:connect] has delivered session "s1". *)
Definition connected_client : B3d4api :=
  run (connect JUndefined ;;
       transport_open 0 (JObj []) ;;
       ws_onmessage (Text (dq "{'response_to':'connect','status':'OK','session_id':'s1'}")))
    (constructor smallest_engine (JStr "ws://station")).

Definition scenario_event : jsval :=
  JObj [("request", JStr "buffer_capture"); ("camera", JStr "c"); ("filesize", JInt 4)].

(** The message the connection manager builds from the scenario's
    frame: [{camera, frame}]. *)
Definition scenario_message : jsval :=
  JObj [("camera", JStr "c"); ("frame", uint8ToBlog [x01; x02; x03; x04])].

(** A frame that announces four payload bytes and carries two. *)
Definition truncated_frame : list byte :=
  chars "gLTF" ++ int32 1 ++ int32 46 ++ int32 14 ++ chars "evnt"
  ++ chars (dq "{'filesize':4}")
  ++ int32 4 ++ chars "jpg" ++ [x00] ++ [x01; x02].

(** ** Vocabulary of the properties *)

(** The handlers registered under a key. *)
Definition handlers_of (w : B3d4api) (key : string) : list handler :=
  default [] (messageHandlers w !! key).

(** The trace of a dispatch: each handler paired with the message. *)
Definition calls_of (hs : list handler) (msg : jsval) : list (handler * jsval) :=
  map (λ h, (h, msg)) hs.

(** [this.ws.close()] when there is a socket. *)
Definition close_transport (w : B3d4api) : B3d4api :=
  match ws w with
  | Some i => run (WebSocket_close i) w
  | None => w
  end.

(** The session as the constructor leaves it, with no open request. *)
Definition reset_session (w : B3d4api) : B3d4api :=
  set_openClientRequests ∅
    (set_isPreviewing false
       (set_currentStation JNull (set_stationList JNull (set_sessionId JNull w)))).

(** A handler that leaves the client alone when called: the
    placeholder and the caller's functions. *)
Definition inert (h : handler) : Prop :=
  match h with
  | Default _ => False
  | _ => True
  end.

(** The response of the specification's scenario. *)
Definition station_select_response : jsval :=
  JObj [("response_to", JStr "station_select"); ("status", JStr "OK");
        ("station_id", JStr "A")].

(** The text of that response, as the server sends it. *)
Definition station_select_text : string :=
  dq "{'response_to':'station_select','status':'OK','station_id':'A'}".

(** A client that has received a station list keyed by station id. *)
Definition client_with_keyed_stations : B3d4api :=
  run (ws_onmessage
         (Text (dq "{'response_to':'station_list','status':'OK','stations':{'A':{'name':'front desk'}}}")))
    (constructor smallest_engine (JStr "ws://station")).

(** A client that has received a station list that is a sequence of
    records, each with its id. *)
Definition client_with_station_sequence : B3d4api :=
  run (ws_onmessage
         (Text (dq "{'response_to':'station_list','status':'OK','stations':[{'id':'A','name':'front desk'}]}")))
    (constructor smallest_engine (JStr "ws://station")).

(** A client with one caller's handler under the generic key
    "request:" (registered with the empty name) and one under
    "request:camera_snap". *)
Definition client_with_request_handlers : B3d4api :=
  run (onServerRequest (JStr "camera_snap") (Some (UserHandler 1)) ;;
       onServerRequest (JStr EmptyString) (Some (UserHandler 2)))
    (constructor smallest_engine (JStr "ws://station")).

Ltac unfold_m :=
  unfold run, bind, ret, lift, get, modify in *; cbn [fst snd] in *.

(** ** More of [gltfutils] *)

Fixpoint hex_prefix_value (acc : option N) (s : list ascii) : option N :=
  match s with
  | c :: r =>
      match hex_digit c with
      | Some d => hex_prefix_value (Some (16 * default 0%N acc + d)%N) r
      | None => acc
      end
  | [] => acc
  end.

(** [parseInt(s, 16)]: leading white space, an optional sign, an
    optional [0x] or [0X], then the longest run of hexadecimal digits;
    [NaN] when the run is empty.  The result is exact while it is below
    2^53, as it is for the two-character strings [hexToBlob] parses. *)
Definition parseInt16 (s : string) : number :=
  let s1 := drop_while is_js_space (list_ascii_of_string s) in
  let '(neg, s2) :=
    match s1 with
    | c :: r => if is_char 45 c then (true, r)
                else if is_char 43 c then (false, r)
                else (false, s1)
    | [] => (false, s1)
    end in
  let s3 :=
    match s2 with
    | a :: b :: r => if is_char 48 a && (is_char 120 b || is_char 88 b) then r else s2
    | _ => s2
    end in
  match hex_prefix_value None s3 with
  | Some v => Int (if neg then - Z.of_N v else Z.of_N v)
  | None => NaN
  end.

(** Storing a Number in a [Uint8Array]: [NaN] is stored as 0, an
    integer modulo 256. *)
Definition ToUint8 (n : number) : byte :=
  match n with
  | Int z => byte_of_Z z
  | NaN => x00
  end.

Definition ascii_lower (c : ascii) : ascii :=
  let n := N_of_ascii c in
  if ((65 <=? n) && (n <=? 90))%N then ascii_of_N (n + 32) else c.

(** The [type] a [Blob] keeps: in lower case, or empty when a
    character lies outside U+0020 to U+007E. *)
Definition Blob_type (t : string) : string :=
  let cs := list_ascii_of_string t in
  if forallb (λ c, (32 <=? N_of_ascii c)%N && (N_of_ascii c <=? 126)%N) cs
  then string_of_list_ascii (map ascii_lower cs)
  else EmptyString.

(** [hexToBlob(hexString, type)]; [None] is an omitted [type].  The
    array has [hexString.length / 2] elements, the length being
    truncated to an integer. *)
Definition hexToBlob (hexString : string) (type : option string) : jsval :=
  let byteArray :=
    map (λ x, ToUint8 (parseInt16 (substring (x * 2) 2 hexString)))
      (seq 0 (String.length hexString / 2)) in
  JBlob byteArray (Blob_type (default "image/jpeg" type)).

(** ** Writing hexadecimal strings and frames *)

Definition hex_char (n : N) : ascii :=
  if (n <? 10)%N then ascii_of_N (48 + n) else ascii_of_N (87 + n).

(** Two lower-case hexadecimal digits per byte. *)
Fixpoint to_hex (bytes : list byte) : string :=
  match bytes with
  | [] => EmptyString
  | b :: r =>
      String (hex_char (Byte.to_N b / 16)) (String (hex_char (Byte.to_N b mod 16)) (to_hex r))
  end.

(** A frame laid out as [parseFrame] reads it: the header, the text,
    the data length and type, the payload, and whatever follows. *)
Definition build_frame (tag : string) (version frameLength : Z) (msgType text : string)
    (dataLength : Z) (dataType payload trailer : list byte) : list byte :=
  chars tag ++ int32 version ++ int32 frameLength
  ++ int32 (Z.of_nat (String.length text)) ++ chars msgType ++ chars text
  ++ int32 dataLength ++ dataType ++ payload ++ trailer.

Definition int32_range (n : Z) : Prop := - 2 ^ 31 ≤ n < 2 ^ 31.

(** ** The request methods of [B3d4api] *)

(** [Promise.resolve(v)] for a value that is not a promise. *)
Definition Promise_resolve (v : jsval) : M nat :=
  λ w, (Normal (length (promises w)), set_promises (promises w ++ [Fulfilled v]) w).

(** A parameter declared [timeout = null]: an omitted (undefined)
    argument becomes null. *)
Definition or_null (v : jsval) : jsval :=
  match v with
  | JUndefined => JNull
  | _ => v
  end.

Definition is_string (v : jsval) : bool :=
  match v with
  | JStr _ => true
  | _ => false
  end.

Definition initSession (timeout : jsval) : M nat :=
  sendRequest (JObj [("request", JStr "session_init")]) (or_null timeout).

Definition listStations (timeout : jsval) : M nat :=
  sendRequest (JObj [("request", JStr "station_list")]) (or_null timeout).

Definition selectStation (stationId timeout : jsval) : M nat :=
  if negb (is_string stationId)
  then Promise_reject (JObj (obj_error "invalid station id"))
  else sendRequest (JObj [("request", JStr "station_select"); ("station_id", stationId)])
         (or_null timeout).

Definition preview_start_message : jsval :=
  JObj [("request", JStr "preview_start"); ("source", JStr "COLOR");
        ("format", JStr "JPEG"); ("dimension", JStr "240x320");
        ("camera", JStr "c"); ("frames", JInt 0); ("tracking", JStr "FACE")].

Definition startPreview (timeout : jsval) : M nat :=
  previewing <- get isPreviewing ;;
  if previewing then Promise_resolve (JObj [])
  else sendRequest preview_start_message (or_null timeout).

Definition stopPreview (timeout : jsval) : M nat :=
  previewing <- get isPreviewing ;;
  if negb previewing then Promise_resolve (JObj [])
  else sendRequest (JObj [("request", JStr "preview_stop")]) (or_null timeout).

(** [if (this.isPreviewing) this.stopPreview();] *)
Definition stop_preview_first : M unit :=
  previewing <- get isPreviewing ;;
  if previewing then (_ <- stopPreview JUndefined ;; ret tt) else ret tt.

Definition recordScan (timeout : jsval) : M nat :=
  stop_preview_first ;;
  sendRequest (JObj [("request", JStr "scan_record")]) (or_null timeout).

(** [processScan(scanId, timeout = null, debug = false)] *)
Definition processScan (scanId timeout debug : jsval) : M nat :=
  if negb (is_string scanId)
  then Promise_reject (JObj (obj_error "invalid scan id"))
  else
    stop_preview_first ;;
    sendRequest (JObj [("request", JStr "scan_process"); ("scan_id", scanId);
                       ("type", JStr "HEADMODEL");
                       ("debug", match debug with JUndefined => JBool false | _ => debug end)])
      (or_null timeout).

Definition releaseScan (scanId timeout : jsval) : M nat :=
  if negb (is_string scanId)
  then Promise_reject (JObj (obj_error "invalid scan id"))
  else sendRequest (JObj [("request", JStr "scan_release"); ("scan_id", scanId)])
         (or_null timeout).

Definition getCameraStatus (timeout : jsval) : M nat :=
  stop_preview_first ;;
  sendRequest (JObj [("request", JStr "camera_status")]) (or_null timeout).

(** ** The life of a client *)

(** What can happen to a client: a call of one of its public methods
    (with, as handler, a function of the caller's own, named by its
    number, or something that is not a function), an event of a socket,
    or a timer of [sendRequest] firing. *)
Inductive action :=
| CallOnServerRequest (request : jsval) (f : option nat)
| CallOnServerResponse (response : jsval) (f : option nat)
| CallOnConnectionOpen (f : option nat)
| CallOnConnectionClose (f : option nat)
| CallHandleServerRequest (request msg : jsval)
| CallHandleServerResponse (response msg : jsval)
| CallSendMessage (msg : jsval)
| CallSendRequest (msg timeout : jsval)
| CallConnect (h : jsval)
| CallReconnect
| CallInitSession (timeout : jsval)
| CallListStations (timeout : jsval)
| CallSelectStation (stationId timeout : jsval)
| CallStartPreview (timeout : jsval)
| CallStopPreview (timeout : jsval)
| CallRecordScan (timeout : jsval)
| CallProcessScan (scanId timeout debug : jsval)
| CallReleaseScan (scanId timeout : jsval)
| CallGetCameraStatus (timeout : jsval)
| SocketOpens (i : nat) (ev : jsval)
| SocketCloses (i : nat) (ev : jsval)
| SocketMessage (data : ws_data)
| TimerFires (i : nat).

Definition discard {A} (m : M A) : M unit := _ <- m ;; ret tt.

Definition perform (a : action) : M unit :=
  match a with
  | CallOnServerRequest request f => onServerRequest request (UserHandler <$> f)
  | CallOnServerResponse response f => onServerResponse response (UserHandler <$> f)
  | CallOnConnectionOpen f => onConnectionOpen (UserHandler <$> f)
  | CallOnConnectionClose f => onConnectionClose (UserHandler <$> f)
  | CallHandleServerRequest request msg => handleServerRequest request msg
  | CallHandleServerResponse response msg => handleServerResponse response msg
  | CallSendMessage msg => sendMessage msg
  | CallSendRequest msg timeout => discard (sendRequest msg timeout)
  | CallConnect h => discard (connect h)
  | CallReconnect => discard reconnect
  | CallInitSession timeout => discard (initSession timeout)
  | CallListStations timeout => discard (listStations timeout)
  | CallSelectStation stationId timeout => discard (selectStation stationId timeout)
  | CallStartPreview timeout => discard (startPreview timeout)
  | CallStopPreview timeout => discard (stopPreview timeout)
  | CallRecordScan timeout => discard (recordScan timeout)
  | CallProcessScan scanId timeout debug => discard (processScan scanId timeout debug)
  | CallReleaseScan scanId timeout => discard (releaseScan scanId timeout)
  | CallGetCameraStatus timeout => discard (getCameraStatus timeout)
  | SocketOpens i ev => transport_open i ev
  | SocketCloses i ev => transport_close i ev
  | SocketMessage data => ws_onmessage data
  | TimerFires i => fire_timer i
  end.

(** The client a computation leaves, when the computation stays
    within the model: it returns, or it throws and the client lives on
    as the exception left it. *)
Definition exec {A} (m : M A) (w : B3d4api) : option B3d4api :=
  match m w with
  | (Unmodelled, _) => None
  | (_, w') => Some w'
  end.

(** The client after a sequence of actions, each within the model. *)
Fixpoint run_actions (actions : list action) (w : B3d4api) : option B3d4api :=
  match actions with
  | [] => Some w
  | a :: rest =>
      match exec (perform a) w with
      | Some w' => run_actions rest w'
      | None => None
      end
  end.

(** The handlers a key has on a new client. *)
Definition builtin_handlers (key : string) : list handler :=
  match find (λ d, String.eqb (default_key d) key) defaultMessageHandlers with
  | Some d => [Placeholder; Default d]
  | None => [Placeholder]
  end.

Definition is_user (h : handler) : Prop :=
  match h with
  | UserHandler _ => True
  | _ => False
  end.

(** A promise that has been fulfilled or rejected. *)
Definition settled (st : promise_state) : Prop :=
  match st with
  | Pending => False
  | _ => True
  end.

(** A computation keeps a preorder [R] on a part of the client when
    the part it leaves is related to the part it found. *)
Definition keeps_rel {T A} (part : B3d4api → T) (R : T → T → Prop) (m : M A) : Prop :=
  ∀ w, R (part w) (part (snd (m w))).

(** Every settled promise of the first heap is in the second, at the
    same place and in the same state. *)
Definition settled_kept (ps ps' : list promise_state) : Prop :=
  ∀ p st, ps !! p = Some st → settled st → ps' !! p = Some st.

(** The second registry has the handlers of the first, in their
    places, followed by functions of callers; a key it has that the
    first has not holds the placeholder followed by such functions. *)
Definition registry_grows (m m' : gmap string (list handler)) : Prop :=
  ∀ key,
    match m !! key with
    | Some hs => ∃ us, m' !! key = Some (hs ++ us) ∧ Forall is_user us
    | None =>
        m' !! key = None
        ∨ ∃ us, m' !! key = Some (Placeholder :: us) ∧ Forall is_user us
    end.

(** A message that carries a session id: an object whose [session_id]
    is truthy. *)
Definition has_session_id (m : jsval) : Prop :=
  ∃ props, m = JObj props ∧ to_boolean (own_property props "session_id") = Some true.

(** What [sendMessage] lets out: a message that carries a session id,
    or an array, whose text has no place for one. *)
Definition stamped (m : jsval) : Prop :=
  has_session_id m ∨ ∃ elems, m = JArr elems.

(** Every message the sockets have sent is one of these. *)
Definition all_stamped (ss : list WebSocket) : Prop :=
  ∀ i s m, ss !! i = Some s → m ∈ sent s → stamped m.

Definition stamped_kept (ss ss' : list WebSocket) : Prop :=
  all_stamped ss → all_stamped ss'.

(** The methods that return the promise of a request. *)
Inductive request_method :=
| SendRequest (msg timeout : jsval)
| InitSession (timeout : jsval)
| ListStations (timeout : jsval)
| SelectStation (stationId timeout : jsval)
| StartPreview (timeout : jsval)
| StopPreview (timeout : jsval)
| RecordScan (timeout : jsval)
| ProcessScan (scanId timeout debug : jsval)
| ReleaseScan (scanId timeout : jsval)
| GetCameraStatus (timeout : jsval).

Definition call (r : request_method) : M nat :=
  match r with
  | SendRequest msg timeout => sendRequest msg timeout
  | InitSession timeout => initSession timeout
  | ListStations timeout => listStations timeout
  | SelectStation stationId timeout => selectStation stationId timeout
  | StartPreview timeout => startPreview timeout
  | StopPreview timeout => stopPreview timeout
  | RecordScan timeout => recordScan timeout
  | ProcessScan scanId timeout debug => processScan scanId timeout debug
  | ReleaseScan scanId timeout => releaseScan scanId timeout
  | GetCameraStatus timeout => getCameraStatus timeout
  end.

(** A call that hands back a promise of the heap it leaves, and does
    not throw. *)
Definition returns_a_promise (m : M nat) (w : B3d4api) : Prop :=
  match m w with
  | (Normal p, w') => is_Some (promises w' !! p)
  | (Throw _, _) => False
  | (Unmodelled, _) => True
  end.

(** The four fields of the session. *)
Definition session_of (w : B3d4api) : jsval * jsval * jsval * bool :=
  (sessionId w, stationList w, currentStation w, isPreviewing w).

(** What socket [i] has sent. *)
Definition sent_on (i : nat) (w : B3d4api) : list jsval :=
  default [] (sent <$> sockets w !! i).

(** A timeout within the model: not a Number other than an integer. *)
Definition modelled_timeout (timeout : jsval) : Prop :=
  match timeout with
  | JDouble _ => False
  | _ => True
  end.

(** The completion and the timers [sendRequest] leaves for a request
    that it sends. *)
Definition timeout_completion (timeout : jsval) (p : nat) : completion nat :=
  match timeout with
  | JDouble _ => Unmodelled
  | _ => Normal p
  end.

Definition timeout_timers (timeout : jsval) (name : string) (ts : list timer) : list timer :=
  match timeout with
  | JInt n => if n =? 0 then ts else ts ++ [mkTimer (JStr name) n]
  | _ => ts
  end.

(** The client's side of the transport: its socket, the sockets and
    timers of the heap, and the number of promises made. *)
Definition transport_of (w : B3d4api) : option nat * list WebSocket * list timer * nat :=
  (ws w, sockets w, timers w, length (promises w)).

(** * Properties *)

(** ** The JSON parser *)

Lemma drop_while_length {A} (f : A → bool) (l : list A) :
  (length (drop_while f l) ≤ length l)%nat.
Proof. induction l as [|x l IH]; cbn; [lia|]. destruct (f x); cbn; lia. Qed.

Lemma skip_ws_length (s : list ascii) : (length (skip_ws s) ≤ length s)%nat.
Proof. apply drop_while_length. Qed.

Lemma lex_string_rest (s : list ascii) :
  ∀ acc k r, lex_string acc s = POk k r → (length r < length s)%nat.
Proof.
  remember (length s) as n eqn:Hn. revert s Hn.
  induction n as [n IH] using lt_wf_ind. intros s -> acc k r.
  destruct s as [|c s]; cbn [lex_string]; [done|].
  destruct (N_of_ascii c =? 34)%N.
  { intros [= <- <-]. cbn. lia. }
  destruct (N_of_ascii c =? 92)%N.
  - destruct s as [|e s]; [done|].
    destruct (N_of_ascii e =? 117)%N.
    + destruct s as [|h1 [|h2 [|h3 [|h4 s]]]]; try done.
      destruct (hex4 h1 h2 h3 h4) as [u|]; [|done].
      destruct (u <? 256)%N; [|done].
      intros H.
      match type of H with
      | lex_string _ ?s' = _ =>
          apply (IH (length s') ltac:(cbn [length]; lia) s' eq_refl) in H
      end; cbn [length] in *; lia.
    + destruct (simple_escape e); [|done].
      intros H.
      match type of H with
      | lex_string _ ?s' = _ =>
          apply (IH (length s') ltac:(cbn [length]; lia) s' eq_refl) in H
      end; cbn [length] in *; lia.
  - destruct (N_of_ascii c <? 32)%N; [done|].
    intros H.
      match type of H with
      | lex_string _ ?s' = _ =>
          apply (IH (length s') ltac:(cbn [length]; lia) s' eq_refl) in H
      end; cbn [length] in *; lia.
Qed.

Lemma span_digits_length (s d r : list ascii) :
  span_digits s = (d, r) → length s = (length d + length r)%nat.
Proof.
  revert d r. induction s as [|c s IH]; intros d r; cbn.
  - by intros [= <- <-].
  - destruct (is_digit c).
    + destruct (span_digits s) as [d' r'] eqn:E. intros [= <- <-].
      cbn. f_equal. by apply IH.
    + by intros [= <- <-].
Qed.

Lemma lex_fraction_rest (s x r : list ascii) :
  lex_fraction s = Some (x, r) → (length r ≤ length s)%nat.
Proof.
  unfold lex_fraction. destruct s as [|c s]; [by intros [= <- <-]|].
  destruct (is_char 46 c); [|by intros [= <- <-]].
  destruct (span_digits s) as [d r'] eqn:E. apply span_digits_length in E.
  destruct d; [done|]. intros [= <- <-]. cbn in *. lia.
Qed.

Lemma lex_exponent_rest (s x r : list ascii) :
  lex_exponent s = Some (x, r) → (length r ≤ length s)%nat.
Proof.
  unfold lex_exponent. destruct s as [|c s]; [by intros [= <- <-]|].
  destruct (is_char 101 c || is_char 69 c); [|by intros [= <- <-]].
  destruct s as [|y s].
  - cbn. done.
  - destruct (is_char 43 y || is_char 45 y).
    + destruct (span_digits s) as [d r'] eqn:E. apply span_digits_length in E.
      destruct d; [done|]. intros [= <- <-]. cbn in *. lia.
    + destruct (span_digits (y :: s)) as [d r'] eqn:E. apply span_digits_length in E.
      destruct d; [done|]. intros [= <- <-]. cbn in *. lia.
Qed.

Lemma lex_number_rest (s : list ascii) (v : jsval) (r : list ascii) :
  lex_number s = POk v r → (length r < length s)%nat.
Proof.
  unfold lex_number.
  set (sign := match s with
               | c :: r0 => if is_char 45 c then (true, r0) else (false, s)
               | [] => (false, s)
               end).
  assert (Hsign : (length (snd sign) ≤ length s)%nat).
  { subst sign. destruct s as [|c s0]; cbn; [lia|]. destruct (is_char 45 c); cbn; lia. }
  destruct sign as [neg s1]. cbn [snd] in Hsign.
  set (ip := match s1 with
             | c :: r0 =>
                 if is_char 48 c then Some ([c], r0)
                 else if is_digit c
                      then let '(d, r') := span_digits r0 in Some (c :: d, r')
                      else None
             | [] => None
             end).
  assert (Hip : ∀ ds s2, ip = Some (ds, s2) → (length s2 < length s1)%nat).
  { subst ip. intros ds s2. destruct s1 as [|c s0]; [done|].
    destruct (is_char 48 c); [intros [= <- <-]; cbn; lia|].
    destruct (is_digit c); [|done].
    destruct (span_digits s0) as [d r'] eqn:E. apply span_digits_length in E.
    intros [= <- <-]. cbn. lia. }
  destruct ip as [[ds s2]|]; [|done].
  specialize (Hip ds s2 eq_refl).
  destruct (lex_fraction s2) as [[fr s3]|] eqn:Hfr; [|done].
  apply lex_fraction_rest in Hfr.
  destruct (lex_exponent s3) as [[ex s4]|] eqn:Hex; [|done].
  apply lex_exponent_rest in Hex.
  destruct fr, ex; try destruct (_ <=? _); intros [= <- <-]; lia.
Qed.

Lemma strip_prefix_length (p s r : list ascii) :
  strip_prefix p s = Some r → length s = (length p + length r)%nat.
Proof.
  revert s. induction p as [|a p IH]; intros s; cbn.
  - by intros [= <-].
  - destruct s as [|b s]; [done|]. destruct (Ascii.eqb a b); [|done].
    intros H. apply IH in H. cbn. lia.
Qed.

Lemma lex_literal_rest (word : string) (v v' : jsval) (s r : list ascii) :
  word ≠ EmptyString → lex_literal word v s = POk v' r → (length r < length s)%nat.
Proof.
  unfold lex_literal. intros Hword.
  destruct (strip_prefix _ s) as [r'|] eqn:E; [|done].
  apply strip_prefix_length in E. intros [= <- <-].
  destruct word; [done|]. cbn in E. lia.
Qed.

Lemma pmap_rest {A B} (f : A → B) (p : presult A) (b : B) (r : list ascii) :
  pmap f p = POk b r → ∃ a, p = POk a r.
Proof. destruct p; cbn; try done. intros [= <- <-]. eauto. Qed.

(** What a parser returns is read off the front of the text: the
    rest is strictly shorter. *)
Lemma parse_rest (n : nat) :
  (∀ s v r, parse_value n s = POk v r → (length r < length s)%nat)
  ∧ (∀ acc s v r, parse_elements n acc s = POk v r → (length r < length s)%nat)
  ∧ (∀ acc s v r, parse_members n acc s = POk v r → (length r < length s)%nat).
Proof.
  induction n as [|n (IHv & IHe & IHm)]; [by repeat split|].
  split; [|split].
  - intros s v r. cbn [parse_value].
    pose proof (skip_ws_length s) as Hs.
    destruct (skip_ws s) as [|c s1]; [done|]. cbn [length] in Hs.
    destruct (is_char 123 c).
    { pose proof (skip_ws_length s1) as Hs1.
      destruct (skip_ws s1) as [|x s2]; [done|]. cbn [length] in Hs1.
      destruct (is_char 125 x); [intros [= <- <-]; lia|].
      intros H. apply IHm in H. cbn [length] in H. lia. }
    destruct (is_char 91 c).
    { pose proof (skip_ws_length s1) as Hs1.
      destruct (skip_ws s1) as [|x s2]; [done|]. cbn [length] in Hs1.
      destruct (is_char 93 x); [intros [= <- <-]; lia|].
      intros H. apply IHe in H. cbn [length] in H. lia. }
    destruct (is_char 34 c).
    { intros H. apply pmap_rest in H as [k H]. apply lex_string_rest in H. lia. }
    destruct (is_char 116 c).
    { intros H. apply lex_literal_rest in H; [cbn [length] in H; lia|done]. }
    destruct (is_char 102 c).
    { intros H. apply lex_literal_rest in H; [cbn [length] in H; lia|done]. }
    destruct (is_char 110 c).
    { intros H. apply lex_literal_rest in H; [cbn [length] in H; lia|done]. }
    intros H. apply lex_number_rest in H. cbn [length] in H. lia.
  - intros acc s v r. cbn [parse_elements].
    destruct (parse_value n s) as [v1 r1| | |] eqn:Hv; try done.
    apply IHv in Hv.
    pose proof (skip_ws_length r1) as Hr1.
    destruct (skip_ws r1) as [|x r2]; [done|]. cbn [length] in Hr1.
    destruct (is_char 44 x).
    { intros H. apply IHe in H. lia. }
    destruct (is_char 93 x); [|done]. intros [= <- <-]. lia.
  - intros acc s v r. cbn [parse_members].
    pose proof (skip_ws_length s) as Hs.
    destruct (skip_ws s) as [|q s1]; [done|]. cbn [length] in Hs.
    destruct (is_char 34 q); [|done].
    destruct (lex_string [] s1) as [k r1| | |] eqn:Hk; try done.
    apply lex_string_rest in Hk.
    pose proof (skip_ws_length r1) as Hr1.
    destruct (skip_ws r1) as [|col r2]; [done|]. cbn [length] in Hr1.
    destruct (is_char 58 col); [|done].
    destruct (parse_value n r2) as [v1 r3| | |] eqn:Hv; try done.
    apply IHv in Hv.
    pose proof (skip_ws_length r3) as Hr3.
    destruct (skip_ws r3) as [|x r4]; [done|]. cbn [length] in Hr3.
    destruct (is_char 44 x).
    { intros H. apply IHm in H. lia. }
    destruct (is_char 125 x); [|done]. intros [= <- <-]. lia.
Qed.

Lemma lex_string_fuel (s : list ascii) : ∀ acc, lex_string acc s ≠ PFuel.
Proof.
  remember (length s) as n eqn:Hn. revert s Hn.
  induction n as [n IH] using lt_wf_ind. intros s -> acc.
  destruct s as [|c s]; cbn [lex_string]; [done|].
  destruct (N_of_ascii c =? 34)%N; [done|].
  destruct (N_of_ascii c =? 92)%N.
  - destruct s as [|e s]; [done|].
    destruct (N_of_ascii e =? 117)%N.
    + destruct s as [|h1 [|h2 [|h3 [|h4 s]]]]; try done.
      destruct (hex4 h1 h2 h3 h4) as [u|]; [|done].
      destruct (u <? 256)%N; [|done].
      apply (IH (length s)); [cbn [length]; lia|done].
    + destruct (simple_escape e); [|done].
      apply (IH (length s)); [cbn [length]; lia|done].
  - destruct (N_of_ascii c <? 32)%N; [done|].
    apply (IH (length s)); [cbn [length]; lia|done].
Qed.

Lemma lex_number_fuel (s : list ascii) : lex_number s ≠ PFuel.
Proof.
  unfold lex_number.
  destruct (match s with
            | c :: r0 => if is_char 45 c then (true, r0) else (false, s)
            | [] => (false, s)
            end) as [neg s1].
  destruct (match s1 with
            | c :: r0 =>
                if is_char 48 c then Some ([c], r0)
                else if is_digit c
                     then let '(d, r') := span_digits r0 in Some (c :: d, r')
                     else None
            | [] => None
            end) as [[ds s2]|]; [|done].
  destruct (lex_fraction s2) as [[fr s3]|]; [|done].
  destruct (lex_exponent s3) as [[ex s4]|]; [|done].
  destruct fr, ex; try destruct (_ <=? _); done.
Qed.

Lemma lex_literal_fuel (word : string) (v : jsval) (s : list ascii) :
  lex_literal word v s ≠ PFuel.
Proof. unfold lex_literal. by destruct (strip_prefix _ s). Qed.

(** Twice the length of the text, and two, is fuel enough. *)
Lemma parse_fuel (n : nat) :
  (∀ s, (2 * length s + 1 ≤ n)%nat → parse_value n s ≠ PFuel)
  ∧ (∀ acc s, (2 * length s + 2 ≤ n)%nat → parse_elements n acc s ≠ PFuel)
  ∧ (∀ acc s, (2 * length s + 2 ≤ n)%nat → parse_members n acc s ≠ PFuel).
Proof.
  induction n as [|n (IHv & IHe & IHm)]; [repeat split; intros; lia|].
  destruct (parse_rest n) as (Rv & _ & _).
  split; [|split].
  - intros s Hn. cbn [parse_value].
    pose proof (skip_ws_length s) as Hs.
    destruct (skip_ws s) as [|c s1]; [done|]. cbn [length] in Hs.
    destruct (is_char 123 c).
    { pose proof (skip_ws_length s1) as Hs1.
      destruct (skip_ws s1) as [|x s2]; [done|]. cbn [length] in Hs1.
      destruct (is_char 125 x); [done|]. apply IHm. cbn [length]. lia. }
    destruct (is_char 91 c).
    { pose proof (skip_ws_length s1) as Hs1.
      destruct (skip_ws s1) as [|x s2]; [done|]. cbn [length] in Hs1.
      destruct (is_char 93 x); [done|]. apply IHe. cbn [length]. lia. }
    destruct (is_char 34 c).
    { pose proof (lex_string_fuel s1 []) as Hk. by destruct (lex_string [] s1). }
    destruct (is_char 116 c); [apply lex_literal_fuel|].
    destruct (is_char 102 c); [apply lex_literal_fuel|].
    destruct (is_char 110 c); [apply lex_literal_fuel|].
    apply lex_number_fuel.
  - intros acc s Hn. cbn [parse_elements].
    pose proof (IHv s ltac:(lia)) as Hv.
    destruct (parse_value n s) as [v1 r1| | |] eqn:Ev; try done.
    apply Rv in Ev.
    pose proof (skip_ws_length r1) as Hr1.
    destruct (skip_ws r1) as [|x r2]; [done|]. cbn [length] in Hr1.
    destruct (is_char 44 x); [apply IHe; lia|].
    by destruct (is_char 93 x).
  - intros acc s Hn. cbn [parse_members].
    pose proof (skip_ws_length s) as Hs.
    destruct (skip_ws s) as [|q s1]; [done|]. cbn [length] in Hs.
    destruct (is_char 34 q); [|done].
    pose proof (lex_string_fuel s1 []) as Hk.
    destruct (lex_string [] s1) as [k r1| | |] eqn:Ek; try done.
    apply lex_string_rest in Ek.
    pose proof (skip_ws_length r1) as Hr1.
    destruct (skip_ws r1) as [|col r2]; [done|]. cbn [length] in Hr1.
    destruct (is_char 58 col); [|done].
    pose proof (IHv r2 ltac:(lia)) as Hv.
    destruct (parse_value n r2) as [v1 r3| | |] eqn:Ev; try done.
    apply Rv in Ev.
    pose proof (skip_ws_length r3) as Hr3.
    destruct (skip_ws r3) as [|x r4]; [done|]. cbn [length] in Hr3.
    destruct (is_char 44 x); [apply IHm; lia|].
    by destruct (is_char 125 x).
Qed.

(** [JSON_parse] always has fuel to spare: it leaves the model only on
    an escape above U+00FF. *)
Lemma JSON_parse_unmodelled (text : string) :
  JSON_parse text = Unmodelled →
  parse_value (2 * length (list_ascii_of_string text) + 2) (list_ascii_of_string text)
  = PBeyond.
Proof.
  unfold JSON_parse, parse_text. cbv zeta.
  destruct (parse_fuel (2 * length (list_ascii_of_string text) + 2)) as (Hv & _ & _).
  specialize (Hv (list_ascii_of_string text) ltac:(lia)).
  destruct (parse_value _ (list_ascii_of_string text)) as [v r| | |]; try done.
  by destruct (skip_ws r).
Qed.

(** ** The frame decoder *)

Lemma slice_take_drop {A} (l : list A) (p n : Z) :
  0 ≤ p → 0 ≤ n → slice l p (p + n) = take (Z.to_nat n) (drop (Z.to_nat p) l).
Proof.
  intros Hp Hn. unfold slice.
  destruct (Z.ltb_spec p 0) as [?|_]; [lia|].
  destruct (Z.ltb_spec (p + n) 0) as [?|_]; [lia|].
  destruct (Z.le_gt_cases (Z.of_nat (length l)) p) as [Hlen|Hlen].
  - rewrite (drop_ge l (Z.to_nat p)) by lia.
    rewrite (Z.min_r p) by lia. rewrite drop_ge by lia.
    by rewrite !take_nil.
  - rewrite (Z.min_l p) by lia.
    destruct (Z.le_gt_cases (p + n) (Z.of_nat (length l))) as [Hn'|Hn'].
    + rewrite Z.min_l by lia. f_equal. lia.
    + rewrite Z.min_r by lia.
      rewrite !take_ge; [done| |]; rewrite length_drop; lia.
Qed.

Lemma length_slice_take_drop {A} (l : list A) (p n : nat) :
  length (take n (drop p l)) = Nat.min n (length l - p).
Proof. by rewrite length_take, length_drop. Qed.

Lemma slice_app_mid {A} (pre mid post : list A) (a b : Z) :
  a = Z.of_nat (length pre) →
  b = a + Z.of_nat (length mid) →
  slice (pre ++ mid ++ post) a b = mid.
Proof.
  intros -> ->. rewrite slice_take_drop by lia.
  rewrite !Nat2Z.id. rewrite drop_app_length. apply take_app_length.
Qed.

Lemma length_chars (s : string) : length (chars s) = String.length s.
Proof.
  unfold chars, list_byte_of_string. rewrite length_map.
  induction s as [|c s IH]; cbn; [done|]. by rewrite IH.
Qed.

Lemma fromCharCode_chars (s : string) : fromCharCode (chars s) = s.
Proof. apply string_of_list_byte_of_string. Qed.

Lemma length_int32 (n : Z) : length (int32 n) = 4%nat.
Proof. reflexivity. Qed.

Lemma length_slice_le {A} (l : list A) (p n : Z) :
  0 ≤ p → 0 ≤ n → Z.of_nat (length (slice l p (p + n))) ≤ n.
Proof.
  intros Hp Hn. rewrite slice_take_drop by done. rewrite length_take. lia.
Qed.

(** *** The limit of [apply] *)

Lemma max_arguments_bounds (e : Engine) : 65535 ≤ max_arguments e ≤ 500000.
Proof. unfold max_arguments. lia. Qed.

Lemma apply_fits (e : Engine) (bytes : list byte) :
  Z.of_nat (length bytes) ≤ max_arguments e →
  fromCharCode_apply e bytes = Normal (fromCharCode bytes).
Proof.
  intros H. unfold fromCharCode_apply.
  by destruct (Z.leb_spec (Z.of_nat (length bytes)) (max_arguments e)); [|lia].
Qed.

Lemma apply_beyond (e : Engine) (bytes : list byte) :
  max_arguments e < Z.of_nat (length bytes) →
  fromCharCode_apply e bytes = Throw RangeError.
Proof.
  intros H. unfold fromCharCode_apply.
  by destruct (Z.leb_spec (Z.of_nat (length bytes)) (max_arguments e)); [lia|].
Qed.

(** The four bytes of the tag and of the message type are always
    within the limit. *)
Lemma apply_four (e : Engine) (frame : list byte) (p q : Z) :
  0 ≤ p → q = p + 4 →
  fromCharCode_apply e (slice frame p q) = Normal (fromCharCode (slice frame p q)).
Proof.
  intros Hp ->. apply apply_fits.
  pose proof (length_slice_le frame p 4 Hp ltac:(lia)).
  pose proof (max_arguments_bounds e). lia.
Qed.

(** [parseFrame] on a text that [apply] accepts: the three strings are
    decoded and the text goes to [JSON.parse]. *)
Lemma parseFrame_fits (e : Engine) (frame : list byte) :
  text_fits e frame →
  parseFrame e frame =
    let tag := fromCharCode (slice frame 0 4) in
    let version := bufferToInt32 (slice frame 4 8) in
    let frameLength := bufferToInt32 (slice frame 8 12) in
    let msgLength := bufferToInt32 (slice frame 12 16) in
    let msgType := fromCharCode (slice frame 16 20) in
    let pos := 20 + msgLength in
    match JSON_parse (frame_msg frame) with
    | Throw err =>
        Normal (mkGlTF tag version frameLength msgLength msgType None
                  (StateError "ERROR_FILE_BAD_JSON" err) None None None)
    | Unmodelled => Unmodelled
    | Normal ev =>
        let dataLength := bufferToInt32 (slice frame pos (pos + 4)) in
        let dataType :=
          remove_nul (Uint8Array_toString (slice frame (pos + 4) (pos + 8))) in
        let pos := pos + 8 in
        let! bytes := get_prop ev "filesize" in
        let! last := js_add pos bytes in
        Normal (mkGlTF tag version frameLength msgLength msgType (Some ev)
                  StateOK (Some dataLength) (Some dataType)
                  (Some (slice frame pos (ToIntegerOrInfinity last))))
    end.
Proof.
  intros Hfit. unfold parseFrame, frame_msg. cbv zeta.
  rewrite (apply_four e frame 0 4) by lia.
  rewrite (apply_four e frame 16 20) by lia.
  rewrite (apply_fits e (slice frame 20 _)) by exact Hfit.
  reflexivity.
Qed.

(** [parseFrame] on a longer text: the conversion of the text, which
    is outside the [try], throws. *)
Lemma parseFrame_beyond (e : Engine) (frame : list byte) :
  ¬ text_fits e frame → parseFrame e frame = Throw RangeError.
Proof.
  intros Hfit. unfold parseFrame. cbv zeta.
  rewrite (apply_four e frame 0 4) by lia.
  rewrite (apply_four e frame 16 20) by lia.
  rewrite (apply_beyond e (slice frame 20 _)); [done|].
  unfold text_fits, frame_text in Hfit. lia.
Qed.

(** A text of at most 65535 bytes fits on every engine. *)
Lemma short_text_fits (e : Engine) (frame : list byte) :
  Z.of_nat (length (frame_text frame)) ≤ 65535 → text_fits e frame.
Proof. intros H. unfold text_fits. pose proof (max_arguments_bounds e). lia. Qed.

(** A message length between 0 and 65535 gives such a text. *)
Lemma short_msgLength_fits (e : Engine) (frame : list byte) :
  0 ≤ bufferToInt32 (slice frame 12 16) ≤ 65535 → text_fits e frame.
Proof.
  intros [Hpos H]. apply short_text_fits. unfold frame_text.
  pose proof (length_slice_le frame 20 _ ltac:(lia) Hpos). lia.
Qed.

(** *** A frame with a long text *)

Lemma drop_while_spaces (n : nat) (l : list ascii) :
  drop_while is_js_space (replicate n " "%char ++ l) = drop_while is_js_space l.
Proof. induction n as [|n IH]; [reflexivity|exact IH]. Qed.

Lemma rev_replicate {A} (n : nat) (x : A) : rev (replicate n x) = replicate n x.
Proof.
  induction n as [|n IH]; [done|]. cbn [replicate rev]. rewrite IH.
  clear IH. induction n as [|n IH]; [done|]. cbn. by rewrite <- IH.
Qed.

Lemma drop_while_padded (l : list ascii) (n : nat) :
  drop_while is_js_space (l ++ replicate n " "%char)
  = match drop_while is_js_space l with
    | [] => []
    | d => d ++ replicate n " "%char
    end.
Proof.
  induction l as [|x r IH]; cbn [app drop_while].
  - rewrite <- (app_nil_r (replicate n " "%char)). apply drop_while_spaces.
  - by destruct (is_js_space x).
Qed.

(** Spaces after a text are trimmed away. *)
Lemma trim_padded (s : string) (n : nat) :
  trim (fromCharCode (chars s ++ replicate n x20)) = trim s.
Proof.
  unfold trim, fromCharCode.
  replace (list_ascii_of_string (string_of_list_byte (chars s ++ replicate n x20)))
    with (list_ascii_of_string s ++ replicate n " "%char).
  2:{ unfold string_of_list_byte, chars, list_byte_of_string.
      rewrite map_app, list_ascii_of_string_of_list_ascii, map_map. f_equal.
      - rewrite <- (map_id (list_ascii_of_string s)) at 1.
        apply map_ext. intros c. by rewrite ascii_of_byte_of_ascii.
      - induction n as [|n IH]; cbn; [done|]. by rewrite <- IH. }
  rewrite drop_while_padded.
  destruct (drop_while is_js_space (list_ascii_of_string s)) as [|x d]; [done|].
  by rewrite rev_app_distr, rev_replicate, drop_while_spaces.
Qed.

(** The frame whose text is [s] followed by [n] spaces. *)
Lemma long_frame_text (s : string) (n : nat) (m N : Z) :
  m = Z.of_nat (String.length s + n) →
  bufferToInt32 (int32 m) = m →
  frame_text (chars "gLTF" ++ int32 1 ++ int32 N ++ int32 m
              ++ chars "evnt" ++ chars s ++ replicate n x20)
  = chars s ++ replicate n x20.
Proof.
  intros Hm Hlen. unfold frame_text.
  set (text := chars s ++ replicate n x20).
  assert (Htext : length text = (String.length s + n)%nat).
  { unfold text. by rewrite length_app, length_replicate, length_chars. }
  assert (H12 : slice (chars "gLTF" ++ int32 1 ++ int32 N ++ int32 m
                       ++ chars "evnt" ++ text) 12 16 = int32 m).
  { rewrite (app_assoc (chars "gLTF")). rewrite (app_assoc (chars "gLTF" ++ _)).
    apply slice_app_mid; rewrite ?length_app, ?length_int32, ?length_chars;
      cbn [String.length]; lia. }
  rewrite H12, Hlen.
  rewrite <- (app_nil_r text) at 1.
  rewrite (app_assoc (chars "gLTF")). rewrite (app_assoc (chars "gLTF" ++ _)).
  rewrite (app_assoc ((chars "gLTF" ++ _) ++ _)).
  rewrite (app_assoc (((chars "gLTF" ++ _) ++ _) ++ _)).
  apply slice_app_mid; rewrite ?length_app, ?length_int32, ?Htext, ?length_chars;
    cbn [String.length]; lia.
Qed.

(** Such a frame with at least 500000 spaces: the text handed to
    [JSON.parse] would be [s] trimmed, and the conversion of the text
    throws on every engine. *)
Lemma long_text_throws (e : Engine) (s : string) (n : nat) (m N : Z) :
  m = Z.of_nat (String.length s + n) →
  500000 ≤ Z.of_nat n →
  s ≠ EmptyString →
  bufferToInt32 (int32 m) = m →
  let frame := chars "gLTF" ++ int32 1 ++ int32 N ++ int32 m ++ chars "evnt"
               ++ chars s ++ replicate n x20 in
  frame_msg frame = trim s
  ∧ parseFrame e frame = Throw RangeError.
Proof.
  intros Hm Hn Hs Hread frame.
  assert (Htext : frame_text frame = chars s ++ replicate n x20)
    by (by apply long_frame_text).
  split.
  - change (frame_msg frame) with (trim (fromCharCode (frame_text frame))).
    by rewrite Htext, trim_padded.
  - apply parseFrame_beyond. unfold text_fits.
    rewrite Htext, length_app, length_replicate, length_chars.
    pose proof (max_arguments_bounds e).
    destruct s; [done|]. cbn [String.length]. lia.
Qed.




(** C6, as the decoder has it.  When the embedded text is within what
    [apply] accepts on the engine and parses to an event whose
    [filesize] is a non-negative integer (and [msgLength] is not
    negative), [data] is the slice of the buffer that starts right
    after [dataType], at offset [28 + msgLength], and runs for
    [filesize] bytes or to the end of the buffer, whichever comes
    first; [dataLength] is only decoded and takes no part in it.  The
    slice has exactly [filesize] bytes when the buffer holds them. *)
Theorem data_is_slice_by_filesize (e : Engine) (frame : list byte) (ev : jsval) (n : Z) :
  text_fits e frame →
  JSON_parse (frame_msg frame) = Normal ev →
  get_prop ev "filesize" = Normal (JInt n) →
  0 ≤ bufferToInt32 (slice frame 12 16) →
  0 ≤ n →
  let p := Z.to_nat (28 + bufferToInt32 (slice frame 12 16)) in
  let d := take (Z.to_nat n) (drop p frame) in
  ∃ g, parseFrame e frame = Normal g
       ∧ event g = Some ev
       ∧ data g = Some d
       ∧ dataLength g = Some (bufferToInt32 (take 4 (drop (p - 8) frame)))
       ∧ length d = Nat.min (Z.to_nat n) (length frame - p)
       ∧ ((p + Z.to_nat n ≤ length frame)%nat → Z.of_nat (length d) = n).
Proof.
  intros Hfit Hjson Hsize Hlen Hn p d.
  rewrite parseFrame_fits by exact Hfit. cbv zeta.
  rewrite Hjson. unfold cbind. rewrite Hsize. cbn [js_add ToIntegerOrInfinity].
  eexists. split; [reflexivity|]. cbn [event data dataLength].
  split; [done|]. split.
  { f_equal. rewrite slice_take_drop by lia. subst d p. do 2 f_equal. lia. }
  split.
  { f_equal. f_equal.
    replace (20 + bufferToInt32 (slice frame 12 16) + 4)
      with ((20 + bufferToInt32 (slice frame 12 16)) + 4) by lia.
    rewrite slice_take_drop by lia. subst p. do 2 f_equal. lia. }
  split.
  { subst d. apply length_slice_take_drop. }
  intros Hfit'. subst d. rewrite length_slice_take_drop. lia.
Qed.

(** C6 on the scenario's frame: [dataLength] is 0, [filesize] is 4, and
    [data] holds the four payload bytes. *)
Lemma data_is_slice_by_filesize_witness :
  ∃ g, parseFrame smallest_engine (scenario_frame 86 54) = Normal g
       ∧ event g = Some scenario_event
       ∧ data g = Some [x01; x02; x03; x04]
       ∧ dataLength g = Some 0
       ∧ length [x01; x02; x03; x04] = 4%nat
       ∧ ((82 + 4 ≤ 86)%nat → Z.of_nat (length [x01; x02; x03; x04]) = 4).
Proof.
  exact (data_is_slice_by_filesize smallest_engine (scenario_frame 86 54) scenario_event 4
           ltac:(vm_compute; discriminate)
           eq_refl eq_refl ltac:(vm_compute; discriminate) ltac:(lia)).
Defined.

(** C6, as stated, fails on a buffer that ends early: the event
    announces [filesize] 4, the buffer carries two payload bytes, and
    [data] has length 2.  It fails on a long text too: the frame
    announces a text of 500014 bytes, the object with [filesize] 0 and
    500000 spaces, which trimmed is valid JSON; its conversion to a string
    throws a [RangeError] on the engine with the smallest and on the
    engine with the largest limit, and there is no [data] at all. *)
Lemma truncated_payload_is_shorter_than_filesize :
  (∃ g ev d, parseFrame smallest_engine truncated_frame = Normal g
             ∧ event g = Some ev
             ∧ get_prop ev "filesize" = Normal (JInt 4)
             ∧ data g = Some d
             ∧ length d = 2%nat)
  ∧ (let frame := chars "gLTF" ++ int32 1 ++ int32 500034 ++ int32 500014 ++ chars "evnt"
                  ++ chars (dq "{'filesize':0}") ++ replicate (Z.to_nat 500000) x20 in
     JSON_parse (frame_msg frame) = Normal (JObj [("filesize", JInt 0)])
     ∧ parseFrame smallest_engine frame = Throw RangeError
     ∧ parseFrame largest_engine frame = Throw RangeError).
Proof.
  split.
  - eexists _, _, _. split; [vm_compute; reflexivity|]. cbn [event data].
    split; [reflexivity|]. split; [reflexivity|]. split; reflexivity.
  - assert (Hm : 500014
                 = Z.of_nat (String.length (dq "{'filesize':0}") + Z.to_nat 500000))
      by (rewrite Nat2Z.inj_add, Z2Nat.id; [reflexivity|discriminate]).
    assert (Hn : 500000 ≤ Z.of_nat (Z.to_nat 500000))
      by (rewrite Z2Nat.id; discriminate).
    assert (Hread : bufferToInt32 (int32 500014) = 500014) by (vm_compute; reflexivity).
    pose proof (long_text_throws smallest_engine (dq "{'filesize':0}") _ _ 500034 Hm Hn
                  ltac:(discriminate) Hread) as [Hmsg Hs].
    pose proof (long_text_throws largest_engine (dq "{'filesize':0}") _ _ 500034 Hm Hn
                  ltac:(discriminate) Hread) as [_ Hl].
    split; [|exact (conj Hs Hl)].
    rewrite Hmsg. vm_compute. reflexivity.
Qed.

(** ** The scenario frame *)

Lemma bind_ext {A B} (m : M A) (k k' : A → M B) :
  (∀ a w, k a w = k' a w) → ∀ w, bind m k w = bind m k' w.
Proof.
  intros H w. unfold bind. destruct (m w) as [[a|err|] w']; [apply H|done|done].
Qed.


Lemma parseFrame_scenario (e : Engine) (b0 b1 b2 b3 : byte) :
  parseFrame e (chars "gLTF" ++ int32 1 ++ [b0; b1; b2; b3] ++ int32 54 ++ chars "evnt"
              ++ chars (dq "{'request':'buffer_capture','camera':'c','filesize':4}")
              ++ int32 0 ++ chars "jpg" ++ [x00] ++ [x01; x02; x03; x04])
  = Normal {| tag := "gLTF"; version := 1;
              frameLength := int32_of_bytes b0 b1 b2 b3;
              msgLength := 54; msgType := "evnt";
              event := Some scenario_event; state := StateOK;
              dataLength := Some 0; dataType := Some "106,112,103,0";
              data := Some [x01; x02; x03; x04] |}.
Proof.
  rewrite parseFrame_fits; [reflexivity|].
  apply short_msgLength_fits.
  match goal with |- 0 ≤ ?m ≤ _ => assert (H : m = 54) by reflexivity; rewrite H end.
  lia.
Qed.

(** C2, as the decoder has it.  With the message length that the JSON
    text really has, 54 bytes, the scenario's frame decodes to tag
    "gLTF", version 1, msgType "evnt", an event whose request is
    "buffer_capture", and the four payload bytes as data, whatever the
    frame length [N]; the connection manager dispatches it as the
    server request "camera_snap" with [{camera, frame}], and a handler
    registered for "camera_frame" is not called. *)
Theorem scenario_frame_decodes_and_dispatches (e : Engine) (N : Z) :
  (∃ g, parseFrame e (scenario_frame N 54) = Normal g
        ∧ tag g = "gLTF" ∧ version g = 1 ∧ msgLength g = 54 ∧ msgType g = "evnt"
        ∧ event g = Some scenario_event
        ∧ get_prop scenario_event "request" = Normal (JStr "buffer_capture")
        ∧ data g = Some [x01; x02; x03; x04])
  ∧ (∀ w, ws_onmessage (Binary (scenario_frame N 54)) w
          = unobserved (handleServerRequest (JStr "camera_snap") scenario_message) w)
  ∧ handler_calls
      (run (onServerRequest (JStr "camera_snap") (Some (UserHandler 1)) ;;
            onServerRequest (JStr "camera_frame") (Some (UserHandler 2)) ;;
            ws_onmessage (Binary (scenario_frame N 54)))
         (constructor e (JStr "ws://station")))
    = [(Placeholder, scenario_message); (UserHandler 1, scenario_message)].
Proof.
  assert (Hdec := λ e', parseFrame_scenario e' (byte_of_Z N) (byte_of_Z (N / 256))
                          (byte_of_Z (N / 65536)) (byte_of_Z (N / 16777216))).
  change (chars "gLTF" ++ int32 1 ++ _) with (scenario_frame N 54) in Hdec.
  assert (Hmsg : ∀ w, ws_onmessage (Binary (scenario_frame N 54)) w
                      = unobserved (handleServerRequest (JStr "camera_snap") scenario_message) w).
  { intros w. unfold ws_onmessage, unobserved, bind, lift, get. by rewrite Hdec. }
  split; [|split].
  - eexists. split; [exact (Hdec e)|]. by repeat split.
  - exact Hmsg.
  - transitivity
      (handler_calls
         (run (onServerRequest (JStr "camera_snap") (Some (UserHandler 1)) ;;
               onServerRequest (JStr "camera_frame") (Some (UserHandler 2)) ;;
               unobserved (handleServerRequest (JStr "camera_snap") scenario_message))
            (constructor e (JStr "ws://station")))).
    + unfold run. refine (f_equal handler_calls (f_equal snd _)).
      apply bind_ext. intros _ w1. apply bind_ext. intros _ w2. apply Hmsg.
    + vm_compute. reflexivity.
Qed.

(** C2, as stated, fails: with the message length 12 of the
    specification's frame, the text handed to [JSON.parse] is the first
    twelve bytes of the event, which is not JSON; the frame decodes to
    the bad-JSON record, without event, dataType or data, and nothing is
    dispatched. *)
Lemma scenario_frame_with_length_12_is_bad_json :
  parseFrame smallest_engine (scenario_frame 86 12)
  = Normal {| tag := "gLTF"; version := 1; frameLength := 86; msgLength := 12;
              msgType := "evnt"; event := None;
              state := StateError "ERROR_FILE_BAD_JSON" SyntaxError;
              dataLength := None; dataType := None; data := None |}
  ∧ handler_calls
      (run (onServerRequest (JStr "camera_snap") (Some (UserHandler 1)) ;;
            ws_onmessage (Binary (scenario_frame 86 12)))
         (constructor smallest_engine (JStr "ws://station")))
    = [].
Proof. split; vm_compute; reflexivity. Qed.

(** ** The request registry *)

Lemma call_callback_spec (f : callback) (arg : jsval) (w : B3d4api) :
  fst (call_callback f arg w) = Normal tt
  ∧ callback_calls (snd (call_callback f arg w)) = callback_calls w ++ [(f, arg)]
  ∧ openClientRequests (snd (call_callback f arg w)) = openClientRequests w
  ∧ messageHandlers (snd (call_callback f arg w)) = messageHandlers w
  ∧ handler_calls (snd (call_callback f arg w)) = handler_calls w.
Proof.
  unfold call_callback, settle. unfold_m.
  destruct f as [p|p|id]; cbn;
    try (destruct (promises w !! p) as [[| |]|]); by repeat split.
Qed.



(** [_resolveClientRequest] on a name with an entry of its own. *)
Lemma _resolveClientRequest_own
    (k : string) (resolve reject : callback) (success : bool) (msg : jsval) (w : B3d4api) :
  openClientRequests w !! k = Some (resolve, reject) →
  _resolveClientRequest (JStr k) success msg w
  = call_callback (if success then resolve else reject) msg
      (if String.eqb k "__proto__" then w
       else set_openClientRequests (delete k (openClientRequests w)) w).
Proof.
  intros Hk. unfold _resolveClientRequest. unfold_m.
  cbn [to_property_key]. rewrite Hk.
  destruct (String.eqb k "__proto__"); by destruct success.
Qed.

(** [_resolveClientRequest] on a name without an entry of its own. *)
Lemma _resolveClientRequest_none
    (k : string) (success : bool) (msg : jsval) (w : B3d4api) :
  openClientRequests w !! k = None →
  _resolveClientRequest (JStr k) success msg w
  = (if inherits (openClientRequests w) k then Throw TypeError else Normal tt, w).
Proof.
  intros Hk. unfold _resolveClientRequest. unfold_m.
  cbn [to_property_key]. rewrite Hk.
  by destruct (inherits (openClientRequests w) k).
Qed.





(** ** Handlers *)

(** C10.  With a name that is not a string, [handleServerRequest] and
    [handleServerResponse] return at once: the client, with its session
    fields, its handler registry, its open requests and the record of
    handler calls, is exactly as before. *)
Theorem non_string_name_is_ignored (name msg : jsval) (w : B3d4api) :
  (∀ s, name ≠ JStr s) →
  handleServerRequest name msg w = (Normal tt, w)
  ∧ handleServerResponse name msg w = (Normal tt, w).
Proof.
  intros Hname. destruct name; try (split; reflexivity).
  by destruct (Hname s).
Qed.

(** C10 with the number 5 as name, on a connected client. *)
Lemma non_string_name_is_ignored_witness :
  handleServerRequest (JInt 5) (JObj [("request", JInt 5)]) connected_client
  = (Normal tt, connected_client)
  ∧ handleServerResponse (JInt 5) (JObj [("request", JInt 5)]) connected_client
    = (Normal tt, connected_client).
Proof.
  apply (non_string_name_is_ignored (JInt 5) (JObj [("request", JInt 5)]) connected_client).
  intros s Hs. discriminate Hs.
Defined.

Lemma slice_from_1 {A} (l : list A) : slice_from l 1 = drop 1 l.
Proof.
  unfold slice_from. destruct l as [|x l]; [done|].
  replace (Z.of_nat (length (x :: l))) with (1 + Z.of_nat (length l))
    by (cbn [length]; lia).
  rewrite slice_take_drop by lia.
  change (Z.to_nat 1) with 1%nat. cbn [drop]. rewrite drop_0.
  apply take_ge. lia.
Qed.

Lemma clear_is_slice_1 (key : string) (w : B3d4api) :
  messageHandlers (run (_setMessageHandler key None) w) !! key
  = Some (drop 1 (default [Placeholder] (messageHandlers w !! key))).
Proof.
  unfold _setMessageHandler. unfold_m.
  destruct (messageHandlers w !! key) as [hs|] eqn:Hkey; cbn.
  - rewrite Hkey. cbn. rewrite lookup_insert_eq. by rewrite slice_from_1.
  - rewrite lookup_insert_eq. cbn. by rewrite lookup_insert_eq.
Qed.

(** C1 on the code.  For every key, [_setMessageHandler(key, null)]
    leaves under the key the list it found (the placeholder alone for a
    key never set) without its index 0 and with every later element.
    So on a new client, after two handlers are appended under a key and
    the handlers cleared, both appended handlers are still there: two
    handlers remain under "request:camera_snap" and three under
    "response:connect" (the function of [defaultMessageHandlers] sits
    at index 1), and clearing a key that was never set leaves no
    handler at all. *)
Theorem clear_removes_index_0_and_keeps_the_rest
    (e : Engine) (key : string) (w : B3d4api) :
  let add_two_then_clear k :=
    run (_setMessageHandler k (Some (UserHandler 1)) ;;
         _setMessageHandler k (Some (UserHandler 2)) ;;
         _setMessageHandler k None)
      (constructor e (JStr "ws://station")) in
  messageHandlers (run (_setMessageHandler key None) w) !! key
  = Some (drop 1 (default [Placeholder] (messageHandlers w !! key)))
  ∧ messageHandlers (add_two_then_clear "request:camera_snap") !! "request:camera_snap"
    = Some [UserHandler 1; UserHandler 2]
  ∧ messageHandlers (add_two_then_clear "response:connect") !! "response:connect"
    = Some [Default ResponseConnect; UserHandler 1; UserHandler 2]
  ∧ messageHandlers
      (run (_setMessageHandler "request:camera_snap" None)
         (constructor e (JStr "ws://station"))) !! "request:camera_snap"
    = Some [].
Proof.
  split; [apply clear_is_slice_1|].
  repeat split; vm_compute; reflexivity.
Qed.

(** ** Time-outs *)

Lemma sendRequest_registers
    (w : B3d4api) (name : string) (fields : list (string * jsval)) (n : Z)
    (i : nat) (s : WebSocket) :
  to_boolean (sessionId w) = Some true →
  own_property fields "request" = JStr name →
  name ≠ EmptyString →
  n ≠ 0 →
  ws w = Some i →
  sockets w !! i = Some s →
  readyState s ≠ CONNECTING →
  let sent := sendRequest (JObj fields) (JInt n) w in
  let p := length (promises w) in
  fst sent = Normal p
  ∧ promises (snd sent) = promises w ++ [Pending]
  ∧ timers (snd sent) = timers w ++ [mkTimer (JStr name) n]
  ∧ openClientRequests (snd sent)
    = <[name := (PromiseResolve p, PromiseReject p)]> (openClientRequests w)
  ∧ sessionId (snd sent) = sessionId w.
Proof.
  intros Hsid Hreq Hname Hn Hws Hsock Hstate. cbn zeta.
  assert (Hne : String.eqb name EmptyString = false) by (by apply String.eqb_neq).
  destruct w as [h sock sid sl cs ip mh ocr ps ss ts hc cc en]. cbn in Hsid, Hws, Hsock |- *.
  subst sock.
  unfold sendRequest, truthy, new_Promise, new_promise, _registerClientRequest,
    sendMessage, ws_send, setTimeout, update_socket, truthy.
  unfold_m. cbn. rewrite Hsid. cbn. rewrite Hreq. cbn. rewrite Hne. cbn.
  rewrite Hsid. cbn. rewrite Hsock. cbn.
  destruct (Z.eqb_spec n 0) as [?|_]; [done|].
  destruct (readyState s); [done|by cbn..].
Qed.

Lemma fire_timer_rejects
    (w : B3d4api) (t : nat) (name : string) (n : Z) (r : callback) (p : nat) :
  timers w !! t = Some (mkTimer (JStr name) n) →
  openClientRequests w !! name = Some (r, PromiseReject p) →
  promises w !! p = Some Pending →
  fst (fire_timer t w) = Normal tt
  ∧ promises (run (fire_timer t) w) !! p
    = Some (Rejected (JObj [("session_id", sessionId w); ("message", JStr "timed out")]))
  ∧ (name ≠ "__proto__" → openClientRequests (run (fire_timer t) w) !! name = None).
Proof.
  intros Htimer Hentry Hpending.
  destruct w as [h sock sid sl cs ip mh ocr ps ss ts hc cc en]. cbn in Htimer, Hentry, Hpending |- *.
  unfold fire_timer, _resolveClientRequest, call_callback, settle.
  unfold_m. cbn. rewrite Htimer. cbn. rewrite Hentry.
  destruct (String.eqb_spec name "__proto__") as [Heq|Hne];
    cbn; rewrite Hpending; cbn.
  - split; [done|]. split; [|done].
    apply list_lookup_insert_eq. by eapply lookup_lt_Some.
  - split; [done|]. split.
    + apply list_lookup_insert_eq. by eapply lookup_lt_Some.
    + intros _. apply lookup_delete_eq.
Qed.

(** C4 on the code.  On a client with a session and a socket past
    connecting, [sendRequest(msg, n)] with a request name and a
    non-zero integer [n] returns a pending promise, registers it under
    the name and sets a timer.  When that timer fires while the
    registration is still in place and the promise still pending, the
    promise is rejected with [{session_id, message: "timed out"}]: the
    message is "timed out", and the object has no [status]. *)
Theorem timeout_rejection_carries_no_status
    (w : B3d4api) (name : string) (fields : list (string * jsval)) (n : Z)
    (i : nat) (s : WebSocket) :
  to_boolean (sessionId w) = Some true →
  own_property fields "request" = JStr name →
  name ≠ EmptyString →
  n ≠ 0 →
  ws w = Some i →
  sockets w !! i = Some s →
  readyState s ≠ CONNECTING →
  let sent := sendRequest (JObj fields) (JInt n) w in
  let p := length (promises w) in
  (fst sent = Normal p
   ∧ promises (snd sent) !! p = Some Pending
   ∧ timers (snd sent) !! length (timers w) = Some (mkTimer (JStr name) n)
   ∧ openClientRequests (snd sent) !! name = Some (PromiseResolve p, PromiseReject p))
  ∧ ∀ w' t,
      timers w' !! t = Some (mkTimer (JStr name) n) →
      openClientRequests w' !! name = Some (PromiseResolve p, PromiseReject p) →
      promises w' !! p = Some Pending →
      let rejection := JObj [("session_id", sessionId w'); ("message", JStr "timed out")] in
      fst (fire_timer t w') = Normal tt
      ∧ promises (run (fire_timer t) w') !! p = Some (Rejected rejection)
      ∧ get_prop rejection "message" = Normal (JStr "timed out")
      ∧ get_prop rejection "status" = Normal JUndefined.
Proof.
  intros Hsid Hreq Hname Hn Hws Hsock Hstate sent p.
  destruct (sendRequest_registers w name fields n i s Hsid Hreq Hname Hn Hws Hsock Hstate)
    as (Hret & Hprom & Htimers & Hopen & _).
  fold sent in Hret, Hprom, Htimers, Hopen. fold p in Hret, Hopen.
  split.
  - split; [exact Hret|]. rewrite Hprom, Htimers, Hopen.
    split; [by rewrite lookup_app_r, Nat.sub_diag by lia|].
    split; [by rewrite lookup_app_r, Nat.sub_diag by lia|].
    apply lookup_insert_eq.
  - intros w' t Htimer Hentry Hpending rejection.
    destruct (fire_timer_rejects w' t name n (PromiseResolve p) p Htimer Hentry Hpending)
      as (Hok & Hrej & _).
    by repeat split.
Qed.

(** C4 on a connected client: [sendRequest({request: "station_list"}, 50)]
    and no reply. *)
Lemma timeout_rejection_carries_no_status_witness :
  let sent := sendRequest (JObj [("request", JStr "station_list")]) (JInt 50)
                connected_client in
  let rejection := JObj [("session_id", JStr "s1"); ("message", JStr "timed out")] in
  fst sent = Normal 1%nat
  ∧ promises (snd sent) !! 1%nat = Some Pending
  ∧ timers (snd sent) !! 0%nat = Some (mkTimer (JStr "station_list") 50)
  ∧ promises (run (fire_timer 0) (snd sent)) !! 1%nat = Some (Rejected rejection)
  ∧ get_prop rejection "message" = Normal (JStr "timed out")
  ∧ get_prop rejection "status" = Normal JUndefined.
Proof.
  cbn zeta.
  destruct (timeout_rejection_carries_no_status connected_client "station_list"
              [("request", JStr "station_list")] 50 0%nat
              (mkWebSocket (JStr "ws://station") OPEN []))
    as ((Hret & Hpending & Htimer & Hentry) & Hfire).
  - reflexivity.
  - reflexivity.
  - discriminate.
  - lia.
  - reflexivity.
  - reflexivity.
  - discriminate.
  - destruct (Hfire _ 0%nat Htimer Hentry Hpending) as (_ & Hrej & Hmsg & Hstatus).
    split; [exact Hret|]. split; [exact Hpending|]. split; [exact Htimer|].
    split; [exact Hrej|]. split; [exact Hmsg|exact Hstatus].
Defined.

(** ** Dispatch *)

Lemma _resolveClientRequest_frame (id : jsval) (success : bool) (msg : jsval) (w : B3d4api) :
  messageHandlers (snd (_resolveClientRequest id success msg w)) = messageHandlers w
  ∧ handler_calls (snd (_resolveClientRequest id success msg w)) = handler_calls w.
Proof.
  unfold _resolveClientRequest. unfold_m.
  destruct (to_property_key id) as [k| |]; cbn; [|done|done].
  destruct (openClientRequests w !! k) as [[resolve reject]|]; cbn [fst snd];
    [|by destruct (inherits (openClientRequests w) k)].
  destruct (String.eqb k "__proto__"); cbn [fst snd]; destruct success;
    match goal with
    | |- context [call_callback ?f ?m ?w'] =>
        destruct (call_callback_spec f m w') as (_ & _ & _ & -> & ->)
    end; done.
Qed.

Section Dispatch.

(** The message being dispatched. *)
Variable msg : jsval.

Lemma default_body_frame (d : default_handler) (w : B3d4api) :
  messageHandlers (snd (default_body d msg w)) = messageHandlers w
  ∧ handler_calls (snd (default_body d msg w)) = handler_calls w.
Proof.
  destruct d; unfold default_body; unfold_m; try done.
  - destruct (get_prop msg "code"); cbn; [|done|done].
    destruct (get_prop msg "reason"); cbn; [|done|done].
    destruct (get_prop msg "wasClean"); cbn; [|done|done].
    match goal with
    | |- context [JObj ?o] =>
        exact (_resolveClientRequest_frame (JStr "connect") false (JObj o) w)
    end.
  - destruct (get_prop msg "status") as [st| |]; cbn; [|done|done].
    destruct (is_str st "OK"); cbn; [|done].
    by destruct (get_prop msg "session_id").
  - destruct (get_prop msg "status") as [st| |]; cbn; [|done|done].
    destruct (is_str st "OK"); cbn; [|done].
    by destruct (get_prop msg "stations").
  - destruct (get_prop msg "status") as [st| |]; cbn; [|done|done].
    destruct (is_str st "OK"); cbn; [|done].
    destruct (get_prop msg "station_id") as [sid| |]; cbn; [|done|done].
    by destruct (get_elem (stationList w) sid).
  - destruct (get_prop msg "status") as [st| |]; cbn; [|done|done].
    by destruct (is_str st "OK").
  - destruct (get_prop msg "status") as [st| |]; cbn; [|done|done].
    by destruct (is_str st "OK").
Qed.

Lemma call_handler_frame (h : handler) (w : B3d4api) :
  messageHandlers (snd (call_handler h msg w)) = messageHandlers w
  ∧ handler_calls (snd (call_handler h msg w)) = handler_calls w ++ [(h, msg)].
Proof.
  unfold call_handler. unfold_m.
  destruct h as [|d|id]; cbn; try done.
  apply (default_body_frame d
           (set_handler_calls (handler_calls w ++ [(Default d, msg)]) w)).
Qed.

(** A dispatch calls the handlers in list order and stops at the first
    one that does not return normally: the calls it adds are those of a
    prefix of the list, and of the whole list when it returns. *)
Lemma forEach_calls (hs : list handler) (w : B3d4api) :
  ∃ k, (k ≤ length hs)%nat
       ∧ handler_calls (snd (forEach hs (λ h, call_handler h msg) w))
         = handler_calls w ++ calls_of (take k hs) msg
       ∧ messageHandlers (snd (forEach hs (λ h, call_handler h msg) w)) = messageHandlers w
       ∧ (fst (forEach hs (λ h, call_handler h msg) w) = Normal tt → k = length hs).
Proof.
  revert w. induction hs as [|h hs IH]; intros w.
  - exists 0%nat. cbn. by rewrite app_nil_r.
  - destruct (call_handler_frame h w) as [Hmh Hcalls].
    cbn [forEach]. unfold bind.
    destruct (call_handler h msg w) as [[[]| |] w1] eqn:Hcall; cbn [fst snd] in *.
    + destruct (IH w1) as (k & Hk & Htrace & Hreg & Hall).
      exists (S k). cbn [length take calls_of map].
      split; [lia|]. split.
      { rewrite Htrace, Hcalls. by rewrite <- app_assoc. }
      split; [congruence|]. intros Hn. f_equal. by apply Hall.
    + exists 1%nat. cbn [length]. split; [lia|].
      rewrite Hcalls. by destruct hs.
    + exists 1%nat. cbn [length]. split; [lia|].
      rewrite Hcalls. by destruct hs.
Qed.

Lemma dispatch_twice_calls (k1 k2 : string) (w : B3d4api) :
  let both := (_callMessageHandler k1 msg ;; _callMessageHandler k2 msg) w in
  ∃ k, handler_calls (snd both)
       = handler_calls w ++ take k (calls_of (handlers_of w k1 ++ handlers_of w k2) msg)
       ∧ (fst both = Normal tt → k = length (handlers_of w k1 ++ handlers_of w k2)).
Proof.
  cbn zeta.
  destruct (forEach_calls (handlers_of w k1) w) as (n1 & Hn1 & Htrace1 & Hreg1 & Hall1).
  assert (Hboth :
    (_callMessageHandler k1 msg ;; _callMessageHandler k2 msg) w
    = match forEach (handlers_of w k1) (λ h, call_handler h msg) w with
      | (Normal _, w1) => forEach (handlers_of w1 k2) (λ h, call_handler h msg) w1
      | (Throw e, w1) => (Throw e, w1)
      | (Unmodelled, w1) => (Unmodelled, w1)
      end) by reflexivity.
  rewrite Hboth. clear Hboth.
  destruct (forEach (handlers_of w k1) _ w) as [[[]| |] w1]; cbn [fst snd] in *.
  - replace (handlers_of w1 k2) with (handlers_of w k2)
      by (unfold handlers_of; by rewrite Hreg1).
    destruct (forEach_calls (handlers_of w k2) w1) as (n2 & Hn2 & Htrace2 & _ & Hall2).
    exists (length (handlers_of w k1) + n2)%nat. split.
    + rewrite Htrace2, Htrace1, (Hall1 eq_refl). rewrite firstn_all.
      unfold calls_of. rewrite map_app, <- app_assoc. f_equal.
      rewrite take_app_add'; [|by rewrite length_map].
      by rewrite firstn_map.
    + intros Hn. rewrite length_app. f_equal. by apply Hall2.
  - exists n1. split; [|done].
    rewrite Htrace1. unfold calls_of.
    rewrite map_app, take_app_le by (by rewrite length_map).
    by rewrite firstn_map.
  - exists n1. split; [|done].
    rewrite Htrace1. unfold calls_of.
    rewrite map_app, take_app_le by (by rewrite length_map).
    by rewrite firstn_map.
Qed.

End Dispatch.

(** C9.  For a string name [n], [handleServerRequest] is the dispatch
    under "request:" followed by the dispatch under "request:n", and
    [handleServerResponse] the same with "response:": the handler calls
    they add are, in order, those of the generic key and then those of
    the qualified key (all of them when the call returns, and a prefix
    of that sequence when a handler throws). *)
Theorem generic_dispatch_precedes_specific (n : string) (msg : jsval) (w : B3d4api) :
  (handleServerRequest (JStr n) msg w
   = (_callMessageHandler "request:" msg ;; _callMessageHandler ("request:" +:+ n) msg) w
   ∧ ∃ k, handler_calls (run (handleServerRequest (JStr n) msg) w)
          = handler_calls w
            ++ take k (calls_of (handlers_of w "request:"
                                 ++ handlers_of w ("request:" +:+ n)) msg)
          ∧ (fst (handleServerRequest (JStr n) msg w) = Normal tt →
             k = length (handlers_of w "request:" ++ handlers_of w ("request:" +:+ n))))
  ∧ (handleServerResponse (JStr n) msg w
     = (_callMessageHandler "response:" msg ;; _callMessageHandler ("response:" +:+ n) msg) w
     ∧ ∃ k, handler_calls (run (handleServerResponse (JStr n) msg) w)
            = handler_calls w
              ++ take k (calls_of (handlers_of w "response:"
                                   ++ handlers_of w ("response:" +:+ n)) msg)
            ∧ (fst (handleServerResponse (JStr n) msg w) = Normal tt →
               k = length (handlers_of w "response:" ++ handlers_of w ("response:" +:+ n)))).
Proof.
  split; (split; [reflexivity|]).
  - exact (dispatch_twice_calls msg "request:" ("request:" +:+ n) w).
  - exact (dispatch_twice_calls msg "response:" ("response:" +:+ n) w).
Qed.

(** C9 on a client with a handler under each key: the generic one is
    called first. *)
Lemma generic_dispatch_precedes_specific_witness :
  handler_calls
    (run (handleServerRequest (JStr "camera_snap") scenario_message)
       client_with_request_handlers)
  = [(Placeholder, scenario_message); (UserHandler 2, scenario_message);
     (Placeholder, scenario_message); (UserHandler 1, scenario_message)].
Proof.
  destruct (generic_dispatch_precedes_specific "camera_snap" scenario_message
              client_with_request_handlers) as [(_ & k & Htrace & Hall) _].
  rewrite Htrace, (Hall eq_refl). reflexivity.
Defined.

(** ** Reconnecting *)

Lemma nothing_inherited_connect :
  inherits (∅ : gmap string (callback * callback)) "connect" = false.
Proof. vm_compute. reflexivity. Qed.

(** [connect()] up to [new WebSocket] when no request is open: the
    rejection of a pending connect finds nothing. *)
Lemma connect_reaches_new_WebSocket (w : B3d4api) :
  openClientRequests w = ∅ →
  connect JUndefined w
  = (i <- new_WebSocket (host w) ;;
     modify (set_ws (Some i)) ;;
     new_Promise (λ resolve reject, _registerClientRequest (JStr "connect") resolve reject)) w.
Proof.
  intros Hnone. unfold connect.
  unfold bind at 1. unfold ret at 1. cbv iota beta.
  unfold bind at 1.
  rewrite _resolveClientRequest_none by (rewrite Hnone; apply lookup_empty).
  rewrite Hnone, nothing_inherited_connect.
  reflexivity.
Qed.

Lemma connect_without_pending (w : B3d4api) :
  openClientRequests w = ∅ →
  classify_url (host w) = UrlAccepted →
  connect JUndefined w
  = (Normal (length (promises w)),
     set_openClientRequests
       {[ "connect" := (PromiseResolve (length (promises w)),
                        PromiseReject (length (promises w))) ]}
       (set_promises (promises w ++ [Pending])
          (set_ws (Some (length (sockets w)))
             (set_sockets (sockets w ++ [mkWebSocket (host w) CONNECTING []]) w)))).
Proof.
  intros Hnone Hurl. rewrite connect_reaches_new_WebSocket by exact Hnone.
  unfold new_WebSocket. rewrite Hurl.
  destruct w. cbn in Hnone. subst.
  unfold new_Promise, _registerClientRequest, new_promise.
  unfold_m. cbn.
  by rewrite insert_empty.
Qed.

(** On a url that the platform rejects, [new WebSocket] throws and
    [connect] stops there. *)
Lemma connect_rejected_url (w : B3d4api) :
  openClientRequests w = ∅ →
  classify_url (host w) = UrlRejected →
  connect JUndefined w = (Throw SyntaxError, w).
Proof.
  intros Hnone Hurl. rewrite connect_reaches_new_WebSocket by exact Hnone.
  unfold new_WebSocket. rewrite Hurl. reflexivity.
Qed.

(** C8.  [reconnect()] on a client without a host (a falsy [host])
    returns a promise already rejected with "invalid host" and changes
    nothing else.  With a host it is [connect()] run on the client
    whose socket, if any, has been closed and whose sessionId,
    stationList, currentStation and isPreviewing are back to null,
    null, null and false.  When the host is a url the platform accepts,
    those four fields still have these values after it, [ws] is a fresh
    connecting socket for the host, the returned promise is pending,
    the only one registered, under "connect", and every earlier
    promise is as it was: the reset has dropped the registration of a
    pending [connect] before [connect] looks for one to reject.  When
    the host is a url the platform rejects, [new WebSocket] throws its
    [SyntaxError] inside [connect], and the client is left closed and
    reset: the reset has been made by then. *)
Theorem reconnect_resets_before_connecting (w : B3d4api) :
  match to_boolean (host w) with
  | Some false =>
      reconnect w
      = (Normal (length (promises w)),
         set_promises (promises w ++ [Rejected (JObj (obj_error "invalid host"))]) w)
  | Some true =>
      let cleared := reset_session (close_transport w) in
      reconnect w = connect JUndefined cleared
      ∧ (sessionId cleared = JNull ∧ stationList cleared = JNull
         ∧ currentStation cleared = JNull ∧ isPreviewing cleared = false)
      ∧ (∀ i s, ws w = Some i → sockets w !! i = Some s →
                sockets cleared !! i
                = Some (mkWebSocket (url s)
                          (match readyState s with CLOSED => CLOSED | _ => CLOSING end)
                          (sent s)))
      ∧ match classify_url (host w) with
        | UrlAccepted =>
            let w' := run reconnect w in
            fst (reconnect w) = Normal (length (promises w))
            ∧ (sessionId w' = JNull ∧ stationList w' = JNull
               ∧ currentStation w' = JNull ∧ isPreviewing w' = false)
            ∧ ws w' = Some (length (sockets w))
            ∧ sockets w' !! length (sockets w) = Some (mkWebSocket (host w) CONNECTING [])
            ∧ promises w' = promises w ++ [Pending]
            ∧ openClientRequests w'
              = {[ "connect" := (PromiseResolve (length (promises w)),
                                 PromiseReject (length (promises w))) ]}
        | UrlRejected => reconnect w = (Throw SyntaxError, cleared)
        | UrlBeyond => True
        end
  | None => True
  end.
Proof.
  destruct (to_boolean (host w)) as [[|]|] eqn:Hhost; [| |done].
  - intros cleared.
    assert (Hre : reconnect w = connect JUndefined cleared).
    { subst cleared. unfold reconnect, truthy, close_transport, reset_session.
      unfold_m. rewrite Hhost. cbn. by destruct (ws w). }
    assert (Hlen : length (sockets cleared) = length (sockets w)).
    { subst cleared. unfold reset_session, close_transport, WebSocket_close, update_socket.
      unfold_m. destruct (ws w); cbn; [|done]. by rewrite length_alter. }
    assert (Hprom : promises cleared = promises w)
      by (subst cleared; cbn; unfold close_transport; by destruct (ws w)).
    assert (Hurl : host cleared = host w)
      by (subst cleared; cbn; unfold close_transport; by destruct (ws w)).
    split; [exact Hre|].
    split; [done|].
    split.
    { intros i s Hws Hs. subst cleared.
      unfold reset_session, close_transport, WebSocket_close, update_socket.
      unfold_m. rewrite Hws. cbn. rewrite list_lookup_alter_eq, Hs. cbn.
      destruct s as [u r t]. by destruct r. }
    destruct (classify_url (host w)) eqn:Hclass; [| |done].
    + intros w'.
      assert (Hw' : w' = snd (connect JUndefined cleared))
        by (subst w'; unfold run; by rewrite Hre).
      rewrite (connect_without_pending cleared) in Hw', Hre
        by (done || by rewrite Hurl).
      cbn [snd] in Hw'.
      split; [by rewrite Hre, Hprom|].
      rewrite Hw'. subst cleared. cbn in Hlen, Hprom, Hurl |- *.
      rewrite Hlen, Hprom, Hurl.
      split; [done|]. split; [done|]. split.
      { rewrite lookup_app_r by lia. by rewrite Hlen, Nat.sub_diag. }
      split; done.
    + rewrite Hre. apply connect_rejected_url; [done|by rewrite Hurl].
  - unfold reconnect, truthy, Promise_reject. unfold_m. by rewrite Hhost.
Qed.

(** C8 on a connected client: the session is reset, the open socket is
    closing and a new one is connecting; and on the same client once
    its host has a fragment: the session is reset and the socket is
    closing when [new WebSocket] throws. *)
Lemma reconnect_resets_before_connecting_witness :
  (sessionId (run reconnect connected_client) = JNull
   ∧ stationList (run reconnect connected_client) = JNull
   ∧ currentStation (run reconnect connected_client) = JNull
   ∧ isPreviewing (run reconnect connected_client) = false
   ∧ sockets (reset_session (close_transport connected_client)) !! 0%nat
     = Some (mkWebSocket (JStr "ws://station") CLOSING [])
   ∧ ws (run reconnect connected_client) = Some 1%nat)
  ∧ (let w := set_host (JStr "ws://station#1") connected_client in
     sessionId w = JStr "s1"
     ∧ reconnect w = (Throw SyntaxError, reset_session (close_transport w))
     ∧ sessionId (run reconnect w) = JNull
     ∧ sockets (run reconnect w) !! 0%nat
       = Some (mkWebSocket (JStr "ws://station") CLOSING [])).
Proof.
  split.
  - pose proof (reconnect_resets_before_connecting connected_client) as H.
    change (to_boolean (host connected_client)) with (Some true) in H.
    change (classify_url (host connected_client)) with UrlAccepted in H.
    cbn beta iota zeta in H.
    destruct H as (_ & _ & Hclose & _ & (Hsid & Hlist & Hcur & Hprev) & Hws & _).
    split; [exact Hsid|]. split; [exact Hlist|].
    split; [exact Hcur|]. split; [exact Hprev|].
    split; [|exact Hws].
    exact (Hclose 0%nat (mkWebSocket (JStr "ws://station") OPEN []) eq_refl eq_refl).
  - intros w.
    pose proof (reconnect_resets_before_connecting w) as H.
    change (to_boolean (host w)) with (Some true) in H.
    change (classify_url (host w)) with UrlRejected in H.
    cbn beta iota zeta in H.
    destruct H as (_ & _ & Hclose & Hthrow).
    split; [reflexivity|]. split; [exact Hthrow|].
    unfold run. rewrite Hthrow. cbn [snd].
    split; [reflexivity|].
    exact (Hclose 0%nat (mkWebSocket (JStr "ws://station") OPEN []) eq_refl eq_refl).
Defined.

(** ** Station selection *)

Lemma forEach_app {A} (l1 l2 : list A) (f : A → M unit) (w : B3d4api) :
  forEach (l1 ++ l2) f w = (forEach l1 f ;; forEach l2 f) w.
Proof.
  revert w. induction l1 as [|x l1 IH]; intros w; cbn; [done|].
  unfold bind. destruct (f x w) as [[[]| |] w1]; [|done|done]. apply IH.
Qed.

Lemma forEach_inert (hs : list handler) (msg : jsval) (w : B3d4api) :
  Forall inert hs →
  forEach hs (λ h, call_handler h msg) w
  = (Normal tt, set_handler_calls (handler_calls w ++ calls_of hs msg) w).
Proof.
  intros Hhs. revert w. induction Hhs as [|h hs Hh _ IH]; intros w.
  - destruct w. cbn. by rewrite app_nil_r.
  - cbn [forEach]. unfold bind.
    assert (Hcall : call_handler h msg w
                    = (Normal tt, set_handler_calls (handler_calls w ++ [(h, msg)]) w))
      by (destruct h; [done|destruct Hh|done]).
    rewrite Hcall, IH. destruct w. cbn. by rewrite <- app_assoc.
Qed.

Lemma station_select_dispatch
    (w : B3d4api) (record : jsval) (before after : list handler) :
  get_elem (stationList w) (JStr "A") = Normal record →
  Forall inert (handlers_of w "response:") →
  messageHandlers w !! "response:station_select"
  = Some (before ++ Default ResponseStationSelect :: after) →
  Forall inert before →
  Forall inert after →
  ∃ w', handleServerResponse (JStr "station_select") station_select_response w
        = (Normal tt, w')
        ∧ currentStation w' = record
        ∧ stationList w' = stationList w.
Proof.
  intros Hrecord Hgeneric Hspecific Hbefore Hafter.
  unfold handleServerResponse, _callMessageHandler.
  unfold bind at 1 2. unfold get at 1. fold (handlers_of w "response:").
  rewrite (forEach_inert _ _ _ Hgeneric).
  unfold bind, get.
  change ("response:" +:+ "station_select") with "response:station_select".
  cbn [messageHandlers set_handler_calls]. rewrite Hspecific.
  cbn [default from_option id].
  rewrite forEach_app. unfold bind at 1.
  rewrite (forEach_inert _ _ _ Hbefore).
  cbn [forEach]. unfold bind at 1.
  assert (Hcall : ∀ v,
    stationList v = stationList w →
    call_handler (Default ResponseStationSelect) station_select_response v
    = (Normal tt,
       set_currentStation record
         (set_handler_calls
            (handler_calls v ++ [(Default ResponseStationSelect, station_select_response)])
            v))).
  { intros v Hv. unfold call_handler, default_body. unfold_m. cbn.
    rewrite Hv, Hrecord. done. }
  rewrite Hcall by done.
  rewrite (forEach_inert _ _ _ Hafter).
  eexists. split; [reflexivity|]. by split.
Qed.

Lemma inherits_plain {V} (o : gmap string V) (k : string) :
  existsb (String.eqb k) Object_prototype_names = false →
  String.eqb k "resolve" || String.eqb k "reject" = false →
  inherits o k = false.
Proof. intros H1 H2. unfold inherits. rewrite H1, H2. by rewrite andb_false_r. Qed.

Lemma _resolveClientRequest_session (k : string) (success : bool) (msg : jsval) (w : B3d4api) :
  (inherits (openClientRequests w) k = false →
   fst (_resolveClientRequest (JStr k) success msg w) = Normal tt)
  ∧ stationList (snd (_resolveClientRequest (JStr k) success msg w)) = stationList w
  ∧ messageHandlers (snd (_resolveClientRequest (JStr k) success msg w)) = messageHandlers w.
Proof.
  destruct (openClientRequests w !! k) as [[resolve reject]|] eqn:Hk.
  - rewrite (_resolveClientRequest_own k resolve reject) by exact Hk.
    match goal with |- context [call_callback ?f ?m ?w'] =>
      destruct (call_callback_spec f m w') as (-> & _ & _ & -> & _);
      assert (Hl : stationList (snd (call_callback f m w')) = stationList w');
      [|rewrite Hl] end.
    { unfold call_callback, settle. unfold_m.
      destruct (if success then resolve else reject) as [p|p|i]; cbn; try done;
        match goal with |- context [promises ?v !! p] =>
          by destruct (promises v !! p) as [[| |]|] end. }
    destruct (String.eqb k "__proto__"); by destruct w.
  - rewrite _resolveClientRequest_none by exact Hk. cbn [fst snd].
    split; [by intros ->|done].
Qed.

(** C3, as the handler has it.  When the station list holds a record
    under the property named "A" (the list is keyed by station id), and
    "response:station_select" has its built-in handler among handlers
    supplied by callers, handling the response
    [{response_to: "station_select", status: "OK", station_id: "A"}]
    returns with [currentStation] set to that record, [stationList]
    unchanged: both when [handleServerResponse] is called with it and
    when it arrives as a text message on the socket. *)
Theorem station_select_sets_currentStation
    (w : B3d4api) (record : jsval) (before after : list handler) :
  get_elem (stationList w) (JStr "A") = Normal record →
  Forall inert (handlers_of w "response:") →
  messageHandlers w !! "response:station_select"
  = Some (before ++ Default ResponseStationSelect :: after) →
  Forall inert before →
  Forall inert after →
  (∃ w', handleServerResponse (JStr "station_select") station_select_response w
         = (Normal tt, w')
         ∧ currentStation w' = record
         ∧ stationList w' = stationList w)
  ∧ (∃ w', ws_onmessage (Text station_select_text) w = (Normal tt, w')
           ∧ currentStation w' = record
           ∧ stationList w' = stationList w).
Proof.
  intros Hrecord Hgeneric Hspecific Hbefore Hafter.
  split; [by apply (station_select_dispatch w record before after)|].
  unfold ws_onmessage.
  change (JSON_parse station_select_text) with (Normal station_select_response).
  unfold bind at 1 2 3. unfold lift at 1 2 3. cbn [get_prop station_select_response
    own_property find rev app fst snd String.eqb Ascii.eqb Bool.eqb truthy to_boolean negb].
  unfold bind at 1.
  destruct (_resolveClientRequest_session "station_select" true station_select_response w)
    as (Hok & Hlist & Hreg).
  specialize (Hok (inherits_plain _ "station_select" eq_refl eq_refl)).
  destruct (_resolveClientRequest (JStr "station_select") true station_select_response w)
    as [c w1]. cbn [fst snd] in *. subst c.
  destruct (station_select_dispatch w1 record before after) as (w' & Hrun & Hcur & Hsame).
  - by rewrite Hlist.
  - unfold handlers_of in *. by rewrite Hreg.
  - by rewrite Hreg.
  - done.
  - done.
  - exists w'. split; [exact Hrun|]. split; [done|congruence].
Qed.

(** C3 on a client whose station list is keyed by station id. *)
Lemma station_select_sets_currentStation_witness :
  (∃ w', handleServerResponse (JStr "station_select") station_select_response
           client_with_keyed_stations = (Normal tt, w')
         ∧ currentStation w' = JObj [("name", JStr "front desk")]
         ∧ stationList w' = stationList client_with_keyed_stations)
  ∧ (∃ w', ws_onmessage (Text station_select_text) client_with_keyed_stations
           = (Normal tt, w')
           ∧ currentStation w' = JObj [("name", JStr "front desk")]
           ∧ stationList w' = stationList client_with_keyed_stations).
Proof.
  apply (station_select_sets_currentStation client_with_keyed_stations
           (JObj [("name", JStr "front desk")]) [Placeholder] []).
  - reflexivity.
  - apply Forall_nil_2.
  - reflexivity.
  - apply Forall_cons_2; [exact I|apply Forall_nil_2].
  - apply Forall_nil_2.
Defined.

(** C3, as stated, fails when the station list is a sequence of
    records: the list contains the record whose id is "A", the
    response is handled without error, and [currentStation] is
    undefined, because the handler reads the property named "A" of the
    list. *)
Lemma station_in_a_sequence_is_not_selected :
  stationList client_with_station_sequence
  = JArr [JObj [("id", JStr "A"); ("name", JStr "front desk")]]
  ∧ get_prop (JObj [("id", JStr "A"); ("name", JStr "front desk")]) "id" = Normal (JStr "A")
  ∧ fst (ws_onmessage (Text station_select_text) client_with_station_sequence) = Normal tt
  ∧ currentStation
      (run (ws_onmessage (Text station_select_text)) client_with_station_sequence)
    = JUndefined.
Proof. repeat split; vm_compute; reflexivity. Qed.

(** * Further properties *)

(** ** Integers of the frame header *)

Lemma byte_val_range (b : byte) : 0 ≤ byte_val b < 256.
Proof.
  unfold byte_val. pose proof (Byte.to_N_bounded b) as Hb.
  lia.
Qed.

Lemma byte_val_of_Z (z : Z) : byte_val (byte_of_Z z) = z mod 256.
Proof.
  unfold byte_val, byte_of_Z.
  pose proof (Z.mod_pos_bound z 256 ltac:(lia)) as Hz.
  destruct (Byte.of_N (Z.to_N (z mod 256))) as [b|] eqn:Hb; cbn.
  - apply Byte.to_of_N in Hb. rewrite Hb. lia.
  - apply Byte.of_N_None_iff in Hb. lia.
Qed.

Lemma int32_read_back (n : Z) :
  int32_range n → bufferToInt32 (int32 n) = n.
Proof.
  unfold int32_range. intros Hn. unfold int32, bufferToInt32, int32_of_bytes.
  rewrite !byte_val_of_Z.
  pose proof (Z.div_mod n 256 ltac:(lia)) as H0.
  pose proof (Z.div_mod (n / 256) 256 ltac:(lia)) as H1.
  pose proof (Z.div_mod (n / 65536) 256 ltac:(lia)) as H2.
  pose proof (Z.div_mod (n / 16777216) 256 ltac:(lia)) as H3.
  replace (n / 256 / 256) with (n / 65536) in H1 by (rewrite Z.div_div by lia; done).
  replace (n / 65536 / 256) with (n / 16777216) in H2 by (rewrite Z.div_div by lia; done).
  pose proof (Z.mod_pos_bound n 256 ltac:(lia)).
  pose proof (Z.mod_pos_bound (n / 256) 256 ltac:(lia)).
  pose proof (Z.mod_pos_bound (n / 65536) 256 ltac:(lia)).
  pose proof (Z.mod_pos_bound (n / 16777216) 256 ltac:(lia)).
  change (2 ^ 31) with 2147483648 in *. change (2 ^ 32) with 4294967296.
  destruct (Z.ltb_spec
              (n mod 256 + 256 * (n / 256 mod 256) + 65536 * (n / 65536 mod 256)
               + 16777216 * (n / 16777216 mod 256)) 2147483648); lia.
Qed.

(** X1.  [bufferToInt32] reads back every 32-bit integer from its four
    bytes written least significant first, negative ones included. *)
Theorem bufferToInt32_int32 (n : Z) :
  int32_range n → bufferToInt32 (int32 n) = n.
Proof. apply int32_read_back. Qed.

(** X1 at the smallest 32-bit integer. *)
Lemma bufferToInt32_int32_witness :
  bufferToInt32 (int32 (- 2147483648)) = - 2147483648.
Proof.
  apply (bufferToInt32_int32 (- 2147483648)). unfold int32_range. lia.
Defined.

(** X2.  [bufferToInt32] always returns a 32-bit integer, and returns
    0 for a buffer of fewer than four bytes. *)
Theorem bufferToInt32_bounds (buf : list byte) :
  int32_range (bufferToInt32 buf)
  ∧ ((length buf < 4)%nat → bufferToInt32 buf = 0).
Proof.
  unfold int32_range. split.
  - unfold bufferToInt32. destruct buf as [|b0 [|b1 [|b2 [|b3 r]]]]; try lia.
    unfold int32_of_bytes.
    pose proof (byte_val_range b0). pose proof (byte_val_range b1).
    pose proof (byte_val_range b2). pose proof (byte_val_range b3).
    change (2 ^ 31) with 2147483648 in *. change (2 ^ 32) with 4294967296.
    destruct (Z.ltb_spec
                (byte_val b0 + 256 * byte_val b1 + 65536 * byte_val b2
                 + 16777216 * byte_val b3) 2147483648); lia.
  - destruct buf as [|b0 [|b1 [|b2 [|b3 r]]]]; cbn [length]; try done. lia.
Qed.

(** X2 on a buffer of three bytes. *)
Lemma bufferToInt32_bounds_witness :
  int32_range (bufferToInt32 [x01; x02; x03])
  ∧ bufferToInt32 [x01; x02; x03] = 0.
Proof.
  destruct (bufferToInt32_bounds [x01; x02; x03]) as [Hrange Hshort].
  split; [exact Hrange|]. apply Hshort. cbn. lia.
Defined.

(** ** Slices *)

Lemma slice_beyond {A} (l : list A) (a b : Z) :
  Z.of_nat (length l) ≤ a → slice l a b = [].
Proof.
  intros Ha. unfold slice.
  destruct (Z.ltb_spec a 0) as [?|_]; [lia|].
  rewrite (Z.min_r a) by lia. rewrite drop_ge by lia. apply take_nil.
Qed.

Lemma slice_to_start {A} (l : list A) (a : Z) : slice l a 0 = [].
Proof.
  unfold slice. cbn [Z.ltb Z.compare].
  rewrite (Z.min_l 0) by lia.
  destruct (Z.ltb_spec a 0); (replace (Z.to_nat (0 - _)) with 0%nat by lia); done.
Qed.

Lemma slice_nothing {A} (l : list A) (a : Z) : slice l a a = [].
Proof. unfold slice. by rewrite Z.sub_diag. Qed.

(** ** Decoding whole frames *)

(** X3.  A frame laid out as header, text, data length, data type and
    payload decodes to exactly its parts when the text has the length
    the header gives, is within what [apply] accepts on the engine,
    parses as JSON, and announces the payload's size as [filesize]:
    tag, version, frameLength, msgLength, msgType and
    dataLength are read back, [event] is the parsed text, [data] is the
    payload (bytes after it are ignored), and [dataType] is the decimal
    rendering of the four type bytes that [toString] gives on a
    [Uint8Array]. *)
Theorem parseFrame_build_frame
    (e : Engine) (tag : string) (version frameLength : Z) (msgType text : string)
    (dataLength : Z) (dataType payload trailer : list byte) (ev : jsval) :
  String.length tag = 4%nat →
  String.length msgType = 4%nat →
  length dataType = 4%nat →
  int32_range version →
  int32_range frameLength →
  int32_range dataLength →
  Z.of_nat (String.length text) ≤ max_arguments e →
  JSON_parse (trim text) = Normal ev →
  get_prop ev "filesize" = Normal (JInt (Z.of_nat (length payload))) →
  parseFrame e (build_frame tag version frameLength msgType text dataLength
                  dataType payload trailer)
  = Normal {| tag := tag; version := version; frameLength := frameLength;
              msgLength := Z.of_nat (String.length text); msgType := msgType;
              event := Some ev; state := StateOK;
              dataLength := Some dataLength;
              dataType := Some (remove_nul (Uint8Array_toString dataType));
              data := Some payload |}.
Proof.
  intros Htag Htype Hdt Hv Hfl Hdl Htext Hjson Hsize.
  set (ml := Z.of_nat (String.length text)) in *.
  assert (Hml : int32_range ml)
    by (pose proof (max_arguments_bounds e); unfold int32_range, ml in *; lia).
  set (frame := build_frame _ _ _ _ _ _ _ _ _).
  assert (Hct : length (chars tag) = 4%nat) by (by rewrite length_chars).
  assert (Hcm : length (chars msgType) = 4%nat) by (by rewrite length_chars).
  assert (Hcx : Z.of_nat (length (chars text)) = ml) by (by rewrite length_chars).
  assert (H0 : slice frame 0 4 = chars tag).
  { apply (slice_app_mid [] (chars tag)); cbn [length]; lia. }
  assert (H4 : slice frame 4 8 = int32 version).
  { subst frame. unfold build_frame.
    apply (slice_app_mid (chars tag) (int32 version)); rewrite ?length_int32; lia. }
  assert (H8 : slice frame 8 12 = int32 frameLength).
  { subst frame. unfold build_frame. rewrite (app_assoc (chars tag)).
    apply slice_app_mid; rewrite ?length_app, ?length_int32; lia. }
  assert (H12 : slice frame 12 16 = int32 ml).
  { subst frame. unfold build_frame. rewrite (app_assoc (chars tag)).
    rewrite (app_assoc (chars tag ++ _)).
    apply slice_app_mid; rewrite ?length_app, ?length_int32; lia. }
  assert (H16 : slice frame 16 20 = chars msgType).
  { subst frame. unfold build_frame. rewrite (app_assoc (chars tag)).
    rewrite (app_assoc (chars tag ++ _)). rewrite (app_assoc ((chars tag ++ _) ++ _)).
    apply slice_app_mid; rewrite ?length_app, ?length_int32; lia. }
  assert (H20 : slice frame 20 (20 + ml) = chars text).
  { subst frame. unfold build_frame. rewrite (app_assoc (chars tag)).
    rewrite (app_assoc (chars tag ++ _)). rewrite (app_assoc ((chars tag ++ _) ++ _)).
    rewrite (app_assoc (((chars tag ++ _) ++ _) ++ _)).
    apply slice_app_mid; rewrite ?length_app, ?length_int32; lia. }
  assert (Hd : slice frame (20 + ml) (20 + ml + 4) = int32 dataLength).
  { subst frame. unfold build_frame. rewrite (app_assoc (chars tag)).
    rewrite (app_assoc (chars tag ++ _)). rewrite (app_assoc ((chars tag ++ _) ++ _)).
    rewrite (app_assoc (((chars tag ++ _) ++ _) ++ _)).
    rewrite (app_assoc ((((chars tag ++ _) ++ _) ++ _) ++ _)).
    apply slice_app_mid; rewrite ?length_app, ?length_int32; lia. }
  assert (Hy : slice frame (20 + ml + 4) (20 + ml + 8) = dataType).
  { subst frame. unfold build_frame. rewrite (app_assoc (chars tag)).
    rewrite (app_assoc (chars tag ++ _)). rewrite (app_assoc ((chars tag ++ _) ++ _)).
    rewrite (app_assoc (((chars tag ++ _) ++ _) ++ _)).
    rewrite (app_assoc ((((chars tag ++ _) ++ _) ++ _) ++ _)).
    rewrite (app_assoc (((((chars tag ++ _) ++ _) ++ _) ++ _) ++ _)).
    apply slice_app_mid; rewrite ?length_app, ?length_int32; lia. }
  assert (Hp : slice frame (20 + ml + 8) (20 + ml + 8 + Z.of_nat (length payload))
               = payload).
  { subst frame. unfold build_frame. rewrite (app_assoc (chars tag)).
    rewrite (app_assoc (chars tag ++ _)). rewrite (app_assoc ((chars tag ++ _) ++ _)).
    rewrite (app_assoc (((chars tag ++ _) ++ _) ++ _)).
    rewrite (app_assoc ((((chars tag ++ _) ++ _) ++ _) ++ _)).
    rewrite (app_assoc (((((chars tag ++ _) ++ _) ++ _) ++ _) ++ _)).
    rewrite (app_assoc ((((((chars tag ++ _) ++ _) ++ _) ++ _) ++ _) ++ _)).
    apply slice_app_mid; rewrite ?length_app, ?length_int32; lia. }
  assert (Hfit : text_fits e frame).
  { unfold text_fits, frame_text. rewrite H12, int32_read_back by done.
    rewrite H20, Hcx. exact Htext. }
  rewrite parseFrame_fits by exact Hfit. unfold frame_msg. cbv zeta.
  rewrite H0, H4, H8, H12, H16.
  rewrite !int32_read_back by done.
  rewrite H20, Hd, Hy, !fromCharCode_chars, Hjson.
  unfold cbind. rewrite Hsize. cbn [js_add ToIntegerOrInfinity].
  rewrite Hp. by rewrite int32_read_back.
Qed.

(** X3 on a frame with a negative frame length, white space around
    the text and two bytes after the payload. *)
Lemma parseFrame_build_frame_witness :
  parseFrame smallest_engine (build_frame "gLTF" 2 (-1) "evnt" (dq " {'camera':'l','filesize':3} ") 7
                (chars "png ") [x0a; x0b; x0c] [xff; xff])
  = Normal {| tag := "gLTF"; version := 2; frameLength := -1; msgLength := 29;
              msgType := "evnt";
              event := Some (JObj [("camera", JStr "l"); ("filesize", JInt 3)]);
              state := StateOK; dataLength := Some 7;
              dataType := Some "112,110,103,32";
              data := Some [x0a; x0b; x0c] |}.
Proof.
  exact (parseFrame_build_frame smallest_engine "gLTF" 2 (-1) "evnt"
           (dq " {'camera':'l','filesize':3} ") 7
           (chars "png ") [x0a; x0b; x0c] [xff; xff]
           (JObj [("camera", JStr "l"); ("filesize", JInt 3)])
           eq_refl eq_refl eq_refl
           ltac:(unfold int32_range; lia) ltac:(unfold int32_range; lia)
           ltac:(unfold int32_range; lia) ltac:(vm_compute; discriminate)
           eq_refl eq_refl).
Defined.

(** ** What the decoder does at the edges *)

Lemma lex_number_defined (s : list ascii) (r : list ascii) :
  lex_number s ≠ POk JUndefined r.
Proof.
  unfold lex_number.
  destruct (match s with
            | c :: r0 => if is_char 45 c then (true, r0) else (false, s)
            | [] => (false, s)
            end) as [neg s1].
  destruct (match s1 with
            | c :: r0 =>
                if is_char 48 c then Some ([c], r0)
                else if is_digit c
                     then let '(d, r') := span_digits r0 in Some (c :: d, r')
                     else None
            | [] => None
            end) as [[ds s2]|]; [|done].
  destruct (lex_fraction s2) as [[fr s3]|]; [|done].
  destruct (lex_exponent s3) as [[ex s4]|]; [|done].
  destruct fr, ex; try destruct (_ <=? _); done.
Qed.

(** [JSON.parse] never returns undefined. *)
Lemma parse_defined (n : nat) :
  (∀ s r, parse_value n s ≠ POk JUndefined r)
  ∧ (∀ acc s r, parse_elements n acc s ≠ POk JUndefined r)
  ∧ (∀ acc s r, parse_members n acc s ≠ POk JUndefined r).
Proof.
  induction n as [|n (IHv & IHe & IHm)]; [by repeat split|].
  split; [|split].
  - intros s r. cbn [parse_value].
    destruct (skip_ws s) as [|c s1]; [done|].
    destruct (is_char 123 c).
    { destruct (skip_ws s1) as [|x s2]; [done|].
      destruct (is_char 125 x); [done|apply IHm]. }
    destruct (is_char 91 c).
    { destruct (skip_ws s1) as [|x s2]; [done|].
      destruct (is_char 93 x); [done|apply IHe]. }
    destruct (is_char 34 c); [by destruct (lex_string [] s1)|].
    destruct (is_char 116 c); [unfold lex_literal; by destruct (strip_prefix _ _)|].
    destruct (is_char 102 c); [unfold lex_literal; by destruct (strip_prefix _ _)|].
    destruct (is_char 110 c); [unfold lex_literal; by destruct (strip_prefix _ _)|].
    apply lex_number_defined.
  - intros acc s r. cbn [parse_elements].
    destruct (parse_value n s) as [v1 r1| | |]; try done.
    destruct (skip_ws r1) as [|x r2]; [done|].
    destruct (is_char 44 x); [apply IHe|]. by destruct (is_char 93 x).
  - intros acc s r. cbn [parse_members].
    destruct (skip_ws s) as [|q s1]; [done|].
    destruct (is_char 34 q); [|done].
    destruct (lex_string [] s1) as [k r1| | |]; try done.
    destruct (skip_ws r1) as [|col r2]; [done|].
    destruct (is_char 58 col); [|done].
    destruct (parse_value n r2) as [v1 r3| | |]; try done.
    destruct (skip_ws r3) as [|x r4]; [done|].
    destruct (is_char 44 x); [apply IHm|]. by destruct (is_char 125 x).
Qed.

Lemma JSON_parse_defined (text : string) : JSON_parse text ≠ Normal JUndefined.
Proof.
  unfold JSON_parse. cbv zeta.
  set (q := parse_text (lower_escapes _)). clearbody q.
  unfold parse_text.
  destruct (parse_defined (2 * length (list_ascii_of_string text) + 2)) as (Hv & _ & _).
  specialize (Hv (list_ascii_of_string text)).
  destruct (parse_value _ _) as [v r| | |]; try done.
  - destruct (skip_ws r); [|done]. intros [= ->]. by apply (Hv r).
  - by destruct q.
Qed.

Lemma get_prop_throws (v : jsval) (k : string) (e : js_error) :
  get_prop v k = Throw e → e = TypeError ∧ (v = JUndefined ∨ v = JNull).
Proof.
  destruct v; cbn; try done; try (intros [= <-]; auto);
    repeat match goal with
      | |- context [if ?b then _ else _] => destruct b
      | |- context [match array_index ?x with _ => _ end] => destruct (array_index x)
      end; done.
Qed.

Lemma js_add_never_throws (a : Z) (v : jsval) (e : js_error) : js_add a v ≠ Throw e.
Proof. by destruct v. Qed.

(** X4.  [parseFrame] throws in exactly two cases, both outside the
    [try] that covers [JSON.parse]: a [RangeError] when the embedded
    text has more bytes than [apply] accepts on the engine; and a
    [TypeError] when the text is within that limit, is valid JSON and
    parses to [null], so that reading [filesize] off the event fails. *)
Theorem parseFrame_throws_in_two_cases (e : Engine) (frame : list byte) (err : js_error) :
  parseFrame e frame = Throw err
  ↔ (err = RangeError ∧ ¬ text_fits e frame)
    ∨ (err = TypeError ∧ text_fits e frame ∧ JSON_parse (frame_msg frame) = Normal JNull).
Proof.
  destruct (Z.le_gt_cases (Z.of_nat (length (frame_text frame))) (max_arguments e))
    as [Hfit|Hbig].
  2:{ assert (Hno : ¬ text_fits e frame) by (unfold text_fits; lia).
      rewrite parseFrame_beyond by exact Hno.
      split; [intros [= <-]; by left|].
      intros [[-> _]|(_ & Hfit & _)]; [done|by destruct Hno]. }
  change (text_fits e frame) in Hfit.
  rewrite parseFrame_fits by exact Hfit. cbv zeta.
  pose proof (JSON_parse_defined (frame_msg frame)) as Hdef.
  destruct (JSON_parse (frame_msg frame)) as [ev| |];
    [|split; [done|by intros [[_ ?]|(_ & _ & ?)]]..].
  unfold cbind.
  split.
  - destruct (get_prop ev "filesize") as [size|e'|] eqn:Hsize; [| |done].
    + destruct (js_add _ size) eqn:Hadd; [done| |done].
      by apply js_add_never_throws in Hadd.
    + intros [= <-]. right.
      apply get_prop_throws in Hsize as [-> [->| ->]]; done.
  - intros [[_ Hno]|(-> & _ & [= ->])]; [by destruct Hno|done].
Qed.

(** X5.  When the text is within what [apply] accepts on the engine
    and the event has no [filesize] (or has it null or false), the
    frame decodes and [data] is empty, whatever the buffer holds after
    [dataType]. *)
Theorem data_is_empty_without_filesize
    (e : Engine) (frame : list byte) (ev size : jsval) :
  text_fits e frame →
  JSON_parse (frame_msg frame) = Normal ev →
  get_prop ev "filesize" = Normal size →
  size = JUndefined ∨ size = JNull ∨ size = JBool false →
  ∃ g, parseFrame e frame = Normal g ∧ event g = Some ev ∧ data g = Some [].
Proof.
  intros Hfit Hjson Hsize Hcase. rewrite parseFrame_fits by exact Hfit. cbv zeta.
  rewrite Hjson. unfold cbind. rewrite Hsize.
  destruct Hcase as [->|[->| ->]]; cbn [js_add ToIntegerOrInfinity Z.b2z];
    eexists; (split; [reflexivity|]); cbn [event data]; (split; [done|]); f_equal.
  - apply slice_to_start.
  - apply slice_nothing.
  - rewrite Z.add_0_r. apply slice_nothing.
Qed.

(** X5 on a frame whose event is the empty object, followed by three
    bytes of payload. *)
Lemma data_is_empty_without_filesize_witness :
  ∃ g, parseFrame smallest_engine
         (build_frame "gLTF" 1 0 "evnt" "{}" 3 (chars "jpg ") [x01; x02; x03] [])
       = Normal g
       ∧ event g = Some (JObj []) ∧ data g = Some [].
Proof.
  apply (data_is_empty_without_filesize smallest_engine
           (build_frame "gLTF" 1 0 "evnt" "{}" 3 (chars "jpg ") [x01; x02; x03] [])
           (JObj []) JUndefined).
  - vm_compute. discriminate.
  - reflexivity.
  - reflexivity.
  - left. reflexivity.
Defined.

(** X6.  A buffer of at most twenty bytes (a header with no text, or
    less than a header, or nothing at all) is never an error for the
    caller: [parseFrame] returns the bad-JSON record, with the header
    fields as far as the bytes reach. *)
Theorem short_buffer_is_bad_json (e : Engine) (frame : list byte) :
  (length frame ≤ 20)%nat →
  parseFrame e frame
  = Normal {| tag := fromCharCode (slice frame 0 4);
              version := bufferToInt32 (slice frame 4 8);
              frameLength := bufferToInt32 (slice frame 8 12);
              msgLength := bufferToInt32 (slice frame 12 16);
              msgType := fromCharCode (slice frame 16 20);
              event := None;
              state := StateError "ERROR_FILE_BAD_JSON" SyntaxError;
              dataLength := None; dataType := None; data := None |}.
Proof.
  intros Hlen.
  assert (Hnone : frame_text frame = []) by (apply slice_beyond; lia).
  rewrite parseFrame_fits.
  2:{ apply short_text_fits. rewrite Hnone. cbn [length]. lia. }
  unfold frame_msg. cbv zeta.
  unfold frame_text in Hnone. rewrite Hnone. reflexivity.
Qed.

(** X6 on the empty buffer and on a bare header. *)
Lemma short_buffer_is_bad_json_witness :
  parseFrame smallest_engine []
  = Normal {| tag := EmptyString; version := 0; frameLength := 0; msgLength := 0;
              msgType := EmptyString; event := None;
              state := StateError "ERROR_FILE_BAD_JSON" SyntaxError;
              dataLength := None; dataType := None; data := None |}
  ∧ parseFrame smallest_engine
      (chars "gLTF" ++ int32 1 ++ int32 20 ++ int32 (-3) ++ chars "evnt")
    = Normal {| tag := "gLTF"; version := 1; frameLength := 20; msgLength := -3;
                msgType := "evnt"; event := None;
                state := StateError "ERROR_FILE_BAD_JSON" SyntaxError;
                dataLength := None; dataType := None; data := None |}.
Proof.
  split.
  - exact (short_buffer_is_bad_json smallest_engine [] ltac:(cbn; lia)).
  - exact (short_buffer_is_bad_json smallest_engine
             (chars "gLTF" ++ int32 1 ++ int32 20 ++ int32 (-3) ++ chars "evnt")
             ltac:(cbn; lia)).
Defined.

(** X4 on a frame whose text is [null], and on the frame whose text
    is the letter x and 500000 spaces. *)
Lemma parseFrame_throws_in_two_cases_witness :
  parseFrame smallest_engine (build_frame "gLTF" 1 0 "evnt" "null" 0 (chars "jpg ") [] [])
  = Throw TypeError
  ∧ parseFrame largest_engine
      (chars "gLTF" ++ int32 1 ++ int32 500021 ++ int32 500001 ++ chars "evnt"
       ++ chars "x" ++ replicate (Z.to_nat 500000) x20)
    = Throw RangeError.
Proof.
  split.
  - apply (parseFrame_throws_in_two_cases smallest_engine
             (build_frame "gLTF" 1 0 "evnt" "null" 0 (chars "jpg ") [] []) TypeError).
    right. split; [reflexivity|]. split; [vm_compute; discriminate|reflexivity].
  - apply (parseFrame_throws_in_two_cases largest_engine).
    left. split; [reflexivity|].
    assert (Hm : 500001 = Z.of_nat (String.length "x" + Z.to_nat 500000))
      by (rewrite Nat2Z.inj_add, Z2Nat.id; [reflexivity|discriminate]).
    assert (Hread : bufferToInt32 (int32 500001) = 500001) by (vm_compute; reflexivity).
    unfold text_fits.
    rewrite (long_frame_text "x" _ _ 500021 Hm Hread), length_app, length_replicate.
    rewrite Nat2Z.inj_add, Z2Nat.id by discriminate.
    vm_compute. intros H. exact (H eq_refl).
Defined.

(** ** Hexadecimal strings *)

Lemma length_to_hex (bytes : list byte) :
  String.length (to_hex bytes) = (2 * length bytes)%nat.
Proof. induction bytes as [|b r IH]; cbn [to_hex String.length length]; lia. Qed.

Lemma parse_hex_pair (b : byte) :
  ToUint8 (parseInt16 (String (hex_char (Byte.to_N b / 16))
                         (String (hex_char (Byte.to_N b mod 16)) EmptyString))) = b.
Proof. by destruct b. Qed.

Lemma substring_0_0 (s : string) : substring 0 0 s = EmptyString.
Proof. by destruct s. Qed.

Lemma hex_bytes_step (f : string → byte) (a b : ascii) (s : string) (n : nat) :
  map (λ x, f (substring (x * 2) 2 (String a (String b s)))) (seq 1 n)
  = map (λ x, f (substring (x * 2) 2 s)) (seq 0 n).
Proof. rewrite <- seq_shift, map_map. reflexivity. Qed.

(** X7.  [hexToBlob] undoes hexadecimal encoding: from the string that
    writes each byte as two hexadecimal digits it builds the blob of
    exactly those bytes, of type image/jpeg when no type is given. *)
Theorem hexToBlob_to_hex (bytes : list byte) :
  hexToBlob (to_hex bytes) None = JBlob bytes "image/jpeg".
Proof.
  unfold hexToBlob. rewrite length_to_hex.
  replace (2 * length bytes / 2)%nat with (length bytes)
    by (rewrite Nat.mul_comm, Nat.div_mul; lia).
  f_equal. induction bytes as [|b r IH]; [done|].
  cbn [length seq map to_hex]. f_equal.
  - cbn [Nat.mul substring]. rewrite substring_0_0. apply parse_hex_pair.
  - rewrite (hex_bytes_step (λ s, ToUint8 (parseInt16 s))). exact IH.
Qed.

Lemma substring_app_l (s t : string) (n m : nat) :
  (n + m ≤ String.length s)%nat → substring n m (s +:+ t) = substring n m s.
Proof.
  revert n m. induction s as [|c s IH]; intros n m Hlen; cbn [String.length] in Hlen.
  - replace n with 0%nat by lia. replace m with 0%nat by lia.
    cbn. apply substring_0_0.
  - change (String c s +:+ t) with (String c (s +:+ t)). destruct n as [|n].
    + destruct m as [|m]; [done|]. cbn [substring]. f_equal. apply IH. lia.
    + cbn [substring]. apply IH. lia.
Qed.

(** X8.  [hexToBlob] accepts every string: the blob has half as many
    bytes as the string has characters, rounded down, so that a last
    character without a partner is ignored. *)
Theorem hexToBlob_size (hexString : string) (type : option string) (c : ascii) :
  (∃ bytes t, hexToBlob hexString type = JBlob bytes t
              ∧ length bytes = (String.length hexString / 2)%nat)
  ∧ (Nat.Even (String.length hexString) →
     hexToBlob (hexString +:+ String c EmptyString) type = hexToBlob hexString type).
Proof.
  split.
  - eexists _, _. split; [reflexivity|]. by rewrite length_map, length_seq.
  - intros [k Hk]. unfold hexToBlob.
    assert (Hlen : String.length (hexString +:+ String c EmptyString)
                   = S (String.length hexString)).
    { clear. induction hexString as [|a s IH]; [done|].
      change (String a s +:+ String c EmptyString)
        with (String a (s +:+ String c EmptyString)).
      cbn [String.length]. by rewrite IH. }
    rewrite Hlen, Hk.
    replace (S (2 * k) / 2)%nat with k
      by (apply (Nat.div_unique _ 2 k 1); lia).
    replace (2 * k / 2)%nat with k by (rewrite Nat.mul_comm, Nat.div_mul; lia).
    f_equal. apply map_ext_in. intros x Hx. apply in_seq in Hx.
    rewrite substring_app_l by lia. done.
Qed.

(** X8 on a string of five characters. *)
Lemma hexToBlob_size_witness :
  hexToBlob "0aff7" None = hexToBlob "0aff" None.
Proof.
  destruct (hexToBlob_size "0aff" None "7"%char) as [_ Hodd].
  apply Hodd. exists 2%nat. reflexivity.
Defined.

(** ** What every operation keeps *)

Lemma exec_run {A} (m : M A) (w w' : B3d4api) : exec m w = Some w' → w' = run m w.
Proof.
  unfold exec, run. destruct (m w) as [[a|e|] w1]; cbn [snd]; by intros [= <-].
Qed.

(** When the operations that write a part of the client keep a
    preorder on it, every action keeps it, and so does every history
    of the client. *)
Create HintDb keepsdb.

Section Keeps.

Context {T : Type} (part : B3d4api → T) (R : T → T → Prop) `{!PreOrder R}.

Local Abbreviation keeps := (keeps_rel part R).

Lemma keeps_ret {A} (a : A) : keeps (ret a).
Proof. intros w. reflexivity. Qed.

Lemma keeps_lift {A} (c : completion A) : keeps (lift c).
Proof. intros w. reflexivity. Qed.

Lemma keeps_get {A} (f : B3d4api → A) : keeps (get f).
Proof. intros w. reflexivity. Qed.

Lemma keeps_bind {A B} (m : M A) (k : A → M B) :
  keeps m → (∀ a, keeps (k a)) → keeps (bind m k).
Proof.
  intros Hm Hk w. unfold bind. specialize (Hm w).
  destruct (m w) as [[a| |] w1]; cbn [snd] in *; [|done|done].
  etransitivity; [exact Hm|apply Hk].
Qed.

Lemma keeps_modify (f : B3d4api → B3d4api) :
  (∀ w, part (f w) = part w) → keeps (modify f).
Proof. intros Hf w. cbn. rewrite Hf. reflexivity. Qed.

Lemma keeps_forEach {A} (l : list A) (f : A → M unit) :
  (∀ x, keeps (f x)) → keeps (forEach l f).
Proof.
  intros Hf. induction l as [|x l IH]; [apply keeps_ret|].
  cbn [forEach]. apply keeps_bind; [apply Hf|intros _; exact IH].
Qed.

Lemma keeps_unobserved (m : M unit) : keeps m → keeps (unobserved m).
Proof.
  intros Hm w. unfold unobserved. specialize (Hm w).
  by destruct (m w) as [[[]| |] w1].
Qed.

Lemma keeps_discard {A} (m : M A) : keeps m → keeps (discard m).
Proof. intros Hm. apply keeps_bind; [done|intros a; apply keeps_ret]. Qed.

(** The operations that write the part themselves. *)
Hypothesis keeps_settle : ∀ p st, keeps (settle p st).
Hypothesis keeps_new_promise : keeps new_promise.
Hypothesis keeps_Promise_reject : ∀ v, keeps (Promise_reject v).
Hypothesis keeps_Promise_resolve : ∀ v, keeps (Promise_resolve v).
Hypothesis keeps_new_WebSocket : ∀ u, keeps (new_WebSocket u).
Hypothesis keeps_WebSocket_close : ∀ i, keeps (WebSocket_close i).
Hypothesis keeps_opened :
  ∀ i, keeps (update_socket i (λ s, mkWebSocket (url s) OPEN (sent s))).
Hypothesis keeps_closed :
  ∀ i, keeps (update_socket i (λ s, mkWebSocket (url s) CLOSED (sent s))).
Hypothesis keeps_sendMessage : ∀ msg, keeps (sendMessage msg).
Hypothesis keeps_setter : ∀ key id, keeps (_setMessageHandler key (Some (UserHandler id))).

(** The fields the other operations write. *)
Hypothesis part_set_host : ∀ v w, part (set_host v w) = part w.
Hypothesis part_set_ws : ∀ v w, part (set_ws v w) = part w.
Hypothesis part_set_sessionId : ∀ v w, part (set_sessionId v w) = part w.
Hypothesis part_set_stationList : ∀ v w, part (set_stationList v w) = part w.
Hypothesis part_set_currentStation : ∀ v w, part (set_currentStation v w) = part w.
Hypothesis part_set_isPreviewing : ∀ v w, part (set_isPreviewing v w) = part w.
Hypothesis part_set_openClientRequests :
  ∀ v w, part (set_openClientRequests v w) = part w.
Hypothesis part_set_timers : ∀ v w, part (set_timers v w) = part w.
Hypothesis part_set_handler_calls : ∀ v w, part (set_handler_calls v w) = part w.
Hypothesis part_set_callback_calls : ∀ v w, part (set_callback_calls v w) = part w.

Lemma keeps_new_Promise (executor : callback → callback → M unit) :
  (∀ r j, keeps (executor r j)) → keeps (new_Promise executor).
Proof.
  intros Hex. unfold new_Promise. apply keeps_bind; [apply keeps_new_promise|].
  intros p w. specialize (Hex (PromiseResolve p) (PromiseReject p) w).
  destruct (executor _ _ w) as [[[]| |] w1]; cbn [snd] in *; try done.
  etransitivity; [exact Hex|].
  apply (keeps_bind (settle p (Rejected (JErr e))) (λ _, ret p));
    [apply keeps_settle|intros _; apply keeps_ret].
Qed.

Local Hint Resolve keeps_ret keeps_lift keeps_get keeps_settle keeps_new_promise
  keeps_Promise_reject keeps_Promise_resolve keeps_new_WebSocket keeps_WebSocket_close
  keeps_sendMessage keeps_setter keeps_opened keeps_closed : keepsdb.

Ltac keeps_step :=
  first
    [ solve [auto 1 with keepsdb nocore]
    | apply keeps_new_Promise; intros ? ?
    | apply keeps_bind; [|intros ?]
    | apply keeps_discard
    | apply keeps_unobserved
    | apply keeps_forEach; intros ?
    | apply keeps_modify; intros ?;
      first [ apply part_set_host | apply part_set_ws | apply part_set_sessionId
            | apply part_set_stationList | apply part_set_currentStation
            | apply part_set_isPreviewing | apply part_set_openClientRequests
            | apply part_set_timers | apply part_set_handler_calls
            | apply part_set_callback_calls ]
    | match goal with
      | |- keeps (match ?x with _ => _ end) => destruct x
      | |- keeps (if ?b then _ else _) => destruct b
      end ].

Ltac keeps_all := repeat keeps_step.

Lemma keeps_call_callback f arg : keeps (call_callback f arg).
Proof. unfold call_callback. keeps_all. Qed.
Local Hint Resolve keeps_call_callback : keepsdb.

Lemma keeps_registerClientRequest id r j : keeps (_registerClientRequest id r j).
Proof. unfold _registerClientRequest. keeps_all. Qed.
Local Hint Resolve keeps_registerClientRequest : keepsdb.

Lemma keeps_resolveClientRequest id success msg :
  keeps (_resolveClientRequest id success msg).
Proof. unfold _resolveClientRequest. keeps_all. Qed.
Local Hint Resolve keeps_resolveClientRequest : keepsdb.

Lemma keeps_default_body d msg : keeps (default_body d msg).
Proof. unfold default_body. keeps_all. Qed.
Local Hint Resolve keeps_default_body : keepsdb.

Lemma keeps_call_handler h msg : keeps (call_handler h msg).
Proof. unfold call_handler. keeps_all. Qed.
Local Hint Resolve keeps_call_handler : keepsdb.

Lemma keeps_callMessageHandler key msg : keeps (_callMessageHandler key msg).
Proof. unfold _callMessageHandler. keeps_all. Qed.
Local Hint Resolve keeps_callMessageHandler : keepsdb.

Lemma keeps_handleServerRequest request msg : keeps (handleServerRequest request msg).
Proof. unfold handleServerRequest. keeps_all. Qed.
Local Hint Resolve keeps_handleServerRequest : keepsdb.

Lemma keeps_handleServerResponse response msg :
  keeps (handleServerResponse response msg).
Proof. unfold handleServerResponse. keeps_all. Qed.
Local Hint Resolve keeps_handleServerResponse : keepsdb.

Lemma keeps_sendRequest msg timeout : keeps (sendRequest msg timeout).
Proof.
  unfold sendRequest, setTimeout. keeps_all.
Qed.
Local Hint Resolve keeps_sendRequest : keepsdb.

Lemma keeps_fire_timer i : keeps (fire_timer i).
Proof. unfold fire_timer. keeps_all. Qed.
Local Hint Resolve keeps_fire_timer : keepsdb.

Lemma keeps_connect h : keeps (connect h).
Proof.
  unfold connect. keeps_all.
Qed.
Local Hint Resolve keeps_connect : keepsdb.

Lemma keeps_reconnect : keeps reconnect.
Proof. unfold reconnect. keeps_all. Qed.
Local Hint Resolve keeps_reconnect : keepsdb.

Lemma keeps_stopPreview timeout : keeps (stopPreview timeout).
Proof. unfold stopPreview. keeps_all. Qed.
Local Hint Resolve keeps_stopPreview : keepsdb.

Lemma keeps_stop_preview_first : keeps stop_preview_first.
Proof. unfold stop_preview_first. keeps_all. Qed.
Local Hint Resolve keeps_stop_preview_first : keepsdb.

Lemma keeps_on_gltf g : keeps (on_gltf g).
Proof. unfold on_gltf. keeps_all. Qed.
Local Hint Resolve keeps_on_gltf : keepsdb.

Lemma keeps_ws_onmessage data : keeps (ws_onmessage data).
Proof. unfold ws_onmessage. keeps_all. Qed.
Local Hint Resolve keeps_ws_onmessage : keepsdb.

Lemma keeps_perform a : keeps (perform a).
Proof.
  destruct a; cbn [perform];
    unfold onServerRequest, onServerResponse, onConnectionOpen, onConnectionClose,
      initSession, listStations, selectStation, startPreview, recordScan, processScan,
      releaseScan, getCameraStatus, transport_open, transport_close, ws_onopen, ws_onclose;
    try (destruct f; cbn [fmap option_fmap option_map]);
    keeps_all.
Qed.

Lemma keeps_run_actions (actions : list action) (w w' : B3d4api) :
  run_actions actions w = Some w' → R (part w) (part w').
Proof.
  revert w. induction actions as [|a actions IH]; intros w Hrun; cbn [run_actions] in Hrun.
  - injection Hrun as <-. reflexivity.
  - destruct (exec (perform a) w) as [w1|] eqn:Hstep; [|done].
    apply exec_run in Hstep as ->.
    etransitivity; [apply (keeps_perform a w)|by apply IH].
Qed.

End Keeps.

(** ** Settled promises *)

Lemma settled_kept_refl : Reflexive settled_kept.
Proof. by intros ps p st. Qed.

Lemma settled_kept_trans : Transitive settled_kept.
Proof. intros ps1 ps2 ps3 H12 H23 p st Hp Hst. eauto. Qed.

Lemma settled_kept_preorder : PreOrder settled_kept.
Proof. split; [apply settled_kept_refl|apply settled_kept_trans]. Qed.

Lemma settled_kept_app (ps extra : list promise_state) : settled_kept ps (ps ++ extra).
Proof. intros p st Hp _. by apply lookup_app_l_Some. Qed.

Lemma settle_keeps_settled p st : keeps_rel promises settled_kept (settle p st).
Proof.
  intros w q stq Hq Hst. unfold settle, modify. cbn [snd].
  destruct (promises w !! p) as [[| |]|] eqn:Hp; try done.
  destruct w; cbn in *. rewrite list_lookup_insert_ne; [done|].
  intros ->. rewrite Hp in Hq. by simplify_eq.
Qed.

Lemma sendMessage_promises msg w : promises (snd (sendMessage msg w)) = promises w.
Proof.
  unfold sendMessage, ws_send, update_socket. unfold_m.
  destruct (truthy (sessionId w)) as [[]| |]; cbn; try done.
  destruct (stamp msg (sessionId w)); cbn; try done.
  destruct (ws w) as [i|]; cbn; [|done].
  destruct (sockets w !! i) as [s|]; cbn; [|done].
  by destruct (readyState s).
Qed.

Lemma setter_promises key h w : promises (snd (_setMessageHandler key h w)) = promises w.
Proof.
  unfold _setMessageHandler. unfold_m.
  destruct (messageHandlers w !! key); by destruct h.
Qed.

Lemma keeps_frame {T A} (part : B3d4api → T) (R : T → T → Prop) `{!Reflexive R} (m : M A) :
  (∀ w, part (snd (m w)) = part w) → keeps_rel part R m.
Proof. intros Hm w. rewrite Hm. reflexivity. Qed.

Lemma new_WebSocket_frame {T} (part : B3d4api → T) (u : jsval) (w : B3d4api) :
  (∀ v w0, part (set_sockets v w0) = part w0) →
  part (snd (new_WebSocket u w)) = part w.
Proof. intros Hpart. unfold new_WebSocket. destruct (classify_url u); cbn; auto. Qed.

Lemma perform_keeps_settled (a : action) : keeps_rel promises settled_kept (perform a).
Proof.
  apply (keeps_perform promises settled_kept (PreOrder0 := settled_kept_preorder));
    try done; intros;
    first [ apply settle_keeps_settled
          | intros ?; apply settled_kept_app
          | apply keeps_frame;
            [ apply settled_kept_refl
            | intros ?; first [ apply sendMessage_promises | apply setter_promises
                              | by apply new_WebSocket_frame | done ] ] ].
Qed.

Lemma run_actions_keeps_settled (actions : list action) (w w' : B3d4api) :
  run_actions actions w = Some w' → settled_kept (promises w) (promises w').
Proof.
  revert w. induction actions as [|a actions IH]; intros w Hrun; cbn [run_actions] in Hrun.
  - injection Hrun as <-. apply settled_kept_refl.
  - destruct (exec (perform a) w) as [w1|] eqn:Hstep; [|done].
    apply exec_run in Hstep as ->.
    eapply settled_kept_trans; [apply (perform_keeps_settled a w)|by apply IH].
Qed.

(** ** The registry under the public methods *)

Lemma registry_grows_refl : Reflexive registry_grows.
Proof.
  intros m key. destruct (m !! key) as [hs|]; [|by left].
  exists []. by rewrite app_nil_r.
Qed.

Lemma registry_grows_trans : Transitive registry_grows.
Proof.
  intros m1 m2 m3 H12 H23 key. specialize (H12 key). specialize (H23 key).
  destruct (m1 !! key) as [hs|].
  - destruct H12 as (us & H2 & Hus). rewrite H2 in H23.
    destruct H23 as (us' & H3 & Hus'). exists (us ++ us').
    rewrite H3, <- app_assoc. split; [done|]. by apply Forall_app.
  - destruct H12 as [H2|(us & H2 & Hus)]; rewrite H2 in H23; [done|].
    destruct H23 as (us' & H3 & Hus'). right. exists (us ++ us').
    rewrite H3. split; [done|]. by apply Forall_app.
Qed.

Lemma registry_grows_preorder : PreOrder registry_grows.
Proof. split; [apply registry_grows_refl|apply registry_grows_trans]. Qed.

Lemma setter_appends (key : string) (id : nat) :
  keeps_rel messageHandlers registry_grows (_setMessageHandler key (Some (UserHandler id))).
Proof.
  intros w key'. unfold _setMessageHandler. unfold_m.
  destruct (decide (key = key')) as [<-|Hne].
  - destruct (messageHandlers w !! key) as [hs|] eqn:Hkey; cbn.
    + rewrite Hkey. cbn. rewrite lookup_insert_eq. exists [UserHandler id].
      split; [done|]. by repeat constructor.
    + rewrite lookup_insert_eq. cbn. rewrite lookup_insert_eq. right.
      exists [UserHandler id]. split; [done|]. by repeat constructor.
  - assert (Hsame : ∀ hs (m : gmap string (list handler)),
              <[key := hs]> m !! key' = m !! key')
      by (intros; by apply lookup_insert_ne).
    destruct (messageHandlers w !! key) as [hs|]; cbn; rewrite !Hsame;
      apply (registry_grows_refl (messageHandlers w) key').
Qed.

Lemma sendMessage_messageHandlers msg w :
  messageHandlers (snd (sendMessage msg w)) = messageHandlers w.
Proof.
  unfold sendMessage, ws_send, update_socket. unfold_m.
  destruct (truthy (sessionId w)) as [[]| |]; cbn; try done.
  destruct (stamp msg (sessionId w)); cbn; try done.
  destruct (ws w) as [i|]; cbn; [|done].
  destruct (sockets w !! i) as [s|]; cbn; [|done].
  by destruct (readyState s).
Qed.

Lemma settle_messageHandlers p st w :
  messageHandlers (snd (settle p st w)) = messageHandlers w.
Proof. unfold settle, modify. cbn. by destruct (promises w !! p) as [[| |]|]. Qed.

Lemma run_actions_registry_grows (actions : list action) (w w' : B3d4api) :
  run_actions actions w = Some w' →
  registry_grows (messageHandlers w) (messageHandlers w').
Proof.
  apply (keeps_run_actions messageHandlers registry_grows
           (PreOrder0 := registry_grows_preorder));
    try done; intros;
    first [ apply setter_appends
          | apply keeps_frame;
            [ apply registry_grows_refl
            | intros ?;
              first [ apply sendMessage_messageHandlers | apply settle_messageHandlers
                    | by apply new_WebSocket_frame | done ] ] ].
Qed.

Lemma setter_lookup (key : string) (h : handler) (w : B3d4api) (key' : string) :
  fst (_setMessageHandler key (Some h) w) = Normal tt
  ∧ messageHandlers (snd (_setMessageHandler key (Some h) w)) !! key'
    = if String.eqb key key'
      then Some (default [Placeholder] (messageHandlers w !! key) ++ [h])
      else messageHandlers w !! key'.
Proof.
  split; [done|]. unfold _setMessageHandler. unfold_m.
  destruct (String.eqb_spec key key') as [<-|Hne];
    destruct (messageHandlers w !! key) as [hs|] eqn:Hkey; cbn [snd messageHandlers
      set_messageHandlers default from_option id];
    rewrite ?Hkey, ?lookup_insert_eq; cbn [default from_option id];
    rewrite ?lookup_insert_eq, ?lookup_insert_ne by done; done.
Qed.

Lemma forEach_setter_lookup (ds : list default_handler) (w : B3d4api) (key : string) :
  messageHandlers
    (snd (forEach ds (λ d, _setMessageHandler (default_key d) (Some (Default d))) w)) !! key
  = fold_left
      (λ o d, if String.eqb (default_key d) key
              then Some (default [Placeholder] o ++ [Default d]) else o)
      ds (messageHandlers w !! key).
Proof.
  revert w. induction ds as [|d ds IH]; intros w; [done|].
  cbn [forEach fold_left]. unfold bind.
  destruct (setter_lookup (default_key d) (Default d) w key) as [Hn Hl].
  destruct (setter_lookup (default_key d) (Default d) w (default_key d)) as [_ Hd].
  rewrite String.eqb_refl in Hd.
  destruct (_setMessageHandler (default_key d) (Some (Default d)) w) as [c w1].
  cbn [fst snd] in *. subst c. rewrite IH, Hl.
  by destruct (String.eqb_spec (default_key d) key) as [<-|?].
Qed.

(** What the constructor registers: under each key of
    [defaultMessageHandlers] the placeholder and the function of that
    key, and nothing under any other key. *)
Lemma constructor_registry (e : Engine) (host : jsval) (key : string) :
  messageHandlers (constructor e host) !! key
  = (λ d, [Placeholder; Default d])
      <$> find (λ d, String.eqb (default_key d) key) defaultMessageHandlers.
Proof.
  unfold constructor, _setDefaultMessageHandlers. rewrite forEach_setter_lookup.
  cbn [messageHandlers]. rewrite lookup_empty.
  unfold defaultMessageHandlers. cbn [fold_left find default_key].
  repeat match goal with
         | |- context [String.eqb ?k key] =>
             destruct (String.eqb_spec k key) as [<-|_]; [vm_compute; reflexivity|]
         end.
  reflexivity.
Qed.

(** On a client used through its public methods, a key of
    [defaultMessageHandlers] has the placeholder, its built-in
    function, then functions of callers. *)
Lemma reachable_builtin
    (actions : list action) (e : Engine) (host : jsval) (w : B3d4api) (d : default_handler) :
  run_actions actions (constructor e host) = Some w →
  ∃ us, messageHandlers w !! default_key d = Some (Placeholder :: Default d :: us)
        ∧ Forall is_user us.
Proof.
  intros Hrun.
  pose proof (run_actions_registry_grows actions (constructor e host) w Hrun (default_key d))
    as Hgrows.
  rewrite constructor_registry in Hgrows.
  replace (find (λ d', String.eqb (default_key d') (default_key d)) defaultMessageHandlers)
    with (Some d) in Hgrows by (by destruct d).
  exact Hgrows.
Qed.

Lemma reachable_key (actions : list action) (e : Engine) (host : jsval) (w : B3d4api) (key : string) :
  run_actions actions (constructor e host) = Some w →
  messageHandlers w !! key = None
  ∨ ∃ us, messageHandlers w !! key = Some (builtin_handlers key ++ us) ∧ Forall is_user us.
Proof.
  intros Hrun.
  pose proof (run_actions_registry_grows actions (constructor e host) w Hrun key) as Hgrows.
  rewrite constructor_registry in Hgrows. unfold builtin_handlers.
  destruct (find _ defaultMessageHandlers) as [d|];
    cbn [fmap option_fmap option_map] in Hgrows; [by right|].
  destruct Hgrows as [H|H]; [by left|by right].
Qed.

(** X10.  A client that is used through its public methods keeps its
    built-in handlers: after any history, each key of
    [defaultMessageHandlers] has the placeholder, then its built-in
    function, then only functions that callers added; any other key
    has no list, or the placeholder followed by callers' functions. *)
Theorem builtin_handlers_stay
    (actions : list action) (e : Engine) (host : jsval) (w : B3d4api) (key : string) :
  run_actions actions (constructor e host) = Some w →
  (∀ d, ∃ us, messageHandlers w !! default_key d = Some (Placeholder :: Default d :: us)
              ∧ Forall is_user us)
  ∧ (messageHandlers w !! key = None
     ∨ ∃ us, messageHandlers w !! key = Some (builtin_handlers key ++ us)
             ∧ Forall is_user us).
Proof.
  intros Hrun. split; [intros d; by eapply reachable_builtin|by eapply reachable_key].
Qed.

(** X10 on a new client to which callers add a handler for the answer
    to [connect] and one for the request [camera_snap]. *)
Lemma builtin_handlers_stay_witness :
  ∃ w, run_actions
         [CallOnServerResponse (JStr "connect") (Some 7%nat);
          CallOnServerRequest (JStr "camera_snap") (Some 8%nat)]
         (constructor smallest_engine (JStr "ws://station")) = Some w
       ∧ (∃ us, messageHandlers w !! "response:connect"
                = Some (Placeholder :: Default ResponseConnect :: us)
                ∧ Forall is_user us)
       ∧ (messageHandlers w !! "request:camera_snap" = None
          ∨ ∃ us, messageHandlers w !! "request:camera_snap" = Some ([Placeholder] ++ us)
                  ∧ Forall is_user us).
Proof.
  eexists. split; [vm_compute; reflexivity|].
  destruct (builtin_handlers_stay
              [CallOnServerResponse (JStr "connect") (Some 7%nat);
               CallOnServerRequest (JStr "camera_snap") (Some 8%nat)]
              smallest_engine (JStr "ws://station") _ "request:camera_snap" eq_refl)
    as [Hbuiltin Hkey].
  split; [exact (Hbuiltin ResponseConnect)|exact Hkey].
Defined.

(** ** What is sent carries the session *)

Lemma find_stamped (l : list (string * jsval)) (k : string) (v : jsval) :
  existsb (λ p, String.eqb (fst p) k) l = true →
  ∃ p, find (λ p, String.eqb (fst p) k)
         (map (λ p, if String.eqb (fst p) k then (fst p, v) else p) l) = Some p
       ∧ snd p = v.
Proof.
  induction l as [|p l IH]; cbn [existsb map find]; [done|].
  destruct (String.eqb (fst p) k) eqn:Hp; cbn [fst orb].
  - rewrite Hp. intros _. by eexists.
  - rewrite Hp. exact IH.
Qed.

Lemma find_unstamped (l : list (string * jsval)) (k k' : string) (v : jsval) :
  k' ≠ k →
  snd <$> find (λ p, String.eqb (fst p) k')
            (map (λ p, if String.eqb (fst p) k then (fst p, v) else p) l)
  = snd <$> find (λ p, String.eqb (fst p) k') l.
Proof.
  intros Hne. induction l as [|p l IH]; cbn [map find]; [done|].
  destruct (String.eqb_spec (fst p) k) as [Hk|Hk]; cbn [fst].
  - destruct (String.eqb_spec (fst p) k') as [Hk'|Hk']; [congruence|exact IH].
  - destruct (String.eqb (fst p) k'); [done|exact IH].
Qed.

(** After [o.k = v], [o.k] is [v]. *)
Lemma own_property_set_own (props : list (string * jsval)) (k : string) (v : jsval) :
  own_property (set_own props k v) k = v.
Proof.
  unfold own_property, set_own.
  destruct (existsb _ props) eqn:Hex.
  - rewrite <- map_rev.
    destruct (find_stamped (rev props) k v) as (p & -> & Hp); [|done].
    apply existsb_exists in Hex as (q & Hq & Hqk).
    apply existsb_exists. exists q. split; [by apply in_rev in Hq|done].
  - rewrite rev_app_distr. cbn. by rewrite String.eqb_refl.
Qed.

(** After [o.k = v], every other property is as it was. *)
Lemma own_property_set_own_ne (props : list (string * jsval)) (k k' : string) (v : jsval) :
  k' ≠ k → own_property (set_own props k v) k' = own_property props k'.
Proof.
  intros Hne. unfold own_property, set_own.
  destruct (existsb _ props).
  - rewrite <- map_rev.
    pose proof (find_unstamped (rev props) k k' v Hne) as H.
    destruct (find _ (map _ _)) as [p|], (find _ (rev props)) as [q|]; cbn in H; congruence.
  - rewrite rev_app_distr. cbn [rev app find fst].
    by destruct (String.eqb_spec k k') as [?|_]; [congruence|].
Qed.

Lemma stamped_kept_preorder : PreOrder stamped_kept.
Proof. split; [by intros ss H|intros ss1 ss2 ss3 H12 H23 H; by auto]. Qed.

Lemma all_stamped_alter (ss : list WebSocket) (i : nat) (f : WebSocket → WebSocket) :
  (∀ s m, m ∈ sent (f s) → m ∈ sent s ∨ stamped m) →
  stamped_kept ss (alter f i ss).
Proof.
  intros Hf Hss j s' m Hj Hm.
  destruct (decide (i = j)) as [<-|Hne].
  - rewrite list_lookup_alter_eq in Hj.
    destruct (ss !! i) as [s|] eqn:Hi; [|done]. cbn in Hj. simplify_eq.
    destruct (Hf s m Hm) as [Hold|Hnew]; [by eapply Hss|done].
  - rewrite list_lookup_alter_ne in Hj by done. by eapply Hss.
Qed.

Lemma update_socket_stamped (i : nat) (f : WebSocket → WebSocket) :
  (∀ s m, m ∈ sent (f s) → m ∈ sent s ∨ stamped m) →
  keeps_rel sockets stamped_kept (update_socket i f).
Proof. intros Hf w. destruct w. cbn. by apply all_stamped_alter. Qed.

Lemma new_WebSocket_stamped (u : jsval) : keeps_rel sockets stamped_kept (new_WebSocket u).
Proof.
  intros w Hss j s m Hj Hm. unfold new_WebSocket in Hj.
  destruct (classify_url u); [|by eapply Hss..].
  destruct w; cbn in *.
  apply lookup_app_Some in Hj as [Hj|[_ Hj]]; [by eapply Hss|].
  apply list_lookup_singleton_Some in Hj as [_ <-]. cbn in Hm. by apply elem_of_nil in Hm.
Qed.

(** What [sendMessage] makes of its argument, when the session id is
    truthy. *)
Lemma stamp_stamped (msg sid m : jsval) :
  to_boolean sid = Some true → stamp msg sid = Normal m → stamped m.
Proof.
  intros Hsid. destruct msg as [| | | | | |elems|props| |]; cbn; try done; intros [= <-].
  - right. by eexists.
  - left. eexists. split; [done|]. by rewrite own_property_set_own.
  - left. eexists. split; [done|]. cbn. exact Hsid.
  - left. eexists. split; [done|]. cbn. exact Hsid.
Qed.

Lemma sendMessage_stamped (msg : jsval) : keeps_rel sockets stamped_kept (sendMessage msg).
Proof.
  intros w. unfold sendMessage, ws_send, update_socket. unfold_m. unfold truthy.
  destruct (to_boolean (sessionId w)) as [[]|] eqn:Hsid; cbn; try (by intros ?).
  pose proof (stamp_stamped msg (sessionId w)) as Hst.
  destruct (stamp msg (sessionId w)) as [m'| |]; cbn; try (by intros ?).
  specialize (Hst m' Hsid eq_refl).
  destruct (ws w) as [i|]; cbn; [|by intros ?].
  destruct (sockets w !! i) as [s|]; cbn; [|by intros ?].
  destruct (readyState s); cbn; try (by intros ?).
  apply all_stamped_alter. intros s' m Hm. cbn in Hm.
  apply elem_of_app in Hm as [Hm|Hm]; [by left|]. right.
  by apply list_elem_of_singleton in Hm as ->.
Qed.

Lemma settle_sockets p st w : sockets (snd (settle p st w)) = sockets w.
Proof. unfold settle, modify. cbn. by destruct (promises w !! p) as [[| |]|]. Qed.

Lemma setter_sockets key h w : sockets (snd (_setMessageHandler key h w)) = sockets w.
Proof.
  unfold _setMessageHandler. unfold_m.
  destruct (messageHandlers w !! key); by destruct h.
Qed.

Lemma run_actions_stamped (actions : list action) (w w' : B3d4api) :
  run_actions actions w = Some w' → stamped_kept (sockets w) (sockets w').
Proof.
  apply (keeps_run_actions sockets stamped_kept (PreOrder0 := stamped_kept_preorder));
    try done; intros; unfold WebSocket_close;
    first [ apply sendMessage_stamped
          | apply new_WebSocket_stamped
          | apply update_socket_stamped; intros s m Hm;
            try destruct (readyState s); by left
          | apply keeps_frame;
            [ intros ss H; exact H
            | intros ?; first [apply settle_sockets | apply setter_sockets | done] ] ].
Qed.

Lemma setter_only_registry (key : string) (h : option handler) (w : B3d4api) :
  ∃ m, _setMessageHandler key h w = (Normal tt, set_messageHandlers m w).
Proof.
  unfold _setMessageHandler. unfold_m.
  destruct (messageHandlers w !! key), h; by eexists.
Qed.

Lemma forEach_setter_only_registry (ds : list default_handler) (w : B3d4api) :
  ∃ m, forEach ds (λ d, _setMessageHandler (default_key d) (Some (Default d))) w
       = (Normal tt, set_messageHandlers m w).
Proof.
  revert w. induction ds as [|d ds IH]; intros w.
  - exists (messageHandlers w). by destruct w.
  - cbn [forEach]. unfold bind.
    destruct (setter_only_registry (default_key d) (Some (Default d)) w) as [m1 ->].
    destruct (IH (set_messageHandlers m1 w)) as [m2 ->]. by exists m2.
Qed.

(** A new client: the host it was given, no socket, no session, no
    open request; only the registry has been written. *)
Lemma constructor_fields (e : Engine) (host : jsval) :
  ∃ m, constructor e host
       = mkB3d4api host None JNull JNull JNull false m ∅ [] [] [] [] [] e.
Proof.
  unfold constructor, _setDefaultMessageHandlers.
  destruct (forEach_setter_only_registry defaultMessageHandlers
              (mkB3d4api host None JNull JNull JNull false ∅ ∅ [] [] [] [] [] e)) as [m ->].
  by exists m.
Qed.

(** X11.  What leaves the client: on a client used through its public
    methods, every message that any of its sockets has sent, at any
    moment of its life, is an object whose [session_id] is truthy, or
    an array: [sendMessage] sends an array as it is, since the text
    [JSON.stringify] makes of an array leaves out the [session_id] set
    on it. *)
Theorem sent_messages_carry_a_session
    (actions : list action) (e : Engine) (host : jsval) (w : B3d4api)
    (i : nat) (s : WebSocket) (m : jsval) :
  run_actions actions (constructor e host) = Some w →
  sockets w !! i = Some s →
  m ∈ sent s →
  has_session_id m ∨ ∃ elems, m = JArr elems.
Proof.
  intros Hrun Hi Hm.
  refine (run_actions_stamped actions (constructor e host) w Hrun _ i s m Hi Hm).
  destruct (constructor_fields e host) as [registry ->].
  intros j s' m' Hj. cbn [sockets] in Hj. by rewrite lookup_nil in Hj.
Qed.

(** X11 on a client that connects, receives its session, asks for
    the stations and is given an array to send. *)
Lemma sent_messages_carry_a_session_witness :
  let history :=
    [CallConnect JUndefined; SocketOpens 0 (JObj []);
     SocketMessage (Text (dq "{'response_to':'connect','status':'OK','session_id':'s1'}"));
     CallListStations JUndefined;
     CallSendMessage (JArr [JInt 1; JInt 2])] in
  let request := JObj [("request", JStr "station_list"); ("session_id", JStr "s1")] in
  ∃ w, run_actions history (constructor smallest_engine (JStr "ws://station")) = Some w
       ∧ sockets w !! 0%nat
         = Some (mkWebSocket (JStr "ws://station") OPEN [request; JArr [JInt 1; JInt 2]])
       ∧ (has_session_id request ∨ ∃ elems, request = JArr elems)
       ∧ (has_session_id (JArr [JInt 1; JInt 2])
          ∨ ∃ elems, JArr [JInt 1; JInt 2] = JArr elems).
Proof.
  intros history request.
  assert (Hrun : run_actions history (constructor smallest_engine (JStr "ws://station"))
                 = Some (run (forEach history perform)
                           (constructor smallest_engine (JStr "ws://station"))))
    by (vm_compute; reflexivity).
  assert (Hsock : sockets (run (forEach history perform)
                             (constructor smallest_engine (JStr "ws://station"))) !! 0%nat
                  = Some (mkWebSocket (JStr "ws://station") OPEN
                            [request; JArr [JInt 1; JInt 2]]))
    by (vm_compute; reflexivity).
  eexists. split; [exact Hrun|]. split; [exact Hsock|]. split.
  - refine (sent_messages_carry_a_session history smallest_engine (JStr "ws://station")
              _ 0%nat _ request Hrun Hsock _).
    cbn [sent]. apply list_elem_of_here.
  - refine (sent_messages_carry_a_session history smallest_engine (JStr "ws://station")
              _ 0%nat _ (JArr [JInt 1; JInt 2]) Hrun Hsock _).
    cbn [sent]. apply list_elem_of_further, list_elem_of_here.
Defined.

(** ** The request methods *)

Lemma truthy_never_throws (v : jsval) (e : js_error) : truthy v ≠ Throw e.
Proof. unfold truthy. by destruct (to_boolean v). Qed.

Lemma get_prop_truthy (v : jsval) (k : string) (e : js_error) :
  to_boolean v = Some true → get_prop v k ≠ Throw e.
Proof.
  destruct v; cbn; try done.
  - destruct (String.eqb k "length"); [done|]. by destruct (array_index k).
  - destruct (String.eqb k "length"); [done|]. by destruct (array_index k).
  - destruct (String.eqb k "size"); [done|]. by destruct (String.eqb k "type").
Qed.

Lemma setTimeout_promises request n w :
  promises (snd (setTimeout request n w)) = promises w.
Proof. done. Qed.

Lemma registerClientRequest_promises id r j w :
  promises (snd (_registerClientRequest id r j w)) = promises w.
Proof. unfold _registerClientRequest. unfold_m. by destruct (to_property_key id). Qed.

Lemma new_Promise_returns (executor : callback → callback → M unit) (w : B3d4api) :
  (∀ r j w', promises (snd (executor r j w')) = promises w') →
  returns_a_promise (new_Promise executor) w.
Proof.
  intros Hex. unfold returns_a_promise, new_Promise, new_promise, bind.
  set (p := length (promises w)).
  set (w1 := set_promises (promises w ++ [Pending]) w).
  specialize (Hex (PromiseResolve p) (PromiseReject p) w1).
  assert (Hp : promises w1 !! p = Some Pending).
  { subst w1 p. destruct w; cbn. by apply list_lookup_middle. }
  destruct (executor _ _ w1) as [[[]|e|] w2]; cbn [snd] in Hex; [| |done].
  - rewrite Hex, Hp. by eexists.
  - unfold settle, modify, ret. cbn. rewrite Hex, Hp.
    destruct w2; cbn in *. subst. rewrite list_lookup_insert_eq; [by eexists|].
    by eapply lookup_lt_Some.
Qed.

Lemma Promise_reject_returns v w : returns_a_promise (Promise_reject v) w.
Proof.
  unfold returns_a_promise, Promise_reject. destruct w; cbn.
  rewrite list_lookup_middle; [by eexists|done].
Qed.

Lemma Promise_resolve_returns v w : returns_a_promise (Promise_resolve v) w.
Proof.
  unfold returns_a_promise, Promise_resolve. destruct w; cbn.
  rewrite list_lookup_middle; [by eexists|done].
Qed.

Lemma sendRequest_returns msg timeout w : returns_a_promise (sendRequest msg timeout) w.
Proof.
  unfold sendRequest.
  unfold returns_a_promise, bind at 1 2, get, lift.
  pose proof (Promise_reject_returns
                (JObj (obj_error "invalid session or invalid request")) w) as Hinvalid.
  unfold returns_a_promise in Hinvalid.
  pose proof (truthy_never_throws (sessionId w)) as Hsid.
  destruct (truthy (sessionId w)) as [[]|e|]; [| |by destruct (Hsid e)|done];
    cbn [negb]; [|exact Hinvalid].
  unfold bind at 1, lift.
  pose proof (truthy_never_throws msg) as Hmsg.
  destruct (truthy msg) as [[]|e|] eqn:Htruthy; [| |by destruct (Hmsg e)|done];
    cbn [negb]; [|exact Hinvalid].
  assert (Hobj : to_boolean msg = Some true)
    by (unfold truthy in Htruthy; destruct (to_boolean msg) as [[]|]; by simplify_eq).
  unfold bind at 1, lift.
  pose proof (get_prop_truthy msg "request") as Hreq.
  destruct (get_prop msg "request") as [request|e|]; [|by destruct (Hreq e)|done].
  unfold bind at 1, lift.
  pose proof (truthy_never_throws request) as Hnamed.
  destruct (truthy request) as [[]|e|]; [| |by destruct (Hnamed e)|done];
    cbn [negb]; [|exact Hinvalid].
  apply new_Promise_returns. intros r j w'. unfold bind.
  pose proof (registerClientRequest_promises request r j w') as H1.
  destruct (_registerClientRequest request r j w') as [[[]| |] w1]; cbn [snd] in *;
    [|done|done].
  pose proof (sendMessage_promises msg w1) as H2.
  destruct (sendMessage msg w1) as [[[]| |] w2]; cbn [snd] in *; [|congruence|congruence].
  destruct timeout; cbn; try congruence.
  destruct (n =? 0); cbn; congruence.
Qed.

Lemma stopPreview_returns timeout w : returns_a_promise (stopPreview timeout) w.
Proof.
  unfold stopPreview, returns_a_promise, bind, get.
  destruct (isPreviewing w); cbn [negb].
  - apply sendRequest_returns.
  - apply Promise_resolve_returns.
Qed.

Lemma after_stop_preview_first (m : M nat) (w : B3d4api) :
  (∀ w', returns_a_promise m w') → returns_a_promise (stop_preview_first ;; m) w.
Proof.
  intros Hm. unfold returns_a_promise, stop_preview_first, bind, get, ret.
  destruct (isPreviewing w); [|apply Hm].
  pose proof (stopPreview_returns JUndefined w) as Hstop.
  unfold returns_a_promise in Hstop.
  destruct (stopPreview JUndefined w) as [[p| |] w1]; [apply Hm|done|done].
Qed.

(** X12.  The request methods never throw: [sendRequest],
    [initSession], [listStations], [selectStation], [startPreview],
    [stopPreview], [recordScan], [processScan], [releaseScan] and
    [getCameraStatus] each return a promise, whatever their arguments
    and whatever the state of the client; a failure to send (no socket
    yet, a socket still connecting) rejects that promise instead. *)
Theorem request_methods_return_a_promise (r : request_method) (w : B3d4api) :
  returns_a_promise (call r) w.
Proof.
  destruct r; cbn [call];
    unfold initSession, listStations, selectStation, startPreview, recordScan,
      processScan, releaseScan, getCameraStatus.
  - apply sendRequest_returns.
  - apply sendRequest_returns.
  - apply sendRequest_returns.
  - destruct (is_string stationId); cbn [negb];
      [apply sendRequest_returns|apply Promise_reject_returns].
  - unfold returns_a_promise, bind, get.
    destruct (isPreviewing w); [apply Promise_resolve_returns|apply sendRequest_returns].
  - apply stopPreview_returns.
  - apply after_stop_preview_first. intros w'. apply sendRequest_returns.
  - destruct (is_string scanId); cbn [negb]; [|apply Promise_reject_returns].
    apply after_stop_preview_first. intros w'. apply sendRequest_returns.
  - destruct (is_string scanId); cbn [negb];
      [apply sendRequest_returns|apply Promise_reject_returns].
  - apply after_stop_preview_first. intros w'. apply sendRequest_returns.
Qed.

(** ** Requests of the server *)

Lemma is_user_inert (hs : list handler) : Forall is_user hs → Forall inert hs.
Proof. intros H. eapply Forall_impl; [exact H|]. by intros []. Qed.

Lemma request_keys_have_no_builtin (name : string) :
  builtin_handlers ("request:" +:+ name) = [Placeholder].
Proof. reflexivity. Qed.

(** On a client used through its public methods, the handlers of a
    request key are the placeholder and functions of callers. *)
Lemma request_handlers_inert
    (actions : list action) (e : Engine) (host : jsval) (w : B3d4api) (name : string) :
  run_actions actions (constructor e host) = Some w →
  Forall inert (handlers_of w ("request:" +:+ name)).
Proof.
  intros Hrun. unfold handlers_of.
  destruct (reachable_key actions e host w ("request:" +:+ name) Hrun)
    as [->|(us & -> & Hus)]; cbn [default from_option id]; [done|].
  rewrite request_keys_have_no_builtin.
  constructor; [done|by apply is_user_inert].
Qed.

(** X13.  A request of the server cannot disturb the client: on a
    client used through its public methods, [handleServerRequest]
    with a string name returns normally and changes nothing but the
    record of calls, to which it adds one call, with the message, of
    each handler registered for every request and then of each handler
    registered for that name. *)
Theorem server_request_only_calls_handlers
    (actions : list action) (e : Engine) (host : jsval) (w : B3d4api) (name : string) (msg : jsval) :
  run_actions actions (constructor e host) = Some w →
  handleServerRequest (JStr name) msg w
  = (Normal tt,
     set_handler_calls
       (handler_calls w
        ++ calls_of (handlers_of w "request:" ++ handlers_of w ("request:" +:+ name)) msg)
       w).
Proof.
  intros Hrun.
  pose proof (request_handlers_inert actions e host w EmptyString Hrun) as Hgeneric.
  pose proof (request_handlers_inert actions e host w name Hrun) as Hspecific.
  change ("request:" +:+ EmptyString) with "request:" in Hgeneric.
  clear Hrun.
  unfold handleServerRequest, _callMessageHandler.
  unfold bind at 1 2. unfold get at 1. fold (handlers_of w "request:").
  rewrite (forEach_inert _ _ _ Hgeneric).
  unfold bind, get. cbn [messageHandlers set_handler_calls].
  fold (handlers_of w ("request:" +:+ name)).
  rewrite (forEach_inert _ _ _ Hspecific).
  destruct w. cbn. unfold calls_of. by rewrite map_app, app_assoc.
Qed.

(** X13 on a client with a handler of a caller for every request and
    one for [camera_snap]. *)
Lemma server_request_only_calls_handlers_witness :
  fst (handleServerRequest (JStr "camera_snap") (JObj [("camera", JStr "c")])
         client_with_request_handlers)
  = Normal tt.
Proof.
  rewrite (server_request_only_calls_handlers
             [CallOnServerRequest (JStr "camera_snap") (Some 1%nat);
              CallOnServerRequest (JStr EmptyString) (Some 2%nat)]
             smallest_engine (JStr "ws://station")); [reflexivity|].
  vm_compute. reflexivity.
Defined.

(** X14.  A binary message that does not decode is dropped without a
    trace: when the text of the frame is not valid JSON, or is the
    JSON text [null], the message handler of the socket returns
    normally and the client is exactly as it was; no handler is
    called and nothing is thrown into the socket. *)
Theorem undecodable_frame_is_dropped (bytes : list byte) (w : B3d4api) :
  (∃ err, JSON_parse (frame_msg bytes) = Throw err)
  ∨ JSON_parse (frame_msg bytes) = Normal JNull →
  ws_onmessage (Binary bytes) w = (Normal tt, w).
Proof.
  intros Hcase. unfold ws_onmessage, unobserved, bind, lift, get.
  destruct (Z.le_gt_cases (Z.of_nat (length (frame_text bytes))) (max_arguments (engine w)))
    as [Hfit|Hbig].
  - change (text_fits (engine w) bytes) in Hfit.
    rewrite parseFrame_fits by exact Hfit. cbv zeta.
    destruct Hcase as [[err Hbad]|Hnull]; [rewrite Hbad|rewrite Hnull]; reflexivity.
  - rewrite parseFrame_beyond; [reflexivity|]. unfold text_fits. lia.
Qed.

(** X14 on a message of three bytes and on a frame whose text is
    [null]. *)
Lemma undecodable_frame_is_dropped_witness :
  ws_onmessage (Binary [x01; x02; x03]) connected_client = (Normal tt, connected_client)
  ∧ ws_onmessage
      (Binary (build_frame "gLTF" 1 0 "evnt" "null" 0 (chars "jpg ") [x01] []))
      connected_client
    = (Normal tt, connected_client).
Proof.
  split.
  - apply undecodable_frame_is_dropped. left. exists SyntaxError. vm_compute. reflexivity.
  - apply undecodable_frame_is_dropped. right. vm_compute. reflexivity.
Defined.

(** ** Responses of the server *)

Lemma is_str_eq (v : jsval) (s : string) : is_str v s = true → v = JStr s.
Proof. destruct v; cbn; try done. by intros ->%String.eqb_eq. Qed.

Lemma eq_preorder_session : PreOrder (@eq (jsval * jsval * jsval * bool)).
Proof. split; [by intros ?|by intros ? ? ? -> ->]. Qed.

Lemma settle_session p st w : session_of (snd (settle p st w)) = session_of w.
Proof. unfold settle, modify. cbn. by destruct (promises w !! p) as [[| |]|]. Qed.

Lemma call_callback_session f arg w :
  session_of (snd (call_callback f arg w)) = session_of w.
Proof.
  unfold call_callback, bind, modify, ret.
  destruct f; cbn [snd]; try done; by rewrite settle_session.
Qed.

Lemma resolveClientRequest_session id success msg w :
  session_of (snd (_resolveClientRequest id success msg w)) = session_of w.
Proof.
  unfold _resolveClientRequest. unfold_m.
  destruct (to_property_key id) as [k| |]; cbn; [|done|done].
  destruct (openClientRequests w !! k) as [[resolve reject]|]; cbn [fst snd];
    [|by destruct (inherits (openClientRequests w) k)].
  destruct (String.eqb k "__proto__"); cbn [fst snd];
    destruct success; by rewrite call_callback_session.
Qed.

Section NotOK.

(** A message whose [status] is not "OK". *)
Variable msg : jsval.
Hypothesis not_ok : get_prop msg "status" ≠ Normal (JStr "OK").

Lemma default_body_not_ok (d : default_handler) (w : B3d4api) :
  session_of (snd (default_body d msg w)) = session_of w.
Proof.
  destruct d; unfold default_body; try done.
  - symmetry. revert w.
    do 3 (apply (keeps_bind _ _ (PreOrder0 := eq_preorder_session));
          [by intros w|intros ?]).
    intros w. symmetry. apply resolveClientRequest_session.
  - unfold_m. destruct (get_prop msg "status") as [st| |]; cbn; [|done|done].
    destruct (is_str st "OK") eqn:Hst; [|done]. by apply is_str_eq in Hst as ->.
  - unfold_m. destruct (get_prop msg "status") as [st| |]; cbn; [|done|done].
    destruct (is_str st "OK") eqn:Hst; [|done]. by apply is_str_eq in Hst as ->.
  - unfold_m. destruct (get_prop msg "status") as [st| |]; cbn; [|done|done].
    destruct (is_str st "OK") eqn:Hst; [|done]. by apply is_str_eq in Hst as ->.
  - unfold_m. destruct (get_prop msg "status") as [st| |]; cbn; [|done|done].
    destruct (is_str st "OK") eqn:Hst; [|done]. by apply is_str_eq in Hst as ->.
  - unfold_m. destruct (get_prop msg "status") as [st| |]; cbn; [|done|done].
    destruct (is_str st "OK") eqn:Hst; [|done]. by apply is_str_eq in Hst as ->.
Qed.

Lemma call_handler_not_ok (h : handler) :
  keeps_rel session_of eq (call_handler h msg).
Proof.
  intros w. unfold call_handler, bind, modify, ret.
  destruct h as [|d|id]; cbn [snd]; try done.
  by rewrite default_body_not_ok.
Qed.

Lemma callMessageHandler_not_ok (key : string) :
  keeps_rel session_of eq (_callMessageHandler key msg).
Proof.
  unfold _callMessageHandler.
  apply (keeps_bind _ _ (PreOrder0 := eq_preorder_session)); [by intros w|].
  intros hs. apply (keeps_forEach _ _ (PreOrder0 := eq_preorder_session)).
  apply call_handler_not_ok.
Qed.

Lemma handleServerResponse_not_ok (response : jsval) :
  keeps_rel session_of eq (handleServerResponse response msg).
Proof.
  unfold handleServerResponse. destruct response; try (by intros w).
  apply (keeps_bind _ _ (PreOrder0 := eq_preorder_session));
    intros; apply callMessageHandler_not_ok.
Qed.

Lemma handleServerRequest_not_ok (request : jsval) :
  keeps_rel session_of eq (handleServerRequest request msg).
Proof.
  unfold handleServerRequest. destruct request; try (by intros w).
  apply (keeps_bind _ _ (PreOrder0 := eq_preorder_session));
    intros; apply callMessageHandler_not_ok.
Qed.

Lemma text_message_not_ok (s : string) :
  JSON_parse s = Normal msg → keeps_rel session_of eq (ws_onmessage (Text s)).
Proof.
  intros Hparse w. unfold ws_onmessage. unfold bind at 1, lift. rewrite Hparse.
  revert w.
  change (keeps_rel session_of eq
    (response_to <- lift (get_prop msg "response_to") ;;
     is_response <- lift (truthy response_to) ;;
     if is_response then
       _resolveClientRequest response_to true msg ;;
       handleServerResponse response_to msg
     else
       request <- lift (get_prop msg "request") ;;
       is_request <- lift (truthy request) ;;
       if is_request then handleServerRequest request msg else ret tt)).
  apply (keeps_bind _ _ (PreOrder0 := eq_preorder_session)); [by intros w|].
  intros response_to.
  apply (keeps_bind _ _ (PreOrder0 := eq_preorder_session)); [by intros w|].
  intros [].
  - apply (keeps_bind _ _ (PreOrder0 := eq_preorder_session)).
    + intros w. symmetry. apply resolveClientRequest_session.
    + intros _. apply handleServerResponse_not_ok.
  - apply (keeps_bind _ _ (PreOrder0 := eq_preorder_session)); [by intros w|].
    intros request.
    apply (keeps_bind _ _ (PreOrder0 := eq_preorder_session)); [by intros w|].
    intros []; [apply handleServerRequest_not_ok|by intros w].
Qed.

End NotOK.

(** X15.  Only an answer whose [status] is "OK" moves the session: a
    message whose [status] is anything else, handed to
    [handleServerResponse] or arriving as text on the socket, leaves
    [sessionId], [stationList], [currentStation] and [isPreviewing]
    as they were, whatever handlers the client has and whether or not
    one of them throws. *)
Theorem only_ok_answers_move_the_session
    (response msg : jsval) (s : string) (w w' : B3d4api) :
  get_prop msg "status" ≠ Normal (JStr "OK") →
  exec (handleServerResponse response msg) w = Some w'
  ∨ JSON_parse s = Normal msg ∧ exec (ws_onmessage (Text s)) w = Some w' →
  session_of w' = session_of w.
Proof.
  intros Hstatus [Hexec|[Hparse Hexec]]; apply exec_run in Hexec as ->; symmetry.
  - apply (handleServerResponse_not_ok msg Hstatus response w).
  - apply (text_message_not_ok msg Hstatus s Hparse w).
Qed.

(** X15 on a refused connection. *)
Lemma only_ok_answers_move_the_session_witness :
  session_of
    (run (ws_onmessage
            (Text (dq "{'response_to':'connect','status':'ERROR','session_id':'s2'}")))
       connected_client)
  = session_of connected_client.
Proof.
  apply (only_ok_answers_move_the_session (JStr "connect")
           (JObj [("response_to", JStr "connect"); ("status", JStr "ERROR");
                  ("session_id", JStr "s2")])
           (dq "{'response_to':'connect','status':'ERROR','session_id':'s2'}")
           connected_client).
  - vm_compute. discriminate.
  - right. split; vm_compute; reflexivity.
Defined.

Lemma response_generic_inert (actions : list action) (e : Engine) (host : jsval) (w : B3d4api) :
  run_actions actions (constructor e host) = Some w →
  Forall inert (handlers_of w "response:").
Proof.
  intros Hrun. unfold handlers_of.
  destruct (reachable_key actions e host w "response:" Hrun) as [->|(us & -> & Hus)];
    cbn [default from_option id]; [done|].
  change (builtin_handlers "response:") with [Placeholder].
  constructor; [done|by apply is_user_inert].
Qed.

(** The dispatch under a key that has its built-in function among
    functions of callers. *)
Lemma builtin_dispatch
    (w : B3d4api) (key : string) (d : default_handler) (msg : jsval) (us : list handler) :
  messageHandlers w !! key = Some (Placeholder :: Default d :: us) →
  _callMessageHandler key msg w
  = (default_body d msg ;; forEach us (λ h, call_handler h msg))
      (set_handler_calls (handler_calls w ++ [(Placeholder, msg); (Default d, msg)]) w).
Proof.
  intros Hkey. unfold _callMessageHandler. unfold bind at 1, get. rewrite Hkey.
  cbn [default from_option id forEach].
  unfold bind at 1. unfold call_handler at 1. unfold bind at 1, modify at 1, ret at 1.
  unfold bind at 1. unfold call_handler at 1. unfold bind at 1, modify at 1.
  destruct w. cbn [handler_calls set_handler_calls host ws sessionId stationList
    currentStation isPreviewing messageHandlers openClientRequests promises sockets timers
    callback_calls].
  by rewrite <- !app_assoc.
Qed.

(** The dispatch of a response whose key has its built-in function
    among functions of callers: the calls are recorded, and the
    built-in function runs. *)
Lemma response_dispatch
    (w : B3d4api) (d : default_handler) (name : string) (msg : jsval) (us : list handler) :
  Forall inert (handlers_of w "response:") →
  messageHandlers w !! ("response:" +:+ name) = Some (Placeholder :: Default d :: us) →
  handleServerResponse (JStr name) msg w
  = (default_body d msg ;; forEach us (λ h, call_handler h msg))
      (set_handler_calls
         (handler_calls w
          ++ calls_of (handlers_of w "response:") msg ++ [(Placeholder, msg); (Default d, msg)])
         w).
Proof.
  intros Hgeneric Hspecific.
  unfold handleServerResponse, _callMessageHandler at 1.
  unfold bind at 1 2. unfold get at 1. fold (handlers_of w "response:").
  rewrite (forEach_inert _ _ _ Hgeneric).
  rewrite (builtin_dispatch _ ("response:" +:+ name) d msg us) by exact Hspecific.
  destruct w. cbn [handler_calls set_handler_calls]. by rewrite <- app_assoc.
Qed.

(** The built-in function of an answer that is an object with status
    "OK", followed by functions of callers: one field is written. *)
Lemma ok_answer_body
    (d : default_handler) (props : list (string * jsval)) (us : list handler)
    (f : B3d4api → B3d4api) (v : B3d4api) :
  Forall inert us →
  default_body d (JObj props) v = (Normal tt, f v) →
  (default_body d (JObj props) ;; forEach us (λ h, call_handler h (JObj props))) v
  = (Normal tt,
     set_handler_calls (handler_calls (f v) ++ calls_of us (JObj props)) (f v)).
Proof.
  intros Hus Hbody. unfold bind. rewrite Hbody. by rewrite (forEach_inert _ _ _ Hus).
Qed.

(** X16.  The built-in handlers keep the session: on a client used
    through its public methods, whatever handlers callers have added,
    an answer with [status] "OK" to [connect] sets [sessionId] to its
    [session_id], one to [station_list] sets [stationList] to its
    [stations], one to [preview_start] sets [isPreviewing] and one to
    [preview_stop] clears it; each time [handleServerResponse]
    returns normally. *)
Theorem ok_answers_keep_the_session
    (actions : list action) (e : Engine) (host : jsval) (w : B3d4api) (props : list (string * jsval)) :
  run_actions actions (constructor e host) = Some w →
  own_property props "status" = JStr "OK" →
  (∃ w', handleServerResponse (JStr "connect") (JObj props) w = (Normal tt, w')
         ∧ sessionId w' = own_property props "session_id")
  ∧ (∃ w', handleServerResponse (JStr "station_list") (JObj props) w = (Normal tt, w')
           ∧ stationList w' = own_property props "stations")
  ∧ (∃ w', handleServerResponse (JStr "preview_start") (JObj props) w = (Normal tt, w')
           ∧ isPreviewing w' = true)
  ∧ (∃ w', handleServerResponse (JStr "preview_stop") (JObj props) w = (Normal tt, w')
           ∧ isPreviewing w' = false).
Proof.
  intros Hrun Hstatus.
  pose proof (response_generic_inert actions e host w Hrun) as Hgeneric.
  assert (Hrule : ∀ d name f,
    default_key d = "response:" +:+ name →
    (∀ v, default_body d (JObj props) v = (Normal tt, f v)) →
    ∃ calls calls',
      handleServerResponse (JStr name) (JObj props) w
      = (Normal tt, set_handler_calls calls' (f (set_handler_calls calls w)))).
  { intros d name f Hkey Hbody.
    destruct (reachable_builtin actions e host w d Hrun) as (us & Hd & Hus).
    rewrite Hkey in Hd. apply is_user_inert in Hus.
    rewrite (response_dispatch w d name (JObj props) us Hgeneric Hd).
    rewrite (ok_answer_body d props us f _ Hus (Hbody _)). by eexists _, _. }
  assert (Hconnect : ∀ v, default_body ResponseConnect (JObj props) v
                          = (Normal tt, set_sessionId (own_property props "session_id") v)).
  { intros v. unfold default_body. unfold_m. cbn [get_prop]. by rewrite Hstatus. }
  assert (Hlist : ∀ v, default_body ResponseStationList (JObj props) v
                       = (Normal tt, set_stationList (own_property props "stations") v)).
  { intros v. unfold default_body. unfold_m. cbn [get_prop]. by rewrite Hstatus. }
  assert (Hstart : ∀ v, default_body ResponsePreviewStart (JObj props) v
                        = (Normal tt, set_isPreviewing true v)).
  { intros v. unfold default_body. unfold_m. cbn [get_prop]. by rewrite Hstatus. }
  assert (Hstop : ∀ v, default_body ResponsePreviewStop (JObj props) v
                       = (Normal tt, set_isPreviewing false v)).
  { intros v. unfold default_body. unfold_m. cbn [get_prop]. by rewrite Hstatus. }
  split; [|split; [|split]].
  - destruct (Hrule ResponseConnect "connect" _ eq_refl Hconnect) as (c & c' & ->).
    by eexists.
  - destruct (Hrule ResponseStationList "station_list" _ eq_refl Hlist) as (c & c' & ->).
    by eexists.
  - destruct (Hrule ResponsePreviewStart "preview_start" _ eq_refl Hstart) as (c & c' & ->).
    by eexists.
  - destruct (Hrule ResponsePreviewStop "preview_stop" _ eq_refl Hstop) as (c & c' & ->).
    by eexists.
Qed.

(** X16 on a new client to which a caller has added a handler of its
    own for the answer to [connect]. *)
Lemma ok_answers_keep_the_session_witness :
  ∃ w', handleServerResponse (JStr "connect")
          (JObj [("status", JStr "OK"); ("session_id", JStr "s9")])
          (run (onServerResponse (JStr "connect") (Some (UserHandler 7)))
             (constructor smallest_engine (JStr "ws://station")))
        = (Normal tt, w')
        ∧ sessionId w' = JStr "s9".
Proof.
  refine (proj1 (ok_answers_keep_the_session
                   [CallOnServerResponse (JStr "connect") (Some 7%nat)]
                   smallest_engine (JStr "ws://station") _
                   [("status", JStr "OK"); ("session_id", JStr "s9")] _ eq_refl)).
  vm_compute. reflexivity.
Defined.

Lemma resolve_fulfils (name : string) (msg : jsval) (p : nat) (j : callback) (w : B3d4api) :
  openClientRequests w !! name = Some (PromiseResolve p, j) →
  promises w !! p = Some Pending →
  ∃ w1, _resolveClientRequest (JStr name) true msg w = (Normal tt, w1)
        ∧ promises w1 !! p = Some (Fulfilled msg).
Proof.
  intros Hentry Hp. rewrite (_resolveClientRequest_own name _ _ true msg w Hentry).
  unfold call_callback, settle. unfold_m.
  destruct (String.eqb name "__proto__"); cbn; rewrite Hp;
    (eexists; split; [reflexivity|]; cbn;
     apply list_lookup_insert_eq; by eapply lookup_lt_Some).
Qed.

(** A text message that answers a registered request: the request is
    resolved, then the handlers of the answer run. *)
Lemma answer_runs_after_resolve
    (s : string) (props : list (string * jsval)) (name : string) (w w1 : B3d4api) :
  JSON_parse s = Normal (JObj props) →
  own_property props "response_to" = JStr name →
  name ≠ EmptyString →
  _resolveClientRequest (JStr name) true (JObj props) w = (Normal tt, w1) →
  ws_onmessage (Text s) w = handleServerResponse (JStr name) (JObj props) w1.
Proof.
  intros Hparse Hto Hname Hresolve.
  unfold ws_onmessage. unfold bind at 1, lift. rewrite Hparse.
  unfold bind at 1, lift. cbn [get_prop]. rewrite Hto.
  unfold bind at 1, lift, truthy. cbn [to_boolean].
  apply String.eqb_neq in Hname. rewrite Hname. cbn [negb].
  unfold bind at 1. by rewrite Hresolve.
Qed.

(** X17.  An answer fulfils the request it answers, whatever its
    status: when a text message with a [response_to] arrives while a
    promise made by [sendRequest] or [connect] is registered under
    that name and pending, the promise is fulfilled with the message,
    also when the message reports an error, and whatever the handlers
    do afterwards. *)
Theorem answer_fulfils_the_request
    (s : string) (props : list (string * jsval)) (name : string)
    (p : nat) (j : callback) (w w' : B3d4api) :
  JSON_parse s = Normal (JObj props) →
  own_property props "response_to" = JStr name →
  name ≠ EmptyString →
  openClientRequests w !! name = Some (PromiseResolve p, j) →
  promises w !! p = Some Pending →
  exec (ws_onmessage (Text s)) w = Some w' →
  promises w' !! p = Some (Fulfilled (JObj props)).
Proof.
  intros Hparse Hto Hname Hentry Hp Hexec. apply exec_run in Hexec as ->.
  destruct (resolve_fulfils name (JObj props) p j w Hentry Hp) as (w1 & Hresolve & Hp1).
  unfold run. rewrite (answer_runs_after_resolve s props name w w1) by done.
  by apply (perform_keeps_settled (CallHandleServerResponse (JStr name) (JObj props)) w1).
Qed.

(** X17 on the connected client, whose request for the stations is
    answered with an error. *)
Lemma answer_fulfils_the_request_witness :
  promises
    (run (ws_onmessage (Text (dq "{'response_to':'station_list','status':'ERROR'}")))
       (run (listStations JUndefined) connected_client)) !! 1%nat
  = Some (Fulfilled (JObj [("response_to", JStr "station_list"); ("status", JStr "ERROR")])).
Proof.
  apply (answer_fulfils_the_request
           (dq "{'response_to':'station_list','status':'ERROR'}") _ "station_list" 1
           (PromiseReject 1) (run (listStations JUndefined) connected_client)).
  - vm_compute. reflexivity.
  - reflexivity.
  - discriminate.
  - vm_compute. reflexivity.
  - vm_compute. reflexivity.
  - vm_compute. reflexivity.
Defined.

(** ** Sending *)

(** X18.  A message is sent under the session of the client: with a
    session and an open socket, [sendMessage] hands to the socket the
    message with [session_id] set to the client's [sessionId],
    replacing any [session_id] the message had and leaving its other
    properties as they were; nothing else changes. *)
Theorem sendMessage_stamps_the_session
    (w : B3d4api) (props : list (string * jsval)) (i : nat) (s : WebSocket) :
  to_boolean (sessionId w) = Some true →
  ws w = Some i →
  sockets w !! i = Some s →
  readyState s = OPEN →
  ∃ m, sendMessage (JObj props) w
       = (Normal tt,
          set_sockets
            (alter (λ s, mkWebSocket (url s) OPEN (sent s ++ [JObj m])) i (sockets w)) w)
       ∧ own_property m "session_id" = sessionId w
       ∧ ∀ k, k ≠ "session_id" → own_property m k = own_property props k.
Proof.
  intros Hsid Hws Hsock Hopen.
  exists (set_own props "session_id" (sessionId w)). split; [|split].
  - unfold sendMessage, ws_send, update_socket, truthy. unfold_m.
    rewrite Hsid. cbn. rewrite Hws, Hsock. cbn. by rewrite Hopen.
  - apply own_property_set_own.
  - intros k Hk. by apply own_property_set_own_ne.
Qed.

(** X18 on the connected client and a message that names another
    session. *)
Lemma sendMessage_stamps_the_session_witness :
  ∃ m, sent <$> sockets
                  (run (sendMessage
                          (JObj [("session_id", JStr "other"); ("request", JStr "ping")]))
                     connected_client) !! 0%nat
       = Some [JObj m]
       ∧ own_property m "session_id" = JStr "s1"
       ∧ own_property m "request" = JStr "ping".
Proof.
  destruct (sendMessage_stamps_the_session connected_client
              [("session_id", JStr "other"); ("request", JStr "ping")] 0
              (mkWebSocket (JStr "ws://station") OPEN []))
    as (m & Hsend & Hsid & Hrest); [vm_compute; reflexivity..|].
  exists m. unfold run. rewrite Hsend. split; [vm_compute; reflexivity|].
  split; [exact Hsid|]. by apply (Hrest "request").
Defined.

(** X19.  A request made while the socket is still connecting fails
    at once but stays registered: with a session and a connecting
    socket, [sendRequest] returns a promise already rejected with the
    [InvalidStateError] of [send]; the promise's functions remain in
    [openClientRequests] under the name of the request, no timer is
    set whatever the timeout, and nothing is sent. *)
Theorem request_on_connecting_socket_is_rejected
    (w : B3d4api) (props : list (string * jsval)) (name : string) (timeout : jsval)
    (i : nat) (s : WebSocket) :
  to_boolean (sessionId w) = Some true →
  own_property props "request" = JStr name →
  name ≠ EmptyString →
  ws w = Some i →
  sockets w !! i = Some s →
  readyState s = CONNECTING →
  let p := length (promises w) in
  sendRequest (JObj props) timeout w
  = (Normal p,
     set_promises (promises w ++ [Rejected (JErr InvalidStateError)])
       (set_openClientRequests
          (<[name := (PromiseResolve p, PromiseReject p)]> (openClientRequests w)) w)).
Proof.
  intros Hsid Hreq Hname Hws Hsock Hstate. cbn zeta.
  apply String.eqb_neq in Hname.
  destruct w as [h sock sid sl cs ip mh ocr ps ss ts hc cc en]. cbn in Hsid, Hws, Hsock |- *.
  subst sock.
  unfold sendRequest, truthy, new_Promise, new_promise, _registerClientRequest,
    sendMessage, ws_send, setTimeout, update_socket, settle, truthy.
  unfold_m. cbn. rewrite Hsid. cbn. rewrite Hreq. cbn. rewrite Hname. cbn.
  rewrite Hsid. cbn. rewrite Hsock. cbn. rewrite Hstate. cbn.
  rewrite list_lookup_middle by done.
  replace (<[length ps := Rejected (JErr InvalidStateError)]> (ps ++ [Pending]))
    with (ps ++ [Rejected (JErr InvalidStateError)]); [done|].
  rewrite <- (Nat.add_0_r (length ps)) at 1. by rewrite insert_app_r.
Qed.

(** X19 on the connected client that calls [connect] again and asks
    for a session before the new socket has opened. *)
Lemma request_on_connecting_socket_is_rejected_witness :
  let w := run (initSession (JInt 50)) (run (connect JUndefined) connected_client) in
  promises w !! 2%nat = Some (Rejected (JErr InvalidStateError))
  ∧ openClientRequests w !! "session_init" = Some (PromiseResolve 2, PromiseReject 2)
  ∧ timers w = [].
Proof.
  cbn zeta. unfold run at 1 3 5, initSession, or_null.
  rewrite (request_on_connecting_socket_is_rejected
             (run (connect JUndefined) connected_client)
             [("request", JStr "session_init")] "session_init" (JInt 50) 1
             (mkWebSocket (JStr "ws://station") CONNECTING []));
    [|vm_compute; reflexivity|reflexivity|discriminate|vm_compute; reflexivity..].
  vm_compute. repeat split; reflexivity.
Defined.

(** ** Connecting and closing *)




Lemma close_handlers (actions : list action) (e : Engine) (host : jsval) (w : B3d4api) :
  run_actions actions (constructor e host) = Some w →
  ∃ us, messageHandlers w !! "connection:close"
        = Some (Placeholder :: Default ConnectionClose :: us)
        ∧ Forall inert us.
Proof.
  intros Hrun.
  destruct (reachable_builtin actions e host w ConnectionClose Hrun) as (us & Hus & Huser).
  exists us. split; [exact Hus|by apply is_user_inert].
Qed.

Lemma reject_rejects (name : string) (msg : jsval) (p : nat) (r : callback) (w : B3d4api) :
  openClientRequests w !! name = Some (r, PromiseReject p) →
  promises w !! p = Some Pending →
  ∃ w1, _resolveClientRequest (JStr name) false msg w = (Normal tt, w1)
        ∧ promises w1 !! p = Some (Rejected msg).
Proof.
  intros Hentry Hp. rewrite (_resolveClientRequest_own name _ _ false msg w Hentry).
  unfold call_callback, settle. unfold_m.
  destruct (String.eqb name "__proto__"); cbn; rewrite Hp;
    (eexists; split; [reflexivity|]; cbn;
     apply list_lookup_insert_eq; by eapply lookup_lt_Some).
Qed.

(** X21.  The closing of a socket rejects the pending [connect]: on a
    client used through its public methods, when a socket (any of the
    client's sockets, not only the current one) closes while the
    promise of [connect] is registered and pending, the close handler
    returns normally and that promise is rejected with status
    "ERROR", the message "rejected by websocket onclose()" and the
    [code], [reason] and [wasClean] of the close event, whatever
    handlers callers have added. *)
Theorem close_rejects_the_pending_connect
    (actions : list action) (e : Engine) (host : jsval) (w : B3d4api)
    (i : nat) (props : list (string * jsval)) (p : nat) (r : callback) :
  run_actions actions (constructor e host) = Some w →
  openClientRequests w !! "connect" = Some (r, PromiseReject p) →
  promises w !! p = Some Pending →
  ∃ w', transport_close i (JObj props) w = (Normal tt, w')
        ∧ promises w' !! p
          = Some (Rejected
                    (JObj [("status", JStr "ERROR");
                           ("message", JStr "rejected by websocket onclose()");
                           ("event", JObj [("code", own_property props "code");
                                           ("reason", own_property props "reason");
                                           ("wasClean", own_property props "wasClean")])])).
Proof.
  intros Hrun Hentry Hp.
  destruct (close_handlers actions e host w Hrun) as (us & Hhandlers & Hus).
  unfold transport_close, ws_onclose, update_socket.
  unfold bind at 1, modify at 1.
  set (w1 := set_sockets _ w).
  rewrite (builtin_dispatch w1 "connection:close" ConnectionClose (JObj props) us)
    by exact Hhandlers.
  set (w2 := set_handler_calls _ w1).
  destruct (reject_rejects "connect"
              (JObj (obj_error "rejected by websocket onclose()"
                     ++ [("event", JObj [("code", own_property props "code");
                                         ("reason", own_property props "reason");
                                         ("wasClean", own_property props "wasClean")])]))
              p r w2) as (w3 & Hreject & Hp3); [by destruct w..|].
  unfold bind at 1.
  assert (Hbody : default_body ConnectionClose (JObj props) w2 = (Normal tt, w3))
    by (rewrite <- Hreject; reflexivity).
  rewrite Hbody, (forEach_inert us (JObj props) w3 Hus).
  eexists. split; [reflexivity|exact Hp3].
Qed.

(** X21 on a client whose first socket fails to connect. *)
Lemma close_rejects_the_pending_connect_witness :
  ∃ w', transport_close 0
          (JObj [("code", JInt 1006); ("reason", JStr EmptyString);
                 ("wasClean", JBool false)])
          (run (connect JUndefined) (constructor smallest_engine (JStr "ws://station")))
        = (Normal tt, w')
        ∧ promises w' !! 0%nat
          = Some (Rejected
                    (JObj [("status", JStr "ERROR");
                           ("message", JStr "rejected by websocket onclose()");
                           ("event", JObj [("code", JInt 1006); ("reason", JStr EmptyString);
                                           ("wasClean", JBool false)])])).
Proof.
  apply (close_rejects_the_pending_connect [CallConnect JUndefined] smallest_engine (JStr "ws://station")
           (run (connect JUndefined) (constructor smallest_engine (JStr "ws://station"))) 0
           [("code", JInt 1006); ("reason", JStr EmptyString); ("wasClean", JBool false)]
           0 (PromiseResolve 0)).
  - vm_compute. reflexivity.
  - vm_compute. reflexivity.
  - vm_compute. reflexivity.
Defined.

(** ** Requests on an open socket *)

(** [sendRequest] on a client with a session and an open socket: the
    promise is made and registered under the name of the request, the
    message is sent under the session, and a timer is set for a
    timeout that is a non-zero number. *)
Lemma sendRequest_open
    (w : B3d4api) (props : list (string * jsval)) (name : string) (timeout : jsval)
    (i : nat) (s : WebSocket) :
  to_boolean (sessionId w) = Some true →
  own_property props "request" = JStr name →
  name ≠ EmptyString →
  ws w = Some i →
  sockets w !! i = Some s →
  readyState s = OPEN →
  let p := length (promises w) in
  sendRequest (JObj props) timeout w
  = (timeout_completion timeout p,
     set_timers (timeout_timers timeout name (timers w))
       (set_sockets
          (alter (λ s, mkWebSocket (url s) OPEN
                         (sent s ++ [JObj (set_own props "session_id" (sessionId w))]))
             i (sockets w))
          (set_openClientRequests
             (<[name := (PromiseResolve p, PromiseReject p)]> (openClientRequests w))
             (set_promises (promises w ++ [Pending]) w)))).
Proof.
  intros Hsid Hreq Hname Hws Hsock Hstate. cbn zeta.
  apply String.eqb_neq in Hname.
  destruct w as [h sock sid sl cs ip mh ocr ps ss ts hc cc en]. cbn in Hsid, Hws, Hsock |- *.
  subst sock.
  unfold sendRequest, truthy, new_Promise, new_promise, _registerClientRequest,
    sendMessage, ws_send, setTimeout, update_socket, settle, truthy.
  unfold_m. cbn. rewrite Hsid. cbn. rewrite Hreq. cbn. rewrite Hname. cbn.
  rewrite Hsid. cbn. rewrite Hsock. cbn. rewrite Hstate. cbn.
  destruct timeout; cbn; try done. by destruct (n =? 0).
Qed.

Lemma sent_on_after_send (w : B3d4api) (i : nat) (s : WebSocket) (m : jsval) ocr ps ts :
  sockets w !! i = Some s →
  sent_on i
    (set_timers ts
       (set_sockets (alter (λ s, mkWebSocket (url s) OPEN (sent s ++ [m])) i (sockets w))
          (set_openClientRequests ocr (set_promises ps w))))
  = sent_on i w ++ [m].
Proof.
  intros Hsock. unfold sent_on. destruct w; cbn in *.
  rewrite list_lookup_alter_eq, Hsock. done.
Qed.

(** A request made while previewing, by a method that stops the
    preview first. *)
Lemma stop_preview_then_request
    (w : B3d4api) (props : list (string * jsval)) (name : string) (timeout : jsval)
    (i : nat) (s : WebSocket) :
  to_boolean (sessionId w) = Some true →
  isPreviewing w = true →
  ws w = Some i →
  sockets w !! i = Some s →
  readyState s = OPEN →
  own_property props "request" = JStr name →
  name ≠ EmptyString →
  modelled_timeout timeout →
  ∃ w', (stop_preview_first ;; sendRequest (JObj props) timeout) w
        = (Normal (S (length (promises w))), w')
        ∧ sent_on i w'
          = sent_on i w
            ++ [JObj [("request", JStr "preview_stop"); ("session_id", sessionId w)];
                JObj (set_own props "session_id" (sessionId w))]
        ∧ isPreviewing w' = true.
Proof.
  intros Hsid Hprev Hws Hsock Hstate Hreq Hname Htimeout.
  set (w1 := snd (sendRequest (JObj [("request", JStr "preview_stop")]) JNull w)).
  assert (Hfirst : sendRequest (JObj [("request", JStr "preview_stop")]) JNull w
                   = (Normal (length (promises w)), w1)).
  { subst w1.
    by rewrite (sendRequest_open w [("request", JStr "preview_stop")] "preview_stop"
                  JNull i s Hsid eq_refl ltac:(done) Hws Hsock Hstate). }
  assert (Hw1 : sockets w1 !! i
                = Some (mkWebSocket (url s) OPEN
                          (sent s ++ [JObj [("request", JStr "preview_stop");
                                            ("session_id", sessionId w)]]))
                ∧ sent_on i w1
                  = sent_on i w ++ [JObj [("request", JStr "preview_stop");
                                          ("session_id", sessionId w)]]
                ∧ sessionId w1 = sessionId w ∧ ws w1 = ws w ∧ isPreviewing w1 = true
                ∧ length (promises w1) = S (length (promises w))).
  { subst w1.
    rewrite (sendRequest_open w [("request", JStr "preview_stop")] "preview_stop"
               JNull i s Hsid eq_refl ltac:(done) Hws Hsock Hstate).
    cbn [snd]. rewrite (sent_on_after_send w i s) by done.
    destruct w; cbn in *. rewrite list_lookup_alter_eq, Hsock, length_app. cbn.
    repeat split; try done. lia. }
  destruct Hw1 as (Hsock1 & Hsent1 & Hsid1 & Hws1 & Hprev1 & Hlen1).
  assert (Hrun : (stop_preview_first ;; sendRequest (JObj props) timeout) w
                 = sendRequest (JObj props) timeout w1).
  { unfold stop_preview_first. unfold bind at 1 2, get at 1. rewrite Hprev.
    unfold bind at 1, stopPreview. unfold bind at 1, get at 1. rewrite Hprev.
    cbn [negb or_null]. by rewrite Hfirst. }
  rewrite Hrun.
  rewrite (sendRequest_open w1 props name timeout i _
             ltac:(by rewrite Hsid1) Hreq Hname ltac:(by rewrite Hws1) Hsock1 eq_refl).
  eexists. split; [|split].
  - rewrite Hlen1. by destruct timeout.
  - rewrite (sent_on_after_send w1 i _ _ _ _ _ Hsock1), Hsent1, Hsid1.
    by rewrite <- app_assoc.
  - rewrite <- Hprev1. by destruct w1.
Qed.

(** X22.  A scan stops the preview first: on a client with a session
    and an open socket that is previewing, [recordScan], [processScan]
    (with a string id) and [getCameraStatus] send the [preview_stop]
    request and then their own request, in this order and both under
    the session, and return the promise of their own request;
    [isPreviewing] stays true, as only the answer to [preview_stop]
    clears it. *)
Theorem scan_stops_the_preview_first
    (w : B3d4api) (timeout debug : jsval) (scanId : string) (i : nat) (s : WebSocket) :
  to_boolean (sessionId w) = Some true →
  isPreviewing w = true →
  ws w = Some i →
  sockets w !! i = Some s →
  readyState s = OPEN →
  modelled_timeout timeout →
  let stop := JObj [("request", JStr "preview_stop"); ("session_id", sessionId w)] in
  let p := S (length (promises w)) in
  (∃ w', recordScan timeout w = (Normal p, w')
         ∧ sent_on i w'
           = sent_on i w
             ++ [stop; JObj [("request", JStr "scan_record"); ("session_id", sessionId w)]]
         ∧ isPreviewing w' = true)
  ∧ (∃ w', processScan (JStr scanId) timeout debug w = (Normal p, w')
           ∧ sent_on i w'
             = sent_on i w
               ++ [stop;
                   JObj [("request", JStr "scan_process"); ("scan_id", JStr scanId);
                         ("type", JStr "HEADMODEL");
                         ("debug", match debug with JUndefined => JBool false | _ => debug end);
                         ("session_id", sessionId w)]]
           ∧ isPreviewing w' = true)
  ∧ (∃ w', getCameraStatus timeout w = (Normal p, w')
           ∧ sent_on i w'
             = sent_on i w
               ++ [stop; JObj [("request", JStr "camera_status"); ("session_id", sessionId w)]]
           ∧ isPreviewing w' = true).
Proof.
  intros Hsid Hprev Hws Hsock Hstate Htimeout. cbn zeta.
  assert (Hnull : modelled_timeout (or_null timeout)) by (by destruct timeout).
  split; [|split].
  - exact (stop_preview_then_request w [("request", JStr "scan_record")] "scan_record"
             (or_null timeout) i s Hsid Hprev Hws Hsock Hstate eq_refl ltac:(done) Hnull).
  - exact (stop_preview_then_request w
             [("request", JStr "scan_process"); ("scan_id", JStr scanId);
              ("type", JStr "HEADMODEL");
              ("debug", match debug with JUndefined => JBool false | _ => debug end)]
             "scan_process" (or_null timeout) i s Hsid Hprev Hws Hsock Hstate
             eq_refl ltac:(done) Hnull).
  - exact (stop_preview_then_request w [("request", JStr "camera_status")] "camera_status"
             (or_null timeout) i s Hsid Hprev Hws Hsock Hstate eq_refl ltac:(done) Hnull).
Qed.

(** X22 on the connected client, once the server has confirmed the
    start of a preview. *)
Lemma scan_stops_the_preview_first_witness :
  ∃ w', recordScan JUndefined
          (run (ws_onmessage (Text (dq "{'response_to':'preview_start','status':'OK'}")))
             connected_client)
        = (Normal 2%nat, w')
        ∧ sent_on 0 w'
          = [JObj [("request", JStr "preview_stop"); ("session_id", JStr "s1")];
             JObj [("request", JStr "scan_record"); ("session_id", JStr "s1")]]
        ∧ isPreviewing w' = true.
Proof.
  exact (proj1 (scan_stops_the_preview_first
           (run (ws_onmessage (Text (dq "{'response_to':'preview_start','status':'OK'}")))
              connected_client)
           JUndefined JUndefined "scan" 0 (mkWebSocket (JStr "ws://station") OPEN [])
           eq_refl eq_refl eq_refl eq_refl eq_refl I)).
Defined.

(** X23.  [sendRequest] refuses what it cannot send: without a
    session, or with a message that is falsy, or with a message
    object whose [request] is falsy or missing, it returns a promise
    already rejected with status "ERROR" and the message "invalid
    session or invalid request"; nothing is registered, sent or
    timed. *)
Theorem invalid_request_is_rejected (w : B3d4api) (msg timeout : jsval) :
  to_boolean (sessionId w) = Some false
  ∨ to_boolean (sessionId w) = Some true
    ∧ (to_boolean msg = Some false
       ∨ ∃ props, msg = JObj props
                  ∧ to_boolean (own_property props "request") = Some false) →
  sendRequest msg timeout w
  = (Normal (length (promises w)),
     set_promises
       (promises w
        ++ [Rejected (JObj [("status", JStr "ERROR");
                            ("message", JStr "invalid session or invalid request")])])
       w).
Proof.
  unfold sendRequest, truthy, Promise_reject. unfold_m.
  intros [Hsid|[Hsid [Hmsg|(props & -> & Hreq)]]]; rewrite Hsid; cbn [negb]; [done| |].
  - by rewrite Hmsg.
  - cbn [to_boolean get_prop negb]. by rewrite Hreq.
Qed.

(** X23 on a new client, which has no session yet. *)
Lemma invalid_request_is_rejected_witness :
  promises (run (sendRequest (JObj [("request", JStr "station_list")]) JNull)
              (constructor smallest_engine (JStr "ws://station")))
  = [Rejected (JObj [("status", JStr "ERROR");
                     ("message", JStr "invalid session or invalid request")])].
Proof.
  unfold run.
  rewrite (invalid_request_is_rejected (constructor smallest_engine (JStr "ws://station"))
             (JObj [("request", JStr "station_list")]) JNull);
    [|left; vm_compute; reflexivity].
  vm_compute. reflexivity.
Defined.

(** ** Messages of the server and the transport *)

Lemma eq_preorder_transport :
  PreOrder (@eq (option nat * list WebSocket * list timer * nat)).
Proof. split; [by intros ?|by intros ? ? ? -> ->]. Qed.

Lemma settle_transport p st : keeps_rel transport_of eq (settle p st).
Proof.
  intros w. unfold settle, modify, transport_of. cbn [snd].
  destruct (promises w !! p) as [[| |]|]; try done.
  destruct w; cbn. by rewrite length_insert.
Qed.

Lemma ws_onmessage_transport (data : ws_data) (w : B3d4api) :
  transport_of (run (ws_onmessage data) w) = transport_of w.
Proof.
  symmetry.
  apply (keeps_ws_onmessage transport_of eq (PreOrder0 := eq_preorder_transport));
    [apply settle_transport|done..].
Qed.

(** X24.  A message of the server makes the client send nothing: for
    every message, text or binary, and every client, the message
    handler of the socket leaves the client's socket, every socket
    (its state and what it has sent), the timers and the number of
    promises as they were. *)
Theorem server_message_sends_nothing (data : ws_data) (w w' : B3d4api) :
  exec (ws_onmessage data) w = Some w' →
  ws w' = ws w
  ∧ sockets w' = sockets w
  ∧ timers w' = timers w
  ∧ length (promises w') = length (promises w).
Proof.
  intros Hexec. apply exec_run in Hexec as ->.
  pose proof (ws_onmessage_transport data w) as H. unfold transport_of in H.
  by simplify_eq.
Qed.

(** X24 on the connected client, when the list of stations arrives. *)
Lemma server_message_sends_nothing_witness :
  let w' := run (ws_onmessage
                   (Text (dq "{'response_to':'station_list','status':'OK','stations':{}}")))
              connected_client in
  ws w' = ws connected_client
  ∧ sockets w' = sockets connected_client
  ∧ timers w' = timers connected_client
  ∧ length (promises w') = length (promises connected_client).
Proof.
  apply (server_message_sends_nothing
           (Text (dq "{'response_to':'station_list','status':'OK','stations':{}}"))
           connected_client).
  vm_compute. reflexivity.
Defined.

(** X25.  A timer outlives the request that set it: requests are
    registered by name, so when a request with a timeout has been
    answered and a second request of the same name is pending, the
    timer of the first rejects the promise of the second with
    [{session_id, message: "timed out"}], also when the second was
    made without a timeout; the promise of the first stays fulfilled
    with its answer. *)
Theorem timer_of_an_answered_request_rejects_the_next
    (w : B3d4api) (props answer : list (string * jsval)) (name text : string) (n : Z)
    (i : nat) (s : WebSocket) :
  to_boolean (sessionId w) = Some true →
  own_property props "request" = JStr name →
  name ≠ EmptyString →
  n ≠ 0 →
  ws w = Some i →
  sockets w !! i = Some s →
  readyState s = OPEN →
  JSON_parse text = Normal (JObj answer) →
  own_property answer "response_to" = JStr name →
  own_property answer "status" ≠ JStr "OK" →
  let first := length (promises w) in
  ∃ w1, sendRequest (JObj props) (JInt n) w = (Normal first, w1)
        ∧ ∀ w2, exec (ws_onmessage (Text text)) w1 = Some w2 →
            ∃ w3 w4,
              sendRequest (JObj props) JNull w2 = (Normal (S first), w3)
              ∧ fire_timer (length (timers w)) w3 = (Normal tt, w4)
              ∧ timers w3 !! length (timers w) = Some (mkTimer (JStr name) n)
              ∧ promises w3 !! S first = Some Pending
              ∧ promises w4 !! first = Some (Fulfilled (JObj answer))
              ∧ promises w4 !! S first
                = Some (Rejected (JObj [("session_id", sessionId w);
                                        ("message", JStr "timed out")])).
Proof.
  intros Hsid Hreq Hname Hn Hws Hsock Hstate Hparse Hto Hstatus first.
  (* the first request *)
  destruct (sendRequest (JObj props) (JInt n) w) as [c1 w1] eqn:Hfirst.
  rewrite (sendRequest_open w props name (JInt n) i s) in Hfirst by done.
  cbn [timeout_completion timeout_timers] in Hfirst.
  destruct (Z.eqb_spec n 0) as [?|_]; [done|].
  injection Hfirst as <- Hw1. fold first in Hw1. symmetry in Hw1.
  exists w1. split; [done|]. intros w2 Hexec. apply exec_run in Hexec.
  assert (H1 : sessionId w1 = sessionId w ∧ ws w1 = Some i
               ∧ timers w1 = timers w ++ [mkTimer (JStr name) n]
               ∧ promises w1 = promises w ++ [Pending]
               ∧ openClientRequests w1 !! name = Some (PromiseResolve first, PromiseReject first)
               ∧ ∃ s1, sockets w1 !! i = Some s1 ∧ readyState s1 = OPEN).
  { rewrite Hw1. destruct w; cbn in *. repeat split; try done.
    - apply lookup_insert_eq.
    - eexists. rewrite list_lookup_alter_eq, Hsock. by split. }
  destruct H1 as (Hsid1 & Hws1 & Hts1 & Hps1 & Hentry1 & s1 & Hsock1 & Hstate1).
  clear Hw1.
  (* the answer *)
  assert (Hnot_ok : get_prop (JObj answer) "status" ≠ Normal (JStr "OK"))
    by (cbn; congruence).
  pose proof (text_message_not_ok (JObj answer) Hnot_ok text Hparse w1) as Hsession2.
  pose proof (ws_onmessage_transport (Text text) w1) as Htransport2.
  change (snd (ws_onmessage (Text text) w1)) with (run (ws_onmessage (Text text)) w1)
    in Hsession2.
  rewrite <- Hexec in Hsession2, Htransport2.
  unfold session_of in Hsession2. unfold transport_of in Htransport2.
  injection Hsession2 as Hsid12 _ _ _.
  injection Htransport2 as Hws12 Hss12 Hts12 Hlen12.
  assert (Hp1 : promises w1 !! first = Some Pending)
    by (rewrite Hps1; by apply list_lookup_middle).
  assert (Hfulfilled : promises w2 !! first = Some (Fulfilled (JObj answer))).
  { destruct (resolve_fulfils name (JObj answer) first (PromiseReject first) w1 Hentry1 Hp1)
      as (v & Hresolve & Hv).
    rewrite Hexec. unfold run.
    rewrite (answer_runs_after_resolve text answer name w1 v) by done.
    by apply (perform_keeps_settled
                (CallHandleServerResponse (JStr name) (JObj answer)) v). }
  assert (H2 : to_boolean (sessionId w2) = Some true ∧ sessionId w2 = sessionId w
               ∧ ws w2 = Some i ∧ sockets w2 !! i = Some s1
               ∧ timers w2 = timers w ++ [mkTimer (JStr name) n]
               ∧ length (promises w2) = S first).
  { repeat split; try congruence.
    rewrite Hlen12, Hps1, length_app. cbn. subst first. lia. }
  destruct H2 as (Hlive2 & Hsid2 & Hws2 & Hsock2 & Hts2 & Hlen2).
  clear Hexec.
  (* the second request *)
  destruct (sendRequest (JObj props) JNull w2) as [c3 w3] eqn:Hsecond.
  rewrite (sendRequest_open w2 props name JNull i s1) in Hsecond by done.
  cbn [timeout_completion timeout_timers] in Hsecond. rewrite Hlen2 in Hsecond.
  injection Hsecond as <- Hw3. symmetry in Hw3.
  assert (H3 : sessionId w3 = sessionId w
               ∧ timers w3 !! length (timers w) = Some (mkTimer (JStr name) n)
               ∧ promises w3 !! first = Some (Fulfilled (JObj answer))
               ∧ promises w3 !! S first = Some Pending
               ∧ openClientRequests w3 !! name
                 = Some (PromiseResolve (S first), PromiseReject (S first))).
  { rewrite Hw3.
    cbn [sessionId timers promises openClientRequests
         set_timers set_sockets set_openClientRequests set_promises].
    split; [exact Hsid2|]. split; [rewrite Hts2; by apply list_lookup_middle|].
    split; [by apply lookup_app_l_Some|]. split; [by apply list_lookup_middle|].
    apply lookup_insert_eq. }
  destruct H3 as (Hsid3 & Htimer3 & Hp3 & Hq3 & Hentry3).
  clear Hw3.
  (* the timer of the first request *)
  destruct (fire_timer_rejects w3 (length (timers w)) name n (PromiseResolve (S first))
              (S first) Htimer3 Hentry3 Hq3) as (Hnormal & Hrejected & _).
  rewrite Hsid3 in Hrejected. unfold run in Hrejected.
  pose proof (perform_keeps_settled (TimerFires (length (timers w))) w3 first _ Hp3 I)
    as Hkept.
  cbn [perform] in Hkept.
  destruct (fire_timer (length (timers w)) w3) as [c4 w4] eqn:Hfire.
  cbn [fst snd] in *. subst c4.
  exists w3, w4. by rewrite Hfire.
Qed.

(** X25 on the connected client: a request for the stations with a
    timeout of 50 ms is answered, a second one is made without a
    timeout, and the timer of the first fires. *)
Lemma timer_of_an_answered_request_rejects_the_next_witness :
  promises
    (run (fire_timer 0)
       (run (sendRequest (JObj [("request", JStr "station_list")]) JNull)
          (run (ws_onmessage (Text (dq "{'response_to':'station_list','status':'BUSY'}")))
             (run (sendRequest (JObj [("request", JStr "station_list")]) (JInt 50))
                connected_client)))) !! 2%nat
  = Some (Rejected (JObj [("session_id", JStr "s1"); ("message", JStr "timed out")])).
Proof.
  destruct (timer_of_an_answered_request_rejects_the_next connected_client
              [("request", JStr "station_list")]
              [("response_to", JStr "station_list"); ("status", JStr "BUSY")]
              "station_list" (dq "{'response_to':'station_list','status':'BUSY'}") 50 0
              (mkWebSocket (JStr "ws://station") OPEN []))
    as (w1 & Hfirst & Hrest);
    [vm_compute; reflexivity|reflexivity|discriminate|lia|vm_compute; reflexivity
    |vm_compute; reflexivity|reflexivity|vm_compute; reflexivity|reflexivity
    |discriminate|].
  unfold run at 4. rewrite Hfirst. cbn [snd].
  destruct (Hrest (run (ws_onmessage
                          (Text (dq "{'response_to':'station_list','status':'BUSY'}"))) w1))
    as (w3 & w4 & Hsecond & Hfire & _ & _ & _ & Hrejected).
  { unfold exec, run.
    assert (Hw1 : w1 = snd (sendRequest (JObj [("request", JStr "station_list")]) (JInt 50)
                              connected_client)) by (by rewrite Hfirst).
    rewrite Hw1. vm_compute. reflexivity. }
  change (length (timers connected_client)) with 0%nat in Hfire.
  unfold run at 2. rewrite Hsecond. cbn [snd]. unfold run. rewrite Hfire. exact Hrejected.
Defined.
